(** * Navigation engine of the merchandise store bot

    A shallow embedding of [src/bot/misc/paginator.py] (the [PageNode]
    tree, [KeyboardBuilder.create_navigation], [Paginator._get_page_content],
    [Paginator.show_page], [Paginator.handle_navigation]), of the search
    resets of the FAQ scene ([src/bot/handlers/faq.py]) and of the quantity
    check of the add-to-cart flow ([src/bot/handlers/catalog.py]), followed
    by the content sources of the three scenes ([faq_loader_function],
    [catalog_loader_function], [cart_loader_function]) over the query
    results they read, and the handlers that complete the add-to-cart flow
    ([add_to_cart], [confirm], [deny], [add_product_to_user_cart]).

    Python objects live in a heap of [PageNode] records addressed by
    locations, so that the [parent] back-reference and the mutation of a
    node through any of its references are modelled as they are in the
    source.  A Python [dict] is an association list in insertion order
    whose keys are unique; integers are [Z]. *)

From Stdlib Require Import ZArith Lia DecimalString DecimalZ DecimalPos.
From stdpp Require Import base list strings.

Local Open Scope Z_scope.

(** ** Python values used by the engine *)

(** [str(n)] for an integer. *)
Definition py_str (n : Z) : string := NilZero.string_of_int (Z.to_int n).

(** Index normalisation of a slice bound, as [PySlice_AdjustIndices]
    does for a step of one. *)
Definition py_clamp (len i : Z) : Z :=
  if i <? 0 then Z.max 0 (i + len) else Z.min i len.

(** [l[start:stop]]. *)
Definition py_slice {A} (l : list A) (start stop : Z) : list A :=
  let len := Z.of_nat (length l) in
  let s := py_clamp len start in
  let e := py_clamp len stop in
  take (Z.to_nat (e - s)) (drop (Z.to_nat s) l).

(** ** Insertion-ordered dictionaries *)

Abbreviation dict K V := (list (K * V)).

Section PyDict.
Context {K V : Type} `{EqDecision K}.

Definition dict_keys (d : dict K V) : list K := d.*1.

(** [d[k]] / [d.get(k)]. *)
Fixpoint dict_get (d : dict K V) (k : K) : option V :=
  match d with
  | [] => None
  | (k', v) :: d' => if decide (k' = k) then Some v else dict_get d' k
  end.

(** [k in d]. *)
Definition dict_contains (d : dict K V) (k : K) : bool :=
  bool_decide (is_Some (dict_get d k)).

(** [d[k] = v]: an existing key keeps its position, a new key goes last. *)
Fixpoint dict_set (d : dict K V) (k : K) (v : V) : dict K V :=
  match d with
  | [] => [(k, v)]
  | (k', v') :: d' =>
      if decide (k' = k) then (k', v) :: d' else (k', v') :: dict_set d' k v
  end.

(** [del d[k]] / [d.pop(k, None)]. *)
Fixpoint dict_del (d : dict K V) (k : K) : dict K V :=
  match d with
  | [] => []
  | (k', v') :: d' =>
      if decide (k' = k) then d' else (k', v') :: dict_del d' k
  end.

(** [{**d, **e}] and [d.update(e)]. *)
Definition dict_update (d e : dict K V) : dict K V :=
  foldl (fun acc kv => dict_set acc kv.1 kv.2) d e.

(** [list(d.keys()).index(k)]; [None] stands for [ValueError]. *)
Fixpoint dict_index (d : dict K V) (k : K) : option nat :=
  match d with
  | [] => None
  | (k', _) :: d' =>
      if decide (k' = k) then Some 0%nat else S <$> dict_index d' k
  end.
End PyDict.

(** ** Data model of paginator.py *)

Abbreviation UID_TYPE := string (only parsing).
Abbreviation Image := string (only parsing).
Abbreviation loc := nat (only parsing).

(** A loader or formatter is a Python function object; the engine only
    stores it, tests it for presence and calls it.  Loaders are named so
    that the function invoked by a render can be told apart. *)
Abbreviation LoaderId := nat (only parsing).

(** [**kwargs] and [PageContent.kwargs]. *)
Abbreviation Kwargs := (dict string (option string)) (only parsing).

Inductive Action := A_up | A_down | A_next | A_prev | A_current.

(** [KeyboardDataType = Union[str, CallbackData]]; the callback data
    classes of the repository are [MovePage], [AddToCart] and
    [DeleteFromCart]. *)
Inductive KeyboardDataType :=
| KStr (data : string)
| MovePage (action : Action) (uid : option UID_TYPE)
| AddToCart (product_id : Z)
| DeleteFromCart (item_id : Z).

#[global] Instance Action_eq_dec : EqDecision Action.
Proof. solve_decision. Defined.
#[global] Instance KeyboardDataType_eq_dec : EqDecision KeyboardDataType.
Proof. solve_decision. Defined.

(** Button captions: a child button is captioned by [content.label],
    which is [Optional[str]]. *)
Abbreviation Label := (option string) (only parsing).
Abbreviation Keyboard := (dict Label KeyboardDataType) (only parsing).

Record PaginatorConfig := {
  obj_count_per_page : Z;
  loading_text : string;
  error_text : string;
  config_loader_func : option LoaderId
}.

Definition PaginatorConfig_default : PaginatorConfig :=
  {| obj_count_per_page := 5;
     loading_text := "Загрузка...";
     error_text := "Возникла ошибка. Пожалуйста попробуйте снова.";
     config_loader_func := None |}.

Record PageContent := {
  text : string;
  label : option string;
  image : option Image;
  kwargs : Kwargs;
  is_leaf_node : bool
}.

Record PageNode := {
  uid : UID_TYPE;
  content : PageContent;
  custom_kbd : dict string KeyboardDataType;
  parent : option loc;
  children : dict UID_TYPE loc;
  config : PaginatorConfig
}.

(** The arguments a loader passes to the [PageNode] constructor: the
    loaders of the repository build fresh nodes without children, and
    [parent] is not an [__init__] argument. *)
Record NewNode := {
  new_uid : UID_TYPE;
  new_content : PageContent;
  new_custom_kbd : dict string KeyboardDataType;
  new_config : PaginatorConfig
}.

Abbreviation Heap := (list PageNode) (only parsing).

Definition set_children (c : dict UID_TYPE loc) (n : PageNode) : PageNode :=
  {| uid := uid n; content := content n; custom_kbd := custom_kbd n;
     parent := parent n; children := c; config := config n |}.

Definition set_custom_kbd (k : dict string KeyboardDataType) (n : PageNode) : PageNode :=
  {| uid := uid n; content := content n; custom_kbd := k;
     parent := parent n; children := children n; config := config n |}.

Definition set_kwargs (kw : Kwargs) (n : PageNode) : PageNode :=
  {| uid := uid n;
     content := {| text := text (content n); label := label (content n);
                   image := image (content n); kwargs := kw;
                   is_leaf_node := is_leaf_node (content n) |};
     custom_kbd := custom_kbd n;
     parent := parent n; children := children n; config := config n |}.

(** [PageNode.add_child]: the child object is placed in the heap with its
    [parent] set to [self], and [self.children[child.uid]] refers to it. *)
Definition add_child (h : Heap) (self : loc) (child_node : NewNode) : Heap :=
  let c := length h in
  let obj := {| uid := new_uid child_node; content := new_content child_node;
                custom_kbd := new_custom_kbd child_node;
                parent := Some self; children := [];
                config := new_config child_node |} in
  alter (fun n => set_children (dict_set (children n) (new_uid child_node) c) n)
        self (h ++ [obj]).

(** [PageNode.add_children]. *)
Definition add_children (h : Heap) (self : loc) (children_nodes : list NewNode) : Heap :=
  foldl (fun acc child_node => add_child acc self child_node) h children_nodes.

(** ** Content sources *)

Inductive LoaderResult :=
| LoaderRaises
| LoaderReturns (data : option (list NewNode)) (has_more_data : bool).

(** [LoaderFunctionProtocol.__call__(uid, limit, cursor, **kwargs)] for
    every named loader. *)
Definition LoaderEnv := LoaderId -> UID_TYPE -> Z -> Z -> Kwargs -> LoaderResult.

Record LoaderCall := {
  call_func : LoaderId;
  call_uid : UID_TYPE;
  call_limit : Z;
  call_cursor : Z;
  call_kwargs : Kwargs
}.

Inductive Exn := LoaderError | ZeroDivisionError | InvalidReference.

Inductive Result (A : Type) :=
| Ok (a : A)
| Raise (e : Exn).
Arguments Ok {A} a.
Arguments Raise {A} e.

(** ** KeyboardBuilder *)

Definition PREV_LABEL : string := "⬅️".
Definition NEXT_LABEL : string := "➡️".
Definition UP_LABEL : string := "Назад".

(** The child buttons of [create_navigation]: one assignment
    [keyboard[page.children[uid_].content.label] = MovePage("down", uid_)]
    per entry of the window.  [None] is a child reference outside the heap,
    which Python cannot hold. *)
Fixpoint child_buttons (h : Heap) (window : dict UID_TYPE loc) (keyboard : Keyboard)
  : option Keyboard :=
  match window with
  | [] => Some keyboard
  | (uid_, c) :: rest =>
      match h !! c with
      | None => None
      | Some child =>
          child_buttons h rest
            (dict_set keyboard (label (content child)) (MovePage A_down (Some uid_)))
      end
  end.

(** The children a page shows: [child_keys[cursor:cursor+obj_count_per_page]]
    when [page.children] is not empty (lines 231-234). *)
Definition window (page : PageNode) (cursor : Z) : dict UID_TYPE loc :=
  match children page with
  | [] => []
  | _ => py_slice (children page) cursor (cursor + obj_count_per_page (config page))
  end.

(** Row sizes of the child buttons: two per row, a single one last. *)
Definition child_sizes (num_children_on_page : Z) : list Z :=
  if 0 <? num_children_on_page
  then replicate (Z.to_nat (num_children_on_page / 2)) 2
       ++ (if num_children_on_page mod 2 =? 1 then [1] else [])
  else [].

Definition create_navigation (h : Heap) (page : PageNode) (cursor : Z) (has_more : bool)
  : Result (Keyboard * list Z) :=
  let items_per_page := obj_count_per_page (config page) in
  match child_buttons h (window page cursor) [] with
  | None => Raise InvalidReference
  | Some keyboard =>
      let sizes := child_sizes (Z.of_nat (length (window page cursor))) in
      let '(keyboard, control_row_size) :=
        if 0 <? cursor
        then (dict_set keyboard (Some PREV_LABEL) (MovePage A_prev None), 1)
        else (keyboard, 0) in
      let total_children := Z.of_nat (length (children page)) in
      if (items_per_page <? total_children) && (items_per_page =? 0)
      then Raise ZeroDivisionError
      else
        let '(keyboard, control_row_size) :=
          if items_per_page <? total_children
          then (dict_set keyboard (Some (py_str (cursor / items_per_page + 1)))
                         (MovePage A_current None),
                control_row_size + 1)
          else (keyboard, control_row_size) in
        let '(keyboard, control_row_size) :=
          if has_more
          then (dict_set keyboard (Some NEXT_LABEL) (MovePage A_next None),
                control_row_size + 1)
          else (keyboard, control_row_size) in
        let sizes := if 0 <? control_row_size then sizes ++ [control_row_size] else sizes in
        let '(keyboard, sizes) :=
          match parent page with
          | Some _ => (dict_set keyboard (Some UP_LABEL) (MovePage A_up None), sizes ++ [1])
          | None => (keyboard, sizes)
          end in
        Ok (keyboard, filter (fun s => 0 < s) sizes)
  end.

(** ** Paginator *)

Definition FormatterProtocol := string -> Kwargs -> string.

Record Paginator := {
  page : loc;
  cursor : Z;
  loader_func : option LoaderId;
  formatter : option FormatterProtocol;
  global_kbd : dict string KeyboardDataType
}.

(** [Paginator.__init__]. *)
Definition Paginator_init (page : loc) (loader_func : option LoaderId)
    (formatter : option FormatterProtocol)
    (global_kbd : option (dict string KeyboardDataType)) : Paginator :=
  {| page := page; cursor := 0; loader_func := loader_func;
     formatter := formatter;
     global_kbd := match global_kbd with Some (b :: g) => b :: g | _ => [] end |}.

Definition set_cursor (c : Z) (p : Paginator) : Paginator :=
  {| page := page p; cursor := c; loader_func := loader_func p;
     formatter := formatter p; global_kbd := global_kbd p |}.

Definition set_page (l : loc) (p : Paginator) : Paginator :=
  {| page := l; cursor := cursor p; loader_func := loader_func p;
     formatter := formatter p; global_kbd := global_kbd p |}.

(** What a render hands to [send_or_edit_message]: the text, the image
    and the arguments of [build_keyboard] (buttons and row sizes). *)
Record Rendered := {
  r_text : string;
  r_image : option Image;
  r_buttons : Keyboard;
  r_sizes : list Z
}.

(** The outcome of a call that may mutate the node tree and call
    loaders: the heap it leaves, the loader calls it made, and its
    result or the exception it propagates. *)
Record Outcome (A : Type) := {
  out_heap : Heap;
  out_trace : list LoaderCall;
  out_result : Result A
}.
Arguments out_heap {A} _.
Arguments out_trace {A} _.
Arguments out_result {A} _.

(** Line 356: [func if func is not None else self.loader_func if
    self.loader_func else target_page.config.loader_func]. *)
Definition resolve_loader (func : option LoaderId) (self : Paginator) (target_page : PageNode)
  : option LoaderId :=
  match func with
  | Some f => Some f
  | None =>
      match loader_func self with
      | Some f => Some f
      | None => config_loader_func (config target_page)
      end
  end.

(** The inner [_load_data] of [_get_page_content]. *)
Definition _load_data (env : LoaderEnv) (h : Heap) (target : loc) (target_page : PageNode)
    (func : option LoaderId) (kw : Kwargs) : Outcome bool :=
  match func with
  | None => {| out_heap := h; out_trace := []; out_result := Ok false |}
  | Some f =>
      let limit := obj_count_per_page (config target_page) in
      let offset := Z.of_nat (length (children target_page)) in
      let call := {| call_func := f; call_uid := uid target_page; call_limit := limit;
                     call_cursor := offset; call_kwargs := kw |} in
      match env f (uid target_page) limit offset kw with
      | LoaderRaises =>
          {| out_heap := h; out_trace := [call]; out_result := Raise LoaderError |}
      | LoaderReturns data has_more_data =>
          let h' := match data with
                    | Some (d :: ds) => add_children h target (d :: ds)
                    | _ => h
                    end in
          {| out_heap := h'; out_trace := [call]; out_result := Ok has_more_data |}
      end
  end.

(** Lines 374-394: whether to load, and the [has_more_on_current_page]
    flag. *)
Definition load_step (env : LoaderEnv) (h : Heap) (self : Paginator) (target : loc)
    (target_page : PageNode) (func : option LoaderId) (kw : Kwargs) : Outcome bool :=
  let no_fetch b := {| out_heap := h; out_trace := []; out_result := Ok b |} in
  if is_leaf_node (content target_page) then no_fetch false
  else
    let len := Z.of_nat (length (children target_page)) in
    let edge := cursor self + obj_count_per_page (config target_page) in
    if edge <? len then no_fetch true
    else if len <=? edge then
      match func with
      | Some _ => _load_data env h target target_page func kw
      | None => no_fetch false
      end
    else no_fetch false.

(** The custom and global actions ([dict[str, KeyboardDataType]]) as
    entries of the button dictionary. *)
Definition as_buttons (d : dict string KeyboardDataType) : Keyboard :=
  prod_map Some id <$> d.

(** Lines 396-422: keyboard, row sizes and text of the page, built on
    the node as the loading step left it.  [Ok] carries the buttons and row
    sizes with which [build_keyboard] is called; whether aiogram accepts
    them (it refuses a caption that is [None]) lies outside this model. *)
Definition build_page (h : Heap) (self : Paginator) (target_page : PageNode)
    (has_more_on_current_page : bool) : Result Rendered :=
  match create_navigation h target_page (cursor self) has_more_on_current_page with
  | Raise e => Raise e
  | Ok (nav_keyboard, nav_sizes) =>
      let buttons :=
        dict_update (dict_update nav_keyboard (as_buttons (custom_kbd target_page)))
                    (as_buttons (global_kbd self)) in
      let custom_kbd_size := match custom_kbd target_page with [] => 0 | _ => 1 end in
      let global_kbd_size := match global_kbd self with [] => 0 | _ => 1 end in
      let final_sizes := nav_sizes in
      let final_sizes :=
        if 0 <? custom_kbd_size then final_sizes ++ [custom_kbd_size] else final_sizes in
      let final_sizes :=
        if 0 <? global_kbd_size then final_sizes ++ [global_kbd_size] else final_sizes in
      let text_to_format := text (content target_page) in
      let content_text :=
        match formatter self with
        | Some f => f text_to_format (kwargs (content target_page))
        | None => text_to_format
        end in
      Ok {| r_text := content_text; r_image := image (content target_page);
            r_buttons := buttons; r_sizes := filter (fun s => 0 < s) final_sizes |}
  end.

(** [Paginator._get_page_content(func, page, **kwargs)]. *)
Definition _get_page_content (env : LoaderEnv) (h : Heap) (self : Paginator)
    (func : option LoaderId) (page_arg : option loc) (kw : Kwargs) : Outcome Rendered :=
  let target := default (page self) page_arg in
  match h !! target with
  | None => {| out_heap := h; out_trace := []; out_result := Raise InvalidReference |}
  | Some target_page =>
      let func := resolve_loader func self target_page in
      let loaded := load_step env h self target target_page func kw in
      match out_result loaded with
      | Raise e =>
          {| out_heap := out_heap loaded; out_trace := out_trace loaded;
             out_result := Raise e |}
      | Ok has_more_on_current_page =>
          let result :=
            match out_heap loaded !! target with
            | None => Raise InvalidReference
            | Some target_page' =>
                build_page (out_heap loaded) self target_page' has_more_on_current_page
            end in
          {| out_heap := out_heap loaded; out_trace := out_trace loaded;
             out_result := result |}
      end
  end.

(** [Paginator.show_page(event, func, page, **kwargs)]: the content is
    computed and handed to the renderer. *)
Definition show_page (env : LoaderEnv) (h : Heap) (self : Paginator)
    (func : option LoaderId) (page_arg : option loc) (kw : Kwargs) : Outcome Rendered :=
  _get_page_content env h self func (Some (default (page self) page_arg)) kw.

(** The engine after a call: the [Paginator] object and what the call
    did to the heap. *)
Definition Turn := (Paginator * Outcome Rendered)%type.

(** The position change of [handle_navigation] (lines 481-525), before
    the final [show_page].  [Raise] leaves [self] as it was. *)
Definition navigate (h : Heap) (self : Paginator) (action : Action) (uid_arg : option UID_TYPE)
  : Result Paginator :=
  match h !! page self with
  | None => Raise InvalidReference
  | Some current_page =>
      let per_page := obj_count_per_page (config current_page) in
      match action with
      | A_next =>
          if (cursor self + per_page <? Z.of_nat (length (children current_page)))
             || bool_decide (is_Some (config_loader_func (config current_page)))
             || bool_decide (is_Some (loader_func self))
          then Ok (set_cursor (cursor self + per_page) self)
          else Ok self
      | A_prev =>
          if 0 <? cursor self
          then Ok (set_cursor (Z.max 0 (cursor self - per_page)) self)
          else Ok self
      | A_down =>
          match uid_arg with
          | Some u =>
              match dict_get (children current_page) u with
              | Some c => Ok (set_cursor 0 (set_page c self))
              | None => Ok self
              end
          | None => Ok self
          end
      | A_up =>
          match parent current_page with
          | Some p =>
              match h !! p with
              | None => Raise InvalidReference
              | Some parent_page =>
                  match dict_index (children parent_page) (uid current_page) with
                  | Some idx =>
                      let parent_per_page := obj_count_per_page (config parent_page) in
                      if parent_per_page =? 0 then Raise ZeroDivisionError
                      else Ok (set_page p
                                 (set_cursor (Z.of_nat idx / parent_per_page * parent_per_page)
                                             self))
                  | None => Ok (set_page p (set_cursor 0 self))
                  end
              end
          | None => Ok self
          end
      | A_current => Ok self
      end
  end.

(** [Paginator.handle_navigation(event, callback_data, **kwargs)]. *)
Definition handle_navigation (env : LoaderEnv) (h : Heap) (self : Paginator)
    (action : Action) (uid_arg : option UID_TYPE) (kw : Kwargs) : Turn :=
  match navigate h self action uid_arg with
  | Raise e => (self, {| out_heap := h; out_trace := []; out_result := Raise e |})
  | Ok self' => (self', show_page env h self' None None kw)
  end.

(** ** The FAQ scene (handlers/faq.py) *)

Definition catalog_loader_function : LoaderId := 0%nat.
Definition cart_loader_function : LoaderId := 1%nat.
Definition faq_loader_function : LoaderId := 2%nat.

(** Truthiness of [kwargs.get(k)] for a string-valued entry. *)
Definition kwargs_truthy (kw : Kwargs) (k : string) : option string :=
  match dict_get kw k with
  | Some (Some s) => if decide (s = "") then None else Some s
  | _ => None
  end.

Definition NEWLINE : string := String (Ascii.ascii_of_nat 10) "".

Definition faq_formatter : FormatterProtocol := fun text kw =>
  let f_text :=
    match kwargs_truthy kw "question" with
    | Some question => "Question: " +:+ question +:+ NEWLINE +:+ NEWLINE
    | None => ""
    end in
  let f_text := f_text +:+ text in
  match kwargs_truthy kw "search" with
  | Some search_term =>
      f_text +:+ NEWLINE +:+ NEWLINE +:+ "Search query: " +:+ search_term
  | None => f_text
  end.

Definition DELETE_SEARCH_LABEL : string := "Delete search query".

(** The root node and engine the FAQ handlers build when the session
    holds no engine. *)
Definition faq_root : PageNode :=
  {| uid := "faq_root";
     content := {| text := "You are in FAQ:"; label := Some "FAQ Root"; image := None;
                   kwargs := []; is_leaf_node := false |};
     custom_kbd := []; parent := None; children := [];
     config := PaginatorConfig_default |}.

Definition faq_engine (h : Heap) (stored : option Paginator) : Heap * Paginator :=
  match stored with
  | Some p => (h, p)
  | None =>
      (h ++ [faq_root],
       Paginator_init (length h) (Some faq_loader_function) (Some faq_formatter)
                      (Some [("To Main Menu", KStr "goto_main_menu")]))
  end.

(** [FAQ.handle_search_query], lines 226-245. *)
Definition handle_search_query (env : LoaderEnv) (h : Heap) (stored : option Paginator)
    (search_term : string) : Turn :=
  let '(h, FAQPaginator) := faq_engine h stored in
  let h :=
    alter (fun n =>
             set_children []
               (set_custom_kbd
                  (dict_set (custom_kbd n) DELETE_SEARCH_LABEL (KStr "delete_search"))
                  (set_kwargs (dict_set (kwargs (content n)) "search" (Some search_term)) n)))
          (page FAQPaginator) h in
  let FAQPaginator := set_cursor 0 FAQPaginator in
  (FAQPaginator,
   show_page env h FAQPaginator None None [("search", Some search_term)]).

(** [FAQ.remove_search_term], lines 267-285. *)
Definition remove_search_term (env : LoaderEnv) (h : Heap) (stored : option Paginator) : Turn :=
  let '(h, FAQPaginator) := faq_engine h stored in
  let h :=
    alter (fun n =>
             set_children []
               (set_custom_kbd (dict_del (custom_kbd n) DELETE_SEARCH_LABEL)
                  (set_kwargs (dict_del (kwargs (content n)) "search") n)))
          (page FAQPaginator) h in
  let FAQPaginator := set_cursor 0 FAQPaginator in
  (FAQPaginator, show_page env h FAQPaginator None None []).

(** ** A navigation session *)

(** The events a scene delivers to its engine.  Each carries the
    behaviour of the content sources at the time of the call. *)
Inductive Event :=
| EvShow (env : LoaderEnv) (func : option LoaderId) (kw : Kwargs)
| EvNavigate (env : LoaderEnv) (action : Action) (uid_arg : option UID_TYPE) (kw : Kwargs)
| EvSearch (env : LoaderEnv) (search_term : string)
| EvRemoveSearch (env : LoaderEnv).

Record Engine := {
  heap : Heap;
  pg : Paginator
}.

Definition after (t : Turn) : Engine :=
  {| heap := out_heap t.2; pg := t.1 |}.

Definition step (s : Engine) (ev : Event) : Engine :=
  match ev with
  | EvShow env func kw => after (pg s, show_page env (heap s) (pg s) func None kw)
  | EvNavigate env action uid_arg kw =>
      after (handle_navigation env (heap s) (pg s) action uid_arg kw)
  | EvSearch env search_term => after (handle_search_query env (heap s) (Some (pg s)) search_term)
  | EvRemoveSearch env => after (remove_search_term env (heap s) (Some (pg s)))
  end.

Definition run (s : Engine) (evs : list Event) : Engine := foldl step s evs.

(** The node an engine displays. *)
Definition current_node (s : Engine) : option PageNode := heap s !! page (pg s).

(** ** The quantity step of the add-to-cart flow (handlers/catalog.py) *)

Record Product := {
  product_name : string;
  stock : Z
}.

(** The [product_processing] dictionary of the session data, with its
    two keys. *)
Record ProcessingData := {
  product_id : option Z;
  quantity : option Z
}.

Record FSMData := {
  product_processing : option ProcessingData
}.

Inductive Reply :=
| InvalidFormat
| ProcessingStateMissing
| ProductNotFound
| QuantityOutOfRange (product_in_stock : Z)
| ConfirmPrompt (product : Product) (quantity : Z).

(** [set_quantity(message, state)], lines 436-515.  [parsed] is the
    outcome of [int(message.text)] ([None] for [ValueError]); [get_product]
    answers [None] for [ObjectDoesNotExist]. *)
Definition set_quantity (parsed : option Z) (data : FSMData)
    (get_product : Z -> option Product) : FSMData * Reply :=
  match parsed with
  | None => (data, InvalidFormat)
  | Some qty =>
      match product_processing data with
      | Some {| product_id := Some pid; quantity := old |} =>
          match get_product pid with
          | None => (data, ProductNotFound)
          | Some product =>
              let product_in_stock := stock product in
              if negb ((0 <? qty) && (qty <=? product_in_stock))
              then (data, QuantityOutOfRange product_in_stock)
              else
                ({| product_processing :=
                      Some {| product_id := Some pid; quantity := Some qty |} |},
                 ConfirmPrompt product qty)
          end
      | _ => (data, ProcessingStateMissing)
      end
  end.

(** ** Notions used in the statements *)

(** The control buttons [create_navigation] places after the child
    buttons, in the order of its assignments. *)
Definition control_buttons (page : PageNode) (cursor : Z) (has_more : bool)
  : list (Label * Action) :=
  let items_per_page := obj_count_per_page (config page) in
  (if 0 <? cursor then [(Some PREV_LABEL, A_prev)] else [])
  ++ (if items_per_page <? Z.of_nat (length (children page))
      then [(Some (py_str (cursor / items_per_page + 1)), A_current)] else [])
  ++ (if has_more then [(Some NEXT_LABEL, A_next)] else [])
  ++ (match parent page with Some _ => [(Some UP_LABEL, A_up)] | None => [] end).

Definition set_controls (k : Keyboard) (ctrl : list (Label * Action)) : Keyboard :=
  foldl (fun acc la => dict_set acc la.1 (MovePage la.2 None)) k ctrl.

Definition only_descend (k : Keyboard) : Prop :=
  forall l v, dict_get k l = Some v -> exists u, v = MovePage A_down (Some u).

(** A keyboard offers an action when one of its buttons carries the
    callback data of that control. *)
Definition offers (k : Keyboard) (a : Action) : Prop :=
  exists l, dict_get k l = Some (MovePage a None).

(** Step 4 of the render: which control buttons a keyboard must
    offer. *)
Definition controls_as_specified (page : PageNode) (cursor : Z) (has_more : bool)
    (k : Keyboard) : Prop :=
  (offers k A_prev <-> 0 < cursor)
  /\ (offers k A_current
      <-> obj_count_per_page (config page) < Z.of_nat (length (children page)))
  /\ (offers k A_next <-> has_more = true)
  /\ (offers k A_up <-> is_Some (parent page)).

(** A node after children were attached to it: everything but the
    children is as before, and the known children keep their places. *)
Definition node_extends (n n' : PageNode) : Prop :=
  uid n' = uid n /\ parent n' = parent n /\ config n' = config n
  /\ content n' = content n /\ custom_kbd n' = custom_kbd n
  /\ dict_keys (children n) `prefix_of` dict_keys (children n').

Definition heap_extends (h h' : Heap) : Prop :=
  (length h <= length h')%nat
  /\ forall l n, h !! l = Some n -> exists n', h' !! l = Some n' /\ node_extends n n'.

(** Every reference of a node is to an object of the heap. *)
Definition heap_closed (h : Heap) : Prop :=
  forall l n, h !! l = Some n ->
    (forall u c, (u, c) ∈ children n -> (c < length h)%nat)
    /\ (forall p, parent n = Some p -> (p < length h)%nat).

(** No node is configured with a negative page size. *)
Definition sizes_nonneg (h : Heap) : Prop :=
  forall l n, h !! l = Some n -> 0 <= obj_count_per_page (config n).

Definition source_sizes_nonneg (env : LoaderEnv) : Prop :=
  forall f u limit offset kw data hm,
    env f u limit offset kw = LoaderReturns (Some data) hm ->
    Forall (fun x => 0 <= obj_count_per_page (new_config x)) data.




Definition event_sources (ev : Event) : LoaderEnv :=
  match ev with
  | EvShow env _ _ | EvNavigate env _ _ _ | EvSearch env _ | EvRemoveSearch env => env
  end.

Record engine_ok (s : Engine) : Prop := {
  ok_closed : heap_closed (heap s);
  ok_sizes : sizes_nonneg (heap s);
  ok_cursor : 0 <= cursor (pg s);
  ok_page : exists n, current_node s = Some n
                      /\ (obj_count_per_page (config n) | cursor (pg s))
}.

(** The captions of a rendered page, in layout order. *)
Definition captions (o : Outcome Rendered) : option (list Label) :=
  match out_result o with
  | Ok r => Some (dict_keys (r_buttons r))
  | Raise _ => None
  end.

(** ** Scene fixtures

    The root nodes and engines the scenes construct on first entry, and
    sample content sources used to run the engine on concrete inputs. *)

(** [Catalog.on_enter], lines 272-280. *)
Definition catalog_root : PageNode :=
  {| uid := "catalog_root";
     content := {| text := "Welcome to the catalog!"; label := Some "Catalog Root";
                   image := None; kwargs := []; is_leaf_node := false |};
     custom_kbd := []; parent := None; children := [];
     config := PaginatorConfig_default |}.

Definition catalog_engine : Paginator :=
  Paginator_init 0%nat (Some catalog_loader_function) None
                 (Some [("To Main Menu", KStr "goto_main_menu")]).

(** A leaf entry as [faq_loader_function] builds it. *)
Definition faq_entry (id question answer : string) : NewNode :=
  {| new_uid := "faq_" +:+ id;
     new_content := {| text := answer; label := Some question; image := None;
                       kwargs := [("question", Some question)]; is_leaf_node := true |};
     new_custom_kbd := [];
     new_config := PaginatorConfig_default |}.

(** A content source whose backend is down. *)
Definition failing_source : LoaderEnv := fun _ _ _ _ _ => LoaderRaises.

(** A content source holding three FAQ entries. *)
Definition three_entries : LoaderEnv := fun _ _ _ offset _ =>
  if offset =? 0
  then LoaderReturns (Some [faq_entry "1" "Delivery?" "By post.";
                            faq_entry "2" "Payment?" "By card.";
                            faq_entry "3" "Returns?" "Within 14 days."]) false
  else LoaderReturns None false.

(** The FAQ tree once the three entries are loaded. *)
Definition faq_loaded : Heap :=
  Eval vm_compute in
    add_children [faq_root] 0%nat
      [faq_entry "1" "Delivery?" "By post."; faq_entry "2" "Payment?" "By card.";
       faq_entry "3" "Returns?" "Within 14 days."].

Definition faq_root_loaded : PageNode :=
  Eval vm_compute in default faq_root (faq_loaded !! 0%nat).

(** A category node that names its own content source, shown by an
    engine that has an engine-level one. *)
Definition node_loader : LoaderId := 7%nat.

Definition category_with_loader : PageNode :=
  {| uid := "category_1";
     content := {| text := "Category: Mugs"; label := Some "Mugs"; image := None;
                   kwargs := []; is_leaf_node := false |};
     custom_kbd := []; parent := None; children := [];
     config := {| obj_count_per_page := 5; loading_text := "Загрузка...";
                  error_text := "Возникла ошибка. Пожалуйста попробуйте снова.";
                  config_loader_func := Some node_loader |} |}.

(** Content sources that answer with no data. *)
Definition empty_sources : LoaderEnv := fun _ _ _ _ _ => LoaderReturns None false.

(** Scenario A of the specification: the catalog root with twelve
    known children and the default page size. *)
Definition category_node (i : nat) : NewNode :=
  {| new_uid := "category_" +:+ py_str (Z.of_nat i);
     new_content := {| text := "Category: " +:+ py_str (Z.of_nat i);
                       label := Some ("Category " +:+ py_str (Z.of_nat i));
                       image := None; kwargs := []; is_leaf_node := false |};
     new_custom_kbd := [];
     new_config := PaginatorConfig_default |}.

Definition twelve_known : Heap :=
  Eval vm_compute in add_children [catalog_root] 0%nat (category_node <$> seq 1 12).

Definition catalog_root_twelve : PageNode :=
  Eval vm_compute in default catalog_root (twelve_known !! 0%nat).

(** A product node as [catalog_loader_function] builds it, placed under
    a category. *)
Definition product_leaf : PageNode :=
  {| uid := "product_3";
     content := {| text := "Mug"; label := Some "Mug"; image := None; kwargs := [];
                   is_leaf_node := true |};
     custom_kbd := [("Add to cart 🛒", AddToCart 3)];
     parent := Some 0%nat; children := [];
     config := PaginatorConfig_default |}.

(** A catalog page on which two products carry the same name and a
    third is named like the global action. *)
Definition product_node (id name : string) : NewNode :=
  {| new_uid := "product_" +:+ id;
     new_content := {| text := name; label := Some name; image := None; kwargs := [];
                       is_leaf_node := true |};
     new_custom_kbd := [("Add to cart 🛒", AddToCart 0)];
     new_config := PaginatorConfig_default |}.

Definition same_names : Heap :=
  Eval vm_compute in
    add_children [catalog_root] 0%nat
      [product_node "3" "Mug"; product_node "4" "Mug"; product_node "5" "To Main Menu"].

Definition same_names_root : PageNode :=
  Eval vm_compute in default catalog_root (same_names !! 0%nat).

(** A short FAQ session: first page, a stale [next], a search, a visit
    to an entry and back, and a step back. *)
Definition faq_session : list Event :=
  [EvShow three_entries None [];
   EvNavigate three_entries A_next None [];
   EvSearch three_entries "card";
   EvNavigate three_entries A_down (Some "faq_2") [("search", Some "card")];
   EvNavigate three_entries A_up None [("search", Some "card")];
   EvNavigate three_entries A_next None [("search", Some "card")];
   EvNavigate three_entries A_prev None [("search", Some "card")];
   EvRemoveSearch three_entries].

(** ** The shape of the node tree *)

(** What [add_child] establishes for every entry of a [children]
    dictionary: the key is the child's [uid], the child's [parent] is the
    node that holds the entry, and no key occurs twice. *)
Definition tree_wf (h : Heap) : Prop :=
  forall l n, h !! l = Some n ->
    NoDup (dict_keys (children n))
    /\ forall u c, (u, c) ∈ children n ->
                   exists cn, h !! c = Some cn /\ uid cn = u /\ parent cn = Some l.

(** The keys of [self.children] after [add_children]: a uid that is
    already a key keeps its place, a new one goes last. *)
Definition attach_keys (keys : list UID_TYPE) (children_nodes : list NewNode)
  : list UID_TYPE :=
  foldl (fun ks x => if decide (new_uid x ∈ ks) then ks else ks ++ [new_uid x])
        keys children_nodes.

(** The number of button slots of a layout. *)
Definition total_slots (sizes : list Z) : Z := foldr Z.add 0 sizes.

(** A category whose page size was configured as zero, with one child. *)
Definition zero_sized : Heap :=
  Eval vm_compute in
    add_children
      [{| uid := "category_0";
          content := {| text := "Category: Empty"; label := Some "Empty"; image := None;
                        kwargs := []; is_leaf_node := false |};
          custom_kbd := []; parent := None; children := [];
          config := {| obj_count_per_page := 0; loading_text := "Загрузка...";
                       error_text := "Возникла ошибка. Пожалуйста попробуйте снова.";
                       config_loader_func := None |} |}]
      0%nat [product_node "3" "Mug"].

Definition zero_sized_root : PageNode :=
  Eval vm_compute in default catalog_root (zero_sized !! 0%nat).

(** ** The content sources of the scenes (handlers/faq.py, catalog.py, cart.py) *)

(** A Django queryset slice [qs[start:stop]]: a negative bound raises
    ([None]), otherwise the rows at positions [start, stop). *)
Definition qs_slice {A} (rows : list A) (start stop : Z) : option (list A) :=
  if (start <? 0) || (stop <? 0) then None
  else Some (take (Z.to_nat (stop - start)) (drop (Z.to_nat start) rows)).

(** [rows.pop()] on a list, as the list it leaves. *)
Definition list_pop {A} (rows : list A) : list A := take (length rows - 1) rows.

(** Truthiness of an optional string. *)
Definition truthy_str (s : option string) : option string :=
  match s with
  | Some s => if decide (s = "") then None else Some s
  | None => None
  end.

Record FAQEntry := {
  entry_id : Z;
  entry_question : string;
  entry_answer : string
}.

(** [FAQEntry.objects] as the loader queries it: for the filter in force
    ([None] for no filter) the matching entries ordered by question, or
    [None] when the database raises. *)
Definition FAQTable := option string -> option (list FAQEntry).

(** The inner [_get_faq_entries_from_db(search_term, offset, count)]. *)
Definition _get_faq_entries_from_db (table : FAQTable) (search_term : option string)
    (offset count : Z) : option (list FAQEntry) :=
  match table (truthy_str search_term) with
  | None => None
  | Some rows => qs_slice rows offset (offset + count)
  end.

(** The node built for an entry, lines 73-80. *)
Definition faq_node (entry : FAQEntry) : NewNode :=
  {| new_uid := "faq_" +:+ py_str (entry_id entry);
     new_content := {| text := entry_answer entry; label := Some (entry_question entry);
                       image := None;
                       kwargs := [("question", Some (entry_question entry))];
                       is_leaf_node := true |};
     new_custom_kbd := [];
     new_config := PaginatorConfig_default |}.

(** [faq_loader_function(uid, limit, cursor, **kwargs)] over a table. *)
Definition faq_loader (table : FAQTable) (uid : UID_TYPE) (limit cursor : Z) (kw : Kwargs)
  : LoaderResult :=
  let search_query := default None (dict_get kw "search") in
  match _get_faq_entries_from_db table search_query cursor (limit + 1) with
  | None => LoaderReturns None false
  | Some db_entries =>
      let '(db_entries, has_more) :=
        match db_entries with
        | [] => ([], false)
        | _ :: _ =>
            if limit <? Z.of_nat (length db_entries)
            then (list_pop db_entries, true)
            else (db_entries, false)
        end in
      let loaded_nodes := faq_node <$> db_entries in
      LoaderReturns (match loaded_nodes with [] => None | _ :: _ => Some loaded_nodes end)
                    has_more
  end.

Record Category := {
  category_id : Z;
  category_name : string
}.

(** A row of [Product] as the catalog shows it: [cp_price] is
    [str(item.price)] and [cp_image] what [get_fs_input_file_for_product]
    finds for the row. *)
Record CatalogProduct := {
  cp_id : Z;
  cp_name : string;
  cp_description : string;
  cp_price : string;
  cp_stock : Z;
  cp_image : option Image
}.

(** The three querysets of [catalog_loader_function], each ordered by
    name. *)
Record CatalogDB := {
  top_categories : list Category;
  subcategories : Z -> list Category;
  products_of : Z -> list CatalogProduct
}.

Inductive OrmItem :=
| ItemCategory (c : Category)
| ItemProduct (p : CatalogProduct).

Inductive NodeKind :=
| KindRoot
| KindCategory (parent_category_id : Z).

(** [s.split(sep)] for a one-character separator. *)
Fixpoint split_on (sep : Ascii.ascii) (s : string) : list string :=
  match s with
  | EmptyString => [EmptyString]
  | String c rest =>
      if decide (c = sep) then EmptyString :: split_on sep rest
      else match split_on sep rest with
           | x :: xs => String c x :: xs
           | [] => [String c EmptyString]
           end
  end.

Definition UNDERSCORE : Ascii.ascii := Ascii.ascii_of_nat 95.

(** Lines 123-180: the nodes built from the fetched rows. *)
Definition catalog_node (item : OrmItem) : NewNode :=
  match item with
  | ItemCategory c =>
      {| new_uid := "category_" +:+ py_str (category_id c);
         new_content := {| text := "Category: " +:+ category_name c;
                           label := Some (category_name c); image := None;
                           kwargs := []; is_leaf_node := false |};
         new_custom_kbd := [];
         new_config := PaginatorConfig_default |}
  | ItemProduct p =>
      {| new_uid := "product_" +:+ py_str (cp_id p);
         new_content :=
           {| text := "<b>" +:+ cp_name p +:+ "</b>" +:+ NEWLINE +:+ NEWLINE
                      +:+ cp_description p +:+ NEWLINE +:+ NEWLINE
                      +:+ "Price: " +:+ cp_price p +:+ " RUB" +:+ NEWLINE
                      +:+ "In stock: " +:+ py_str (cp_stock p) +:+ " pcs.";
              label := Some (cp_name p); image := cp_image p;
              kwargs := []; is_leaf_node := true |};
         new_custom_kbd := [("Add to cart 🛒", AddToCart (cp_id p))];
         new_config := PaginatorConfig_default |}
  end.

(** The inner [_fetch_data_from_db_sync] (lines 87-115): sub-categories
    first, then products. *)
Definition _fetch_data_from_db_sync (db : CatalogDB) (kind : NodeKind)
    (cursor effective_limit_for_query : Z) : option (list OrmItem) :=
  match kind with
  | KindRoot =>
      (fun rows : list Category => ItemCategory <$> rows)
        <$> qs_slice (top_categories db) cursor (cursor + effective_limit_for_query)
  | KindCategory parent_category_id =>
      let subcats := subcategories db parent_category_id in
      let num_subcategories_of_parent := Z.of_nat (length subcats) in
      let fetched_subcats :=
        if cursor <? num_subcategories_of_parent
        then
          let subcategories_to_fetch_count :=
            Z.min effective_limit_for_query (num_subcategories_of_parent - cursor) in
          (fun rows : list Category => ItemCategory <$> rows)
            <$> qs_slice subcats cursor (cursor + subcategories_to_fetch_count)
        else Some [] in
      match fetched_subcats with
      | None => None
      | Some fetched =>
          let remaining_limit_for_products :=
            effective_limit_for_query - Z.of_nat (length fetched) in
          if 0 <? remaining_limit_for_products
          then
            let product_cursor_offset := Z.max 0 (cursor - num_subcategories_of_parent) in
            match qs_slice (products_of db parent_category_id) product_cursor_offset
                           (product_cursor_offset + remaining_limit_for_products) with
            | None => None
            | Some products_fetched => Some (fetched ++ (ItemProduct <$> products_fetched))
            end
          else Some fetched
      end
  end.

Section CatalogLoader.
(** Python's [int] on a string ([None] for [ValueError]). *)
Variable py_int : string -> option Z.

(** Lines 71-84: the kind of node a uid names; [None] is the logged
    error that makes the loader answer [(None, False)]. *)
Definition catalog_node_kind (uid : UID_TYPE) : option NodeKind :=
  if decide (uid = "catalog_root") then Some KindRoot
  else if String.prefix "category_" uid
       then match split_on UNDERSCORE uid !! 1%nat with
            | Some part => KindCategory <$> py_int part
            | None => None
            end
       else None.

(** [catalog_loader_function(uid, limit, cursor, **kwargs)] over a
    database ([None] when the database raises). *)
Definition catalog_loader (db : option CatalogDB) (uid : UID_TYPE) (limit cursor : Z)
    (kw : Kwargs) : LoaderResult :=
  let effective_limit_for_query := limit + 1 in
  match catalog_node_kind uid with
  | None => LoaderReturns None false
  | Some kind =>
      match db ≫= (fun d => _fetch_data_from_db_sync d kind cursor effective_limit_for_query)
      with
      | None => LoaderReturns None false
      | Some orm_items_result =>
          let '(items_to_convert_to_nodes, has_more_items) :=
            if Z.of_nat (length orm_items_result) =? effective_limit_for_query
            then (py_slice orm_items_result 0 (-1), true)
            else (orm_items_result, false) in
          LoaderReturns (Some (catalog_node <$> items_to_convert_to_nodes)) has_more_items
      end
  end.
End CatalogLoader.

(** A line of [UserCartItem] with its product: [line_price] and
    [line_amount] are [str(product.price)] and
    [str(product.price * quantity)]. *)
Record CartLine := {
  line_pk : Z;
  line_product_id : Z;
  line_name : string;
  line_description : string;
  line_price : string;
  line_quantity : Z;
  line_amount : string;
  line_image : option Image
}.

(** The cart lines of the user named by [kwargs.get("telegram_id")], or
    [None] when the database raises. *)
Definition CartTable := option string -> option (list CartLine).

Definition cart_node (entry : CartLine) : NewNode :=
  {| new_uid := "cart_item_" +:+ py_str (line_product_id entry);
     new_content :=
       {| text := line_name entry +:+ NEWLINE +:+ NEWLINE +:+ line_description entry
                  +:+ NEWLINE +:+ NEWLINE +:+ "Цена за ед. товара: " +:+ line_price entry
                  +:+ NEWLINE +:+ "Ед. товара: " +:+ py_str (line_quantity entry)
                  +:+ NEWLINE +:+ "Цена к оплате: " +:+ line_amount entry;
          label := Some (line_name entry); image := line_image entry;
          kwargs := []; is_leaf_node := true |};
     new_custom_kbd := [("Удалить из корзины", DeleteFromCart (line_pk entry))];
     new_config := PaginatorConfig_default |}.

(** [cart_loader_function(uid, limit, cursor, **kwargs)].  On a database
    error it returns a bare [None], which the caller's
    [data, has_more_data = await func(...)] cannot unpack: the call raises. *)
Definition cart_loader (table : CartTable) (uid : UID_TYPE) (limit cursor : Z) (kw : Kwargs)
  : LoaderResult :=
  let telegram_id := default None (dict_get kw "telegram_id") in
  match table telegram_id ≫= (fun rows => qs_slice rows cursor (cursor + (limit + 1))) with
  | None => LoaderRaises
  | Some db_entries =>
      let '(db_entries, has_more) :=
        match db_entries with
        | [] => ([], false)
        | _ :: _ =>
            if limit <? Z.of_nat (length db_entries)
            then (list_pop db_entries, true)
            else (db_entries, false)
        end in
      let loaded_nodes := cart_node <$> db_entries in
      LoaderReturns (match loaded_nodes with [] => None | _ :: _ => Some loaded_nodes end)
                    has_more
  end.

(** The loaders of the three scenes behind their names. *)
Definition scene_sources (py_int : string -> option Z) (faq : FAQTable)
    (catalog : option CatalogDB) (cart : CartTable) : LoaderEnv :=
  fun f =>
    if decide (f = faq_loader_function) then faq_loader faq
    else if decide (f = catalog_loader_function) then catalog_loader py_int catalog
    else cart_loader cart.

(** The rows a catalog node pages over: the top-level categories for
    the root, the sub-categories followed by the products for a category. *)
Definition catalog_rows (db : CatalogDB) (kind : NodeKind) : list OrmItem :=
  match kind with
  | KindRoot => ItemCategory <$> top_categories db
  | KindCategory parent_category_id =>
      (ItemCategory <$> subcategories db parent_category_id)
      ++ (ItemProduct <$> products_of db parent_category_id)
  end.

(** Decimal numerals read back.  On the numerals [str] prints (the ones
    the uids of the catalog are built from) this is Python's [int]; Python
    accepts more (a leading [+], surrounding blanks, underscores between
    digits), which is why the statements take [int] as a parameter and this
    function only serves to run them on sample inputs. *)
Definition decimal_int (s : string) : option Z := Z.of_int <$> NilZero.int_of_string s.

(** A FAQ table of seven entries, one of which matches every filter. *)
Definition seven_entries : list FAQEntry :=
  [ {| entry_id := 4; entry_question := "Delivery?"; entry_answer := "By post." |};
    {| entry_id := 7; entry_question := "Discounts?"; entry_answer := "In December." |};
    {| entry_id := 1; entry_question := "Gift wrap?"; entry_answer := "On request." |};
    {| entry_id := 2; entry_question := "Payment?"; entry_answer := "By card." |};
    {| entry_id := 9; entry_question := "Returns?"; entry_answer := "Within 14 days." |};
    {| entry_id := 3; entry_question := "Sizes?"; entry_answer := "S to XXL." |};
    {| entry_id := 5; entry_question := "Tracking?"; entry_answer := "By e-mail." |} ].

Definition sample_faq : FAQTable := fun filter =>
  match filter with
  | None => Some seven_entries
  | Some _ => Some (take 1 (drop 3 seven_entries))
  end.

Definition faq_down : FAQTable := fun _ => None.

(** A catalog with two top-level categories; the first holds one
    sub-category and two products. *)
Definition sample_catalog : CatalogDB :=
  {| top_categories := [ {| category_id := 1; category_name := "Mugs" |};
                         {| category_id := 2; category_name := "Shirts" |} ];
     subcategories := fun parent =>
       if parent =? 1 then [ {| category_id := 3; category_name := "Travel mugs" |} ] else [];
     products_of := fun parent =>
       if parent =? 1
       then [ {| cp_id := 10; cp_name := "Blue mug"; cp_description := "0.3 l";
                 cp_price := "450.00"; cp_stock := 12; cp_image := None |};
              {| cp_id := 11; cp_name := "Red mug"; cp_description := "0.3 l";
                 cp_price := "450.00"; cp_stock := 0; cp_image := None |} ]
       else [] |}.

Definition cart_down : CartTable := fun _ => None.

(** [Cart.on_enter], lines 166-176, for an empty cart. *)
Definition cart_root : PageNode :=
  {| uid := "cart_root";
     content := {| text := "Общая сумма вашей корзины к оплате составляет: 0";
                   label := Some "Cart Root"; image := None; kwargs := [];
                   is_leaf_node := false |};
     custom_kbd := [("Офформить заказ🔄", KStr "process_offer")];
     parent := None; children := [];
     config := PaginatorConfig_default |}.

Definition cart_engine : Paginator :=
  Paginator_init 0%nat (Some cart_loader_function) None
                 (Some [("В главное меню", KStr "goto_main_menu")]).

(** The FAQ scene on first entry, before anything is shown. *)
Definition faq_start : Engine :=
  {| heap := (faq_engine [] None).1; pg := (faq_engine [] None).2 |}.

(** The cart of user 42: three lines. *)
Definition three_lines : list CartLine :=
  [ {| line_pk := 31; line_product_id := 10; line_name := "Blue mug";
       line_description := "0.3 l"; line_price := "450.00"; line_quantity := 2;
       line_amount := "900.00"; line_image := None |};
    {| line_pk := 32; line_product_id := 11; line_name := "Red mug";
       line_description := "0.3 l"; line_price := "450.00"; line_quantity := 1;
       line_amount := "450.00"; line_image := None |};
    {| line_pk := 35; line_product_id := 20; line_name := "Shirt";
       line_description := "Cotton"; line_price := "1200.00"; line_quantity := 1;
       line_amount := "1200.00"; line_image := None |} ].

Definition sample_cart : CartTable := fun telegram_id =>
  if decide (telegram_id = Some "42") then Some three_lines else Some [].

(** A string in which a character does not occur. *)
Fixpoint free_of (sep : Ascii.ascii) (s : string) : Prop :=
  match s with
  | EmptyString => True
  | String c rest => c <> sep /\ free_of sep rest
  end.

(** ** The rest of the add-to-cart flow (handlers/catalog.py) *)

(** The tables the flow reads and writes: [Product.objects.get(id=...)],
    the telegram ids of the registered users, and the quantities of the
    cart lines, keyed by user and product ([unique_together] in
    [UserCartItem]). *)
Record ShopDB := {
  shop_products : Z -> option Product;
  shop_users : list Z;
  shop_cart : dict (Z * Z) Z
}.

Definition set_cart (c : dict (Z * Z) Z) (db : ShopDB) : ShopDB :=
  {| shop_products := shop_products db; shop_users := shop_users db; shop_cart := c |}.

(** The largest value of a PostgreSQL [integer] column, in which the
    [PositiveIntegerField] [UserCartItem.quantity] is stored. *)
Definition MAX_QUANTITY : Z := 2147483647.

(** [add_product_to_user_cart(telegram_user_id, quantity, product_id)],
    lines 208-242.  [None] stands for the exception it re-raises: a missing
    product or user, or a quantity the column refuses (negative, or beyond
    the range of an integer). *)
Definition add_product_to_user_cart (db : ShopDB) (telegram_user_id quantity product_id : Z)
  : option ShopDB :=
  match shop_products db product_id with
  | None => None
  | Some product =>
      if bool_decide (telegram_user_id ∈ shop_users db)
      then
        let key := (telegram_user_id, product_id) in
        let new_quantity :=
          match dict_get (shop_cart db) key with
          | None => quantity
          | Some cart_item_quantity => cart_item_quantity + quantity
          end in
        if (new_quantity <? 0) || (MAX_QUANTITY <? new_quantity) then None
        else Some (set_cart (dict_set (shop_cart db) key new_quantity) db)
      else None
  end.

(** Where a handler of the flow leaves the user. *)
Inductive FlowState := CatalogScene | SetQuantityState.

(** [Catalog.add_to_cart], lines 324-368. *)
Definition add_to_cart (db : ShopDB) (product_id_to_add : Z) (data : FSMData)
  : FSMData * FlowState :=
  match shop_products db product_id_to_add with
  | Some product =>
      ({| product_processing :=
            Some {| product_id := Some product_id_to_add; quantity := None |} |},
       SetQuantityState)
  | None => (data, CatalogScene)
  end.

(** [deny], lines 392-418. *)
Definition deny (data : FSMData) : FSMData * FlowState :=
  ({| product_processing := None |}, CatalogScene).

Inductive ConfirmAnswer := StateMissing | ProductAdded | AddFailed.

(** [confirm], lines 519-565. *)
Definition confirm (db : ShopDB) (user_id : Z) (data : FSMData)
  : FSMData * ShopDB * ConfirmAnswer :=
  match product_processing data with
  | Some {| product_id := Some product_id_to_confirm;
            quantity := Some quantity_to_confirm |} =>
      match add_product_to_user_cart db user_id quantity_to_confirm product_id_to_confirm with
      | Some db' => ({| product_processing := None |}, db', ProductAdded)
      | None => ({| product_processing := None |}, db, AddFailed)
      end
  | _ => ({| product_processing := None |}, db, StateMissing)
  end.

(** The quantity of a cart line, 0 when there is none. *)
Definition in_cart (db : ShopDB) (user product : Z) : Z :=
  default 0 (dict_get (shop_cart db) (user, product)).

(** A shop with one product in stock and one registered user whose cart
    already holds four of it. *)
Definition sample_shop : ShopDB :=
  {| shop_products := fun id =>
       if id =? 10 then Some {| product_name := "Blue mug"; stock := 5 |} else None;
     shop_users := [42];
     shop_cart := [((42, 10), 4)] |}.

(** The same shop when the user's line of the product is three short of
    what the column can hold. *)
Definition crowded_shop : ShopDB := set_cart [((42, 10), 2147483644)] sample_shop.

(** The second entry of the loaded FAQ tree. *)
Definition payment_entry : PageNode :=
  Eval vm_compute in default faq_root (faq_loaded !! 2%nat).

(** The catalog scene on first entry ([Catalog.on_enter]), before
    anything is shown. *)
Definition catalog_start : Engine := {| heap := [catalog_root]; pg := catalog_engine |}.

(** * Properties *)

(** ** Dictionaries *)

Section PyDictFacts.
Context {K V : Type} `{EqDecision K}.
Implicit Types (d e : dict K V) (k : K) (v : V).

Lemma dict_get_set d k v k' :
  dict_get (dict_set d k v) k' = if decide (k = k') then Some v else dict_get d k'.
Proof.
  induction d as [|[k0 v0] d IH]; simpl.
  - by destruct (decide (k = k')).
  - destruct (decide (k0 = k)) as [->|Hne]; simpl.
    + by destruct (decide (k = k')).
    + rewrite IH. destruct (decide (k0 = k')) as [->|]; [|done].
      by destruct (decide (k = k')) as [->|].
Qed.

Lemma dict_keys_set d k v :
  dict_keys (dict_set d k v)
  = if decide (k ∈ dict_keys d) then dict_keys d else dict_keys d ++ [k].
Proof.
  unfold dict_keys. induction d as [|[k0 v0] d IH].
  - cbn. rewrite decide_False; [done|]. apply not_elem_of_nil.
  - cbn [dict_set]. destruct (decide (k0 = k)) as [->|Hne].
    + rewrite !fmap_cons. cbn [fst]. rewrite decide_True; [done|]. by left.
    + rewrite !fmap_cons, IH. cbn [fst].
      destruct (decide (k ∈ d.*1)) as [Hin|Hnin].
      * rewrite decide_True; [done|]. by right.
      * rewrite decide_False; [done|]. apply not_elem_of_cons. done.
Qed.

Lemma dict_set_NoDup d k v :
  NoDup (dict_keys d) -> NoDup (dict_keys (dict_set d k v)).
Proof.
  intros Hnd. rewrite dict_keys_set.
  destruct (decide (k ∈ dict_keys d)); [done|].
  apply NoDup_app. split; [done|]. split.
  - intros x Hx Hk. apply list_elem_of_singleton in Hk. by subst.
  - apply NoDup_singleton.
Qed.

Lemma dict_update_NoDup d e :
  NoDup (dict_keys d) -> NoDup (dict_keys (dict_update d e)).
Proof.
  unfold dict_update. revert d.
  induction e as [|[k v] e IH]; intros d Hnd; simpl; [done|].
  apply IH. by apply dict_set_NoDup.
Qed.

Lemma dict_set_length d k v :
  length (dict_set d k v)
  = if decide (k ∈ dict_keys d) then length d else S (length d).
Proof.
  pose proof (dict_keys_set d k v) as Hk.
  apply (f_equal length) in Hk. unfold dict_keys in Hk.
  rewrite length_fmap in Hk. rewrite Hk.
  destruct (decide _); rewrite ?length_app, ?length_fmap; simpl; lia.
Qed.

Lemma dict_get_None d k : dict_get d k = None <-> k ∉ dict_keys d.
Proof.
  unfold dict_keys. induction d as [|[k0 v0] d IH]; simpl.
  - split; [intros _; apply not_elem_of_nil | done].
  - destruct (decide (k0 = k)) as [->|Hne].
    + split; [done|]. intros Hn. exfalso. apply Hn. by left.
    + rewrite IH, not_elem_of_cons. split; [intros Hd; split; [congruence|done]|].
      by intros [_ Hd].
Qed.

Lemma dict_get_elem d k v :
  NoDup (dict_keys d) -> (k, v) ∈ d -> dict_get d k = Some v.
Proof.
  unfold dict_keys. induction d as [|[k0 v0] d IH]; simpl; intros Hnd Hin.
  - by apply elem_of_nil in Hin.
  - apply NoDup_cons in Hnd as [Hk0 Hnd].
    apply elem_of_cons in Hin as [Heq|Hin].
    + injection Heq as <- <-. by rewrite decide_True.
    + destruct (decide (k0 = k)) as [->|]; [|by apply IH].
      exfalso. apply Hk0. apply list_elem_of_fmap. by exists (k, v).
Qed.

(** [{**d, **e}]: the bindings of [e] win, the others are those of [d]. *)
Lemma dict_get_update d e k :
  NoDup (dict_keys e) ->
  dict_get (dict_update d e) k
  = match dict_get e k with Some v => Some v | None => dict_get d k end.
Proof.
  unfold dict_update, dict_keys. revert d.
  induction e as [|[k0 v0] e IH]; intros d Hnd; simpl; [done|].
  apply NoDup_cons in Hnd as [Hk0 Hnd].
  rewrite IH by done. rewrite dict_get_set.
  destruct (decide (k0 = k)) as [->|Hne]; [|done].
  assert (Hn : dict_get e k = None) by by apply dict_get_None.
  by rewrite Hn.
Qed.

Lemma dict_keys_set_incl d k v k' :
  k' ∈ dict_keys d -> k' ∈ dict_keys (dict_set d k v).
Proof.
  intros Hin. rewrite dict_keys_set. destruct (decide _); [done|].
  apply elem_of_app. by left.
Qed.

Lemma dict_keys_set_new d k v : k ∈ dict_keys (dict_set d k v).
Proof.
  rewrite dict_keys_set. destruct (decide _); [done|].
  apply elem_of_app. right. by apply list_elem_of_singleton.
Qed.

Lemma dict_set_length_le d k v : (length (dict_set d k v) <= S (length d))%nat.
Proof. rewrite dict_set_length. destruct (decide _); lia. Qed.

Lemma dict_keys_update_incl d e k :
  k ∈ dict_keys d -> k ∈ dict_keys (dict_update d e).
Proof.
  unfold dict_update. revert d.
  induction e as [|[k0 v0] e IH]; intros d Hin; simpl; [done|].
  apply IH. by apply dict_keys_set_incl.
Qed.

Lemma dict_update_length_le d e :
  (length (dict_update d e) <= length d + length e)%nat.
Proof.
  unfold dict_update. revert d.
  induction e as [|[k0 v0] e IH]; intros d; simpl; [lia|].
  specialize (IH (dict_set d k0 v0)).
  pose proof (dict_set_length_le d k0 v0). lia.
Qed.

(** A key of [e] already in [d] adds no entry. *)
Lemma dict_update_length_lt d e k :
  k ∈ dict_keys d -> k ∈ dict_keys e ->
  (length (dict_update d e) < length d + length e)%nat.
Proof.
  unfold dict_keys at 2. revert d.
  induction e as [|[k0 v0] e IH]; intros d Hd He.
  - by apply elem_of_nil in He.
  - rewrite fmap_cons in He. cbn [fst] in He.
    change (dict_update d ((k0, v0) :: e)) with (dict_update (dict_set d k0 v0) e).
    cbn [length].
    destruct (decide (k = k0)) as [->|Hne].
    + pose proof (dict_update_length_le (dict_set d k0 v0) e) as Hle.
      rewrite dict_set_length, decide_True in Hle by done. lia.
    + apply elem_of_cons in He as [?|He]; [done|].
      specialize (IH (dict_set d k0 v0) (dict_keys_set_incl _ _ _ _ Hd) He).
      pose proof (dict_set_length_le d k0 v0). lia.
Qed.

Lemma dict_elem_get d k v :
  NoDup (dict_keys d) -> (k, v) ∈ d <-> dict_get d k = Some v.
Proof.
  intros Hnd. split; [by apply dict_get_elem|].
  clear Hnd. induction d as [|[k0 v0] d IH]; simpl; [done|].
  destruct (decide (k0 = k)) as [->|].
  - intros [= ->]. by left.
  - intros Hg. right. by apply IH.
Qed.

Lemma dict_index_lookup d k i :
  dict_index d k = Some i -> exists v, d !! i = Some (k, v).
Proof.
  revert i. induction d as [|[k0 v0] d IH]; intros i; simpl; [done|].
  destruct (decide (k0 = k)) as [->|].
  - intros [= <-]. by exists v0.
  - destruct (dict_index d k) as [i'|]; [|done]. intros [= <-]. by apply IH.
Qed.

Lemma dict_index_get d k : is_Some (dict_index d k) <-> is_Some (dict_get d k).
Proof.
  induction d as [|[k0 v0] d IH]; simpl.
  - split; intros [x Hx]; done.
  - destruct (decide (k0 = k)); [split; eauto|].
    rewrite <- IH. destruct (dict_index d k); split; intros [x Hx]; try done; eauto.
Qed.


Lemma dict_set_elem d k v k' v' :
  (k', v') ∈ dict_set d k v -> (k', v') ∈ d \/ (k', v') = (k, v).
Proof.
  induction d as [|[k0 v0] d IH]; simpl.
  - intros Hin. apply list_elem_of_singleton in Hin. by right.
  - destruct (decide (k0 = k)) as [->|].
    + intros Hin. apply elem_of_cons in Hin as [Hin|Hin]; [by right|].
      left. by right.
    + intros Hin. apply elem_of_cons in Hin as [Hin|Hin].
      * left. rewrite Hin. by left.
      * destruct (IH Hin) as [Hd|Heq]; [|by right]. left. by right.
Qed.

Lemma dict_get_elem_of d k v : dict_get d k = Some v -> (k, v) ∈ d.
Proof.
  induction d as [|[k0 v0] d IH]; simpl; [done|].
  destruct (decide (k0 = k)) as [->|].
  - intros [= ->]. by left.
  - intros Hg. right. by apply IH.
Qed.

Lemma dict_get_update_other d e k :
  k ∉ dict_keys e -> dict_get (dict_update d e) k = dict_get d k.
Proof.
  unfold dict_update, dict_keys. revert d.
  induction e as [|[k0 v0] e IH]; intros d Hn; simpl; [done|].
  rewrite fmap_cons in Hn. apply not_elem_of_cons in Hn as [Hne Hn].
  rewrite IH by done. rewrite dict_get_set. cbn [fst snd] in *.
  by rewrite decide_False.
Qed.

Lemma dict_get_update_from d e k v :
  dict_get (dict_update d e) k = Some v -> (k, v) ∈ e \/ dict_get d k = Some v.
Proof.
  unfold dict_update. revert d.
  induction e as [|[k0 v0] e IH]; intros d; simpl; [by right|].
  intros Hg. destruct (IH _ Hg) as [Hin|Hd]; [left; by right|].
  rewrite dict_get_set in Hd. cbn [fst snd] in Hd.
  destruct (decide (k0 = k)) as [->|]; [|by right].
  injection Hd as ->. left. by left.
Qed.
End PyDictFacts.

(** ** Loading step *)

Lemma create_navigation_not_loader_error h p c hm :
  create_navigation h p c hm <> Raise LoaderError.
Proof.
  unfold create_navigation.
  destruct (child_buttons _ _ _); [|discriminate].
  destruct (0 <? c);
    destruct (_ && _); try discriminate;
    destruct (_ <? Z.of_nat _); destruct hm; simpl;
    repeat match goal with |- context [if ?b then _ else _] => destruct b end;
    destruct (parent p); discriminate.
Qed.

Lemma build_page_not_loader_error h self tp hm :
  build_page h self tp hm <> Raise LoaderError.
Proof.
  unfold build_page.
  pose proof (create_navigation_not_loader_error h tp (cursor self) hm) as H.
  destruct (create_navigation _ _ _ _) as [[k s]|e]; [discriminate|].
  intros E. apply H. by inversion E.
Qed.

(** The three outcomes of the loading step on a node that is not a
    leaf: enough children are known, a loader is called once, or there is
    no loader. *)
Lemma load_step_spec env h self target tp func kw :
  is_leaf_node (content tp) = false ->
  let len := Z.of_nat (length (children tp)) in
  let edge := cursor self + obj_count_per_page (config tp) in
  (edge < len ->
   load_step env h self target tp func kw
   = {| out_heap := h; out_trace := []; out_result := Ok true |})
  /\ (len <= edge ->
      load_step env h self target tp func kw = _load_data env h target tp func kw).
Proof.
  intros Hleaf len edge. unfold load_step. rewrite Hleaf. fold len edge.
  split; intros Hc.
  - apply Z.ltb_lt in Hc. by rewrite Hc.
  - assert (H1 : (edge <? len) = false) by lia.
    assert (H2 : (len <=? edge) = true) by lia.
    rewrite H1, H2. by destruct func.
Qed.

Lemma load_step_leaf env h self target tp func kw :
  is_leaf_node (content tp) = true ->
  load_step env h self target tp func kw
  = {| out_heap := h; out_trace := []; out_result := Ok false |}.
Proof. intros Hleaf. unfold load_step. by rewrite Hleaf. Qed.

(** A render propagates a loader failure only from the single loader
    call of the loading step, made before any mutation of the tree. *)
Lemma get_page_content_loader_error env h self func page_arg kw :
  out_result (_get_page_content env h self func page_arg kw) = Raise LoaderError ->
  exists tp f,
    h !! default (page self) page_arg = Some tp
    /\ resolve_loader func self tp = Some f
    /\ env f (uid tp) (obj_count_per_page (config tp))
           (Z.of_nat (length (children tp))) kw = LoaderRaises
    /\ out_heap (_get_page_content env h self func page_arg kw) = h
    /\ out_trace (_get_page_content env h self func page_arg kw)
       = [{| call_func := f; call_uid := uid tp;
             call_limit := obj_count_per_page (config tp);
             call_cursor := Z.of_nat (length (children tp));
             call_kwargs := kw |}].
Proof.
  unfold _get_page_content.
  destruct (h !! default (page self) page_arg) as [tp|] eqn:Htp; [|discriminate].
  set (f := resolve_loader func self tp).
  assert (Hok : forall (b : bool),
             match h !! default (page self) page_arg with
             | Some tp' => build_page h self tp' b
             | None => Raise InvalidReference
             end <> Raise LoaderError).
  { intros b. rewrite Htp. apply build_page_not_loader_error. }
  unfold load_step.
  destruct (is_leaf_node (content tp)); cbn [out_result out_heap out_trace].
  { intros E. by apply Hok in E. }
  destruct (_ <? Z.of_nat _); cbn [out_result out_heap out_trace].
  { intros E. by apply Hok in E. }
  destruct (_ <=? _); cbn [out_result out_heap out_trace].
  2:{ intros E. by apply Hok in E. }
  destruct f as [fid|] eqn:Hf; cbn [out_result out_heap out_trace].
  2:{ intros E. by apply Hok in E. }
  unfold _load_data.
  destruct (env fid _ _ _ _) as [|data hm] eqn:Henv; cbn [out_result out_heap out_trace].
  - intros _. exists tp, fid. done.
  - match goal with |- context [?h' !! ?l] => destruct (h' !! l) end; [|discriminate].
    intros E. by apply build_page_not_loader_error in E.
Qed.

(** ** The navigation keyboard *)

(** The caption of the page-number button is a decimal numeral, so it
    is none of the arrow or "up" captions. *)
Lemma py_str_not_control n :
  py_str n <> PREV_LABEL /\ py_str n <> NEXT_LABEL /\ py_str n <> UP_LABEL.
Proof.
  unfold py_str, NilZero.string_of_int, NilZero.string_of_uint.
  destruct (Z.to_int n) as [[]|[]]; repeat split; discriminate.
Qed.

Lemma create_navigation_keyboard h page cursor has_more kbd sizes :
  create_navigation h page cursor has_more = Ok (kbd, sizes) ->
  exists k0,
    child_buttons h (window page cursor) [] = Some k0
    /\ kbd = set_controls k0 (control_buttons page cursor has_more).
Proof.
  unfold create_navigation, control_buttons, set_controls.
  destruct (child_buttons h (window page cursor) []) as [k0|]; [|discriminate].
  intros E. exists k0. split; [done|]. revert E.
  destruct (0 <? cursor); destruct (_ <? Z.of_nat _); destruct (_ =? 0);
    cbn [andb]; try discriminate;
    destruct has_more; destruct (parent page); cbn;
    repeat match goal with |- context [if ?b then _ else _] => destruct b end;
    intros E; injection E as <- _; reflexivity.
Qed.

(** [create_navigation] raises only for a page size of zero on a node
    that has children, or for a child reference outside the heap. *)
Lemma create_navigation_returns h page cursor has_more :
  Forall (fun uc => is_Some (h !! uc.2)) (children page) ->
  (obj_count_per_page (config page) = 0 -> children page = []) ->
  exists kbd sizes, create_navigation h page cursor has_more = Ok (kbd, sizes).
Proof.
  intros Hrefs Hzero. unfold create_navigation.
  assert (Hw : Forall (fun uc => is_Some (h !! uc.2)) (window page cursor)).
  { unfold window, py_slice. destruct (children page); [constructor|].
    by apply Forall_take, Forall_drop. }
  assert (Hk : forall k, is_Some (child_buttons h (window page cursor) k)).
  { induction Hw as [|[u c] w [n Hn] Hw IH]; intros k; simpl; [done|].
    simpl in Hn. rewrite Hn. apply IH. }
  destruct (Hk []) as [k0 ->].
  assert (Hb : (obj_count_per_page (config page) <? Z.of_nat (length (children page)))
               && (obj_count_per_page (config page) =? 0) = false).
  { destruct (obj_count_per_page (config page) =? 0) eqn:Hz; [|apply andb_false_r].
    apply Z.eqb_eq in Hz. rewrite (Hzero Hz), Hz. done. }
  destruct (0 <? cursor); rewrite Hb;
    destruct (_ <? Z.of_nat _); destruct has_more; destruct (parent page); cbn;
    repeat match goal with |- context [if ?b then _ else _] => destruct b end;
    eauto.
Qed.

Lemma child_buttons_only_descend h w k k' :
  only_descend k -> child_buttons h w k = Some k' -> only_descend k'.
Proof.
  revert k. induction w as [|[u c] w IH]; intros k Hk; simpl.
  - by intros [= <-].
  - destruct (h !! c) as [n|]; [|discriminate].
    apply IH. intros l v. rewrite dict_get_set.
    destruct (decide _); [|by apply Hk]. intros [= <-]. eauto.
Qed.

(** A control button is in the keyboard exactly when it was placed. *)
Lemma set_controls_get_gen ctrl k l a :
  NoDup ctrl.*1 ->
  dict_get (set_controls k ctrl) l = Some (MovePage a None)
  <-> (l, a) ∈ ctrl \/ ((l ∉ ctrl.*1) /\ dict_get k l = Some (MovePage a None)).
Proof.
  unfold set_controls. revert k.
  induction ctrl as [|[l0 a0] ctrl IH]; intros k Hnd; simpl.
  - split; [intros Hg; right; split; [apply not_elem_of_nil|done]|].
    intros [Hin|[_ Hg]]; [by apply elem_of_nil in Hin|done].
  - rewrite fmap_cons in Hnd. apply NoDup_cons in Hnd as [Hl0 Hnd].
    cbn [fst snd] in *. rewrite IH by done. rewrite dict_get_set.
    rewrite elem_of_cons, not_elem_of_cons.
    destruct (decide (l0 = l)) as [->|Hne].
    + assert (Hnot : (l, a) ∉ ctrl).
      { intros Hin. apply Hl0. apply list_elem_of_fmap. by exists (l, a). }
      split.
      * intros [Hin|[_ [= ->]]]; [done|]. by left; left.
      * intros [[[= ->]|Hin]|[[Hne _] _]]; try done. by right.
    + split.
      * intros [Hin|[Hn Hg]]; [by left; right|]. right. repeat split; [congruence|done..].
      * intros [[[= -> ->]|Hin]|[[_ Hn] Hg]]; [done|by left|by right].
Qed.

Lemma set_controls_get k ctrl l a :
  only_descend k -> NoDup ctrl.*1 ->
  dict_get (set_controls k ctrl) l = Some (MovePage a None) <-> (l, a) ∈ ctrl.
Proof.
  intros Hk Hnd. rewrite set_controls_get_gen by done.
  split; [|by left]. intros [Hin|[_ Hg]]; [done|].
  apply Hk in Hg as [u Hu]. discriminate.
Qed.

Lemma control_buttons_NoDup page cursor has_more :
  NoDup (control_buttons page cursor has_more).*1.
Proof.
  unfold control_buttons.
  destruct (py_str_not_control (cursor / obj_count_per_page (config page) + 1))
    as (Hp & Hn & Hu).
  set (num := py_str _) in *.
  assert (Hpn : PREV_LABEL <> NEXT_LABEL) by discriminate.
  assert (Hpu : PREV_LABEL <> UP_LABEL) by discriminate.
  assert (Hnu : NEXT_LABEL <> UP_LABEL) by discriminate.
  destruct (0 <? cursor); destruct (_ <? Z.of_nat _); destruct has_more;
    destruct (parent page); cbn;
    repeat (apply NoDup_cons; split;
            [rewrite ?elem_of_cons, elem_of_nil; intros Hin;
             repeat destruct Hin as [Hin|Hin]; try congruence; done|]);
    apply NoDup_nil_2.
Qed.

(** ** Buttons are keyed by their caption *)

Lemma child_buttons_app h w1 w2 k :
  child_buttons h (w1 ++ w2) k = child_buttons h w1 k ≫= child_buttons h w2.
Proof.
  revert k. induction w1 as [|[u c] w1 IH]; intros k; simpl; [done|].
  destruct (h !! c); [apply IH|done].
Qed.

Lemma child_buttons_NoDup h w k k' :
  NoDup (dict_keys k) -> child_buttons h w k = Some k' -> NoDup (dict_keys k').
Proof.
  revert k. induction w as [|[u c] w IH]; intros k Hk; simpl.
  - by intros [= <-].
  - destruct (h !! c); [|discriminate]. apply IH. by apply dict_set_NoDup.
Qed.

Lemma child_buttons_keys_incl h w k k' l :
  child_buttons h w k = Some k' -> l ∈ dict_keys k -> l ∈ dict_keys k'.
Proof.
  revert k. induction w as [|[u c] w IH]; intros k; simpl.
  - by intros [= <-].
  - destruct (h !! c); [|discriminate]. intros E Hl.
    apply (IH _ E). by apply dict_keys_set_incl.
Qed.

(** Every child of the window has a button with its caption. *)
Lemma child_buttons_has_key h w k k' u c n :
  child_buttons h w k = Some k' -> (u, c) ∈ w -> h !! c = Some n ->
  label (content n) ∈ dict_keys k'.
Proof.
  revert k. induction w as [|[u0 c0] w IH]; intros k; simpl.
  - intros _ Hin. by apply elem_of_nil in Hin.
  - destruct (h !! c0) as [n0|] eqn:Hn0; [|discriminate].
    intros E Hin Hn. apply elem_of_cons in Hin as [[= -> ->]|Hin].
    + rewrite Hn in Hn0. injection Hn0 as <-.
      apply (child_buttons_keys_incl _ _ _ _ _ E). apply dict_keys_set_new.
    + by apply (IH _ E Hin).
Qed.

Lemma child_buttons_length h w k k' :
  child_buttons h w k = Some k' -> (length k' <= length k + length w)%nat.
Proof.
  revert k. induction w as [|[u c] w IH]; intros k; simpl.
  - intros [= <-]. lia.
  - destruct (h !! c) as [n|]; [|discriminate]. intros E. apply IH in E.
    pose proof (dict_set_length_le k (label (content n)) (MovePage A_down (Some u))). lia.
Qed.

(** Children whose caption differs leave a caption's button alone. *)
Lemma child_buttons_get_other h w k k' l :
  child_buttons h w k = Some k' ->
  (forall i u c n, w !! i = Some (u, c) -> h !! c = Some n -> label (content n) <> l) ->
  dict_get k' l = dict_get k l.
Proof.
  revert k. induction w as [|[u c] w IH]; intros k; simpl.
  - by intros [= <-].
  - destruct (h !! c) as [n|] eqn:Hn; [|discriminate]. intros E Hother.
    rewrite (IH _ E).
    + rewrite dict_get_set. rewrite decide_False; [done|].
      by apply (Hother 0%nat u c n).
    + intros i u' c' n' Hi. by apply (Hother (S i) u' c' n').
Qed.

(** The caption shared by two children of the window carries the
    callback of the last child that has it. *)
Lemma child_buttons_last h w k k' j u c n :
  child_buttons h w k = Some k' ->
  w !! j = Some (u, c) -> h !! c = Some n ->
  (forall i u' c' n', (j < i)%nat -> w !! i = Some (u', c') -> h !! c' = Some n' ->
                      label (content n') <> label (content n)) ->
  dict_get k' (label (content n)) = Some (MovePage A_down (Some u)).
Proof.
  intros E Hj Hn Hlater.
  rewrite <- (take_drop_middle w j (u, c) Hj) in E.
  rewrite child_buttons_app in E.
  destruct (child_buttons h (take j w) k) as [k1|] eqn:E1; [|discriminate].
  simpl in E. rewrite Hn in E.
  rewrite (child_buttons_get_other _ _ _ _ _ E).
  - by rewrite dict_get_set, decide_True.
  - intros i u' c' n' Hi. rewrite lookup_drop in Hi.
    apply (Hlater (S j + i)%nat u' c' n'); [lia|done].
Qed.

(** A caption shared by two children of the window saves a button. *)
Lemma child_buttons_length_shared h w k k' i j ui ci uj cj ni nj :
  child_buttons h w k = Some k' ->
  (i < j)%nat -> w !! i = Some (ui, ci) -> w !! j = Some (uj, cj) ->
  h !! ci = Some ni -> h !! cj = Some nj ->
  label (content ni) = label (content nj) ->
  (length k' < length k + length w)%nat.
Proof.
  intros E Hij Hi Hj Hni Hnj Hlab.
  pose proof (lookup_lt_Some _ _ _ Hj) as Hjlt.
  rewrite <- (take_drop_middle w j (uj, cj) Hj) in E.
  rewrite child_buttons_app in E.
  destruct (child_buttons h (take j w) k) as [k1|] eqn:E1; [|discriminate].
  simpl in E. rewrite Hnj in E.
  assert (Hkey : label (content nj) ∈ dict_keys k1).
  { rewrite <- Hlab. apply (child_buttons_has_key _ _ _ _ ui ci ni E1); [|done].
    apply list_elem_of_lookup. exists i. by rewrite lookup_take_lt. }
  apply child_buttons_length in E, E1.
  rewrite dict_set_length, decide_True in E by done.
  rewrite length_take in E1. rewrite length_drop in E. lia.
Qed.

Lemma set_controls_NoDup k ctrl :
  NoDup (dict_keys k) -> NoDup (dict_keys (set_controls k ctrl)).
Proof.
  unfold set_controls. revert k.
  induction ctrl as [|[l a] ctrl IH]; intros k Hk; simpl; [done|].
  apply IH. by apply dict_set_NoDup.
Qed.


Lemma set_controls_length k ctrl :
  (length (set_controls k ctrl) <= length k + length ctrl)%nat.
Proof.
  unfold set_controls. revert k.
  induction ctrl as [|[l a] ctrl IH]; intros k; simpl; [lia|].
  specialize (IH (dict_set k l (MovePage a None))).
  pose proof (dict_set_length_le k l (MovePage a None)). lia.
Qed.

Lemma set_controls_get_other k ctrl l :
  l ∉ ctrl.*1 -> dict_get (set_controls k ctrl) l = dict_get k l.
Proof.
  unfold set_controls. revert k.
  induction ctrl as [|[l0 a] ctrl IH]; intros k Hn; simpl; [done|].
  rewrite fmap_cons in Hn. apply not_elem_of_cons in Hn as [Hne Hn].
  rewrite IH by done. rewrite dict_get_set. cbn [fst snd] in *.
  by rewrite decide_False.
Qed.

Lemma as_buttons_keys d : dict_keys (as_buttons d) = Some <$> dict_keys d.
Proof.
  unfold as_buttons, dict_keys. rewrite <- !list_fmap_compose.
  apply list_fmap_ext. by intros i [k v].
Qed.

Lemma as_buttons_NoDup d : NoDup (dict_keys d) -> NoDup (dict_keys (as_buttons d)).
Proof. intros Hnd. rewrite as_buttons_keys. by apply (NoDup_fmap_2 Some). Qed.

Lemma as_buttons_elem d l v : (l, v) ∈ d -> (Some l, v) ∈ as_buttons d.
Proof.
  intros Hin. unfold as_buttons. apply list_elem_of_fmap. by exists (l, v).
Qed.

Lemma build_page_buttons h self tp hm r :
  build_page h self tp hm = Ok r ->
  exists nav sizes,
    create_navigation h tp (cursor self) hm = Ok (nav, sizes)
    /\ r_buttons r
       = dict_update (dict_update nav (as_buttons (custom_kbd tp)))
                     (as_buttons (global_kbd self)).
Proof.
  unfold build_page.
  destruct (create_navigation h tp (cursor self) hm) as [[nav sizes]|]; [|discriminate].
  intros [= <-]. by exists nav, sizes.
Qed.

(** ** How a render changes the node tree *)

Lemma node_extends_refl n : node_extends n n.
Proof. by repeat split. Qed.

Lemma node_extends_trans n1 n2 n3 :
  node_extends n1 n2 -> node_extends n2 n3 -> node_extends n1 n3.
Proof.
  intros (Hu & Hp & Hc & Hco & Hk & Hpre) (Hu' & Hp' & Hc' & Hco' & Hk' & Hpre').
  repeat split; try congruence. by etrans.
Qed.

Lemma heap_extends_refl h : heap_extends h h.
Proof. split; [done|]. intros l n Hn. exists n. split; [done|apply node_extends_refl]. Qed.

Lemma heap_extends_trans h1 h2 h3 :
  heap_extends h1 h2 -> heap_extends h2 h3 -> heap_extends h1 h3.
Proof.
  intros [Hl1 H1] [Hl2 H2]. split; [lia|].
  intros l n Hn. destruct (H1 l n Hn) as (n' & Hn' & He).
  destruct (H2 l n' Hn') as (n'' & Hn'' & He').
  exists n''. split; [done|]. by eapply node_extends_trans.
Qed.

Lemma add_child_length h self x : length (add_child h self x) = S (length h).
Proof. unfold add_child. rewrite length_alter, length_app. simpl. lia. Qed.

Lemma add_child_lookup h self x l n :
  h !! l = Some n ->
  add_child h self x !! l
  = Some (if decide (self = l)
          then set_children (dict_set (children n) (new_uid x) (length h)) n
          else n).
Proof.
  intros Hn. unfold add_child. rewrite list_lookup_alter.
  rewrite !(lookup_app_l_Some _ _ _ _ Hn).
  destruct (decide (self = l)) as [->|]; [|done].
  by rewrite (lookup_app_l_Some _ _ _ _ Hn).
Qed.

Lemma add_child_extends h self x : heap_extends h (add_child h self x).
Proof.
  split; [rewrite add_child_length; lia|].
  intros l n Hn. rewrite (add_child_lookup _ _ _ _ _ Hn). eexists. split; [done|].
  destruct (decide (self = l)); [|apply node_extends_refl].
  repeat split. cbn [children set_children]. rewrite dict_keys_set.
  destruct (decide _); [done|]. by apply prefix_app_r.
Qed.

Lemma add_children_extends h self data : heap_extends h (add_children h self data).
Proof.
  unfold add_children. revert h.
  induction data as [|x data IH]; intros h; simpl; [apply heap_extends_refl|].
  eapply heap_extends_trans; [apply add_child_extends|apply IH].
Qed.

(** The heap a render leaves is the heap it found or that heap with the
    children a loader returned attached to the target. *)
Lemma get_page_content_heap env h self func page_arg kw :
  out_heap (_get_page_content env h self func page_arg kw) = h
  \/ exists f tp data hm,
      h !! default (page self) page_arg = Some tp
      /\ env f (uid tp) (obj_count_per_page (config tp))
             (Z.of_nat (length (children tp))) kw = LoaderReturns (Some data) hm
      /\ out_heap (_get_page_content env h self func page_arg kw)
         = add_children h (default (page self) page_arg) data.
Proof.
  unfold _get_page_content.
  destruct (h !! default (page self) page_arg) as [tp|] eqn:Htp; [|by left].
  assert (Hload :
    out_heap (load_step env h self (default (page self) page_arg) tp
                (resolve_loader func self tp) kw) = h
    \/ exists f data hm,
        env f (uid tp) (obj_count_per_page (config tp))
            (Z.of_nat (length (children tp))) kw = LoaderReturns (Some data) hm
        /\ out_heap (load_step env h self (default (page self) page_arg) tp
                       (resolve_loader func self tp) kw)
           = add_children h (default (page self) page_arg) data).
  { unfold load_step, _load_data.
    destruct (is_leaf_node _); [by left|].
    destruct (_ <? _); [by left|]. destruct (_ <=? _); [|by left].
    destruct (resolve_loader func self tp) as [f|]; [|by left].
    destruct (env f _ _ _ _) as [|[[|d ds]|] hm] eqn:Henv; try by left.
    right. by exists f, (d :: ds), hm. }
  destruct (out_result (load_step _ _ _ _ _ _ _)); cbn [out_heap];
    (destruct Hload as [Hload|(f & data & hm & Henv & Hload)];
     [by left|right; by exists f, tp, data, hm]).
Qed.

Lemma get_page_content_extends env h self func page_arg kw :
  heap_extends h (out_heap (_get_page_content env h self func page_arg kw)).
Proof.
  destruct (get_page_content_heap env h self func page_arg kw)
    as [->|(f & tp & data & hm & _ & _ & ->)].
  - apply heap_extends_refl.
  - apply add_children_extends.
Qed.

(** ** Going down and coming back up *)



(** The page the engine shows after a turn. *)
Lemma handle_navigation_render env h self action uid_arg kw self' :
  navigate h self action uid_arg = Ok self' ->
  handle_navigation env h self action uid_arg kw
  = (self', _get_page_content env h self' None (Some (page self')) kw).
Proof. intros Hnav. unfold handle_navigation. by rewrite Hnav. Qed.




(** ** The cursor invariant *)

Lemma add_child_lookup_inv h self x l n' :
  (self < length h)%nat ->
  add_child h self x !! l = Some n' ->
  (exists n, h !! l = Some n
             /\ n' = if decide (self = l)
                     then set_children (dict_set (children n) (new_uid x) (length h)) n
                     else n)
  \/ (l = length h
      /\ children n' = [] /\ parent n' = Some self /\ config n' = new_config x).
Proof.
  intros Hself Hl.
  destruct (h !! l) as [n|] eqn:Hn.
  - left. exists n. split; [done|].
    rewrite (add_child_lookup _ _ _ _ _ Hn) in Hl. by injection Hl.
  - right. apply lookup_ge_None in Hn.
    pose proof (lookup_lt_Some _ _ _ Hl) as Hlt. rewrite add_child_length in Hlt.
    assert (l = length h) as -> by lia. split; [done|].
    unfold add_child in Hl. rewrite list_lookup_alter_ne in Hl by lia.
    rewrite lookup_app_r in Hl by lia. rewrite Nat.sub_diag in Hl.
    injection Hl as <-. done.
Qed.

Lemma add_child_closed h self x :
  (self < length h)%nat -> heap_closed h -> heap_closed (add_child h self x).
Proof.
  intros Hself Hc l n' Hl. rewrite add_child_length.
  destruct (add_child_lookup_inv _ _ _ _ _ Hself Hl)
    as [(n & Hn & ->)|(-> & Hch & Hpa & _)].
  - destruct (Hc l n Hn) as [Hkids Hpar].
    destruct (decide (self = l)); cbn [children parent set_children]; split.
    + intros u c Hin. apply dict_set_elem in Hin as [Hin|[= -> ->]]; [|lia].
      specialize (Hkids u c Hin). lia.
    + intros p Hp. specialize (Hpar p Hp). lia.
    + intros u c Hin. specialize (Hkids u c Hin). lia.
    + intros p Hp. specialize (Hpar p Hp). lia.
  - split.
    + intros u c Hin. rewrite Hch in Hin. by apply elem_of_nil in Hin.
    + intros p Hp. rewrite Hpa in Hp. injection Hp as <-. lia.
Qed.

Lemma add_child_sizes h self x :
  (self < length h)%nat -> 0 <= obj_count_per_page (new_config x) ->
  sizes_nonneg h -> sizes_nonneg (add_child h self x).
Proof.
  intros Hself Hx Hs l n' Hl.
  destruct (add_child_lookup_inv _ _ _ _ _ Hself Hl)
    as [(n & Hn & ->)|(-> & _ & _ & ->)]; [|done].
  destruct (decide (self = l)); by apply (Hs l n).
Qed.

Lemma add_children_ok h self data :
  (self < length h)%nat ->
  Forall (fun x => 0 <= obj_count_per_page (new_config x)) data ->
  heap_closed h -> sizes_nonneg h ->
  heap_closed (add_children h self data) /\ sizes_nonneg (add_children h self data).
Proof.
  unfold add_children. intros Hself Hdata. revert h Hself.
  induction Hdata as [|x data Hx Hdata IH]; intros h Hself Hc Hs; simpl; [done|].
  apply IH.
  - rewrite add_child_length. lia.
  - by apply add_child_closed.
  - by apply add_child_sizes.
Qed.

(** A render keeps the engine well formed: it only attaches children. *)
Lemma render_preserves env h self func page_arg kw :
  source_sizes_nonneg env ->
  engine_ok {| heap := h; pg := self |} ->
  engine_ok {| heap := out_heap (_get_page_content env h self func page_arg kw);
               pg := self |}.
Proof.
  intros Henv [Hc Hs Hcur (n & Hn & Hdiv)]. cbn [heap pg] in *.
  unfold current_node in Hn. cbn [heap pg] in Hn.
  destruct (get_page_content_extends env h self func page_arg kw) as [_ Hext].
  destruct (Hext _ _ Hn) as (n' & Hn' & (_ & _ & Hcfg & _)).
  assert (Hheap : heap_closed (out_heap (_get_page_content env h self func page_arg kw))
                  /\ sizes_nonneg (out_heap (_get_page_content env h self func page_arg kw))).
  { destruct (get_page_content_heap env h self func page_arg kw)
      as [->|(f & tp & data & hm & Htp & Hret & ->)]; [done|].
    apply add_children_ok; [by eapply lookup_lt_Some|by eapply Henv|done..]. }
  destruct Hheap as [Hc' Hs'].
  split; cbn [heap pg]; [done..|].
  exists n'. split; [done|]. by rewrite Hcfg.
Qed.

(** A position change keeps the engine well formed. *)
Lemma navigate_preserves h self action uid_arg self' :
  navigate h self action uid_arg = Ok self' ->
  engine_ok {| heap := h; pg := self |} ->
  engine_ok {| heap := h; pg := self' |}.
Proof.
  intros Hnav [Hc Hs Hcur (n & Hn & Hdiv)]. cbn [heap pg] in *.
  unfold current_node in Hn. cbn [heap pg] in Hn.
  pose proof (Hs _ _ Hn) as Hps.
  unfold navigate in Hnav. rewrite Hn in Hnav.
  assert (Hsame : engine_ok {| heap := h; pg := self |}).
  { split; cbn [heap pg]; [done..|]. by exists n. }
  assert (Hat : forall l m c,
             h !! l = Some m -> 0 <= c -> (obj_count_per_page (config m) | c) ->
             engine_ok {| heap := h; pg := set_page l (set_cursor c self) |}).
  { intros l m c Hm Hc0 Hd. split; cbn [heap pg set_page set_cursor cursor]; [done..|].
    exists m. split; [done|]. done. }
  destruct action.
  - (* up *)
    destruct (parent n) as [p|] eqn:Hp; [|by injection Hnav as <-].
    destruct (h !! p) as [pn|] eqn:Hpn; [|discriminate].
    pose proof (Hs _ _ Hpn) as Hpps.
    destruct (dict_index (children pn) (uid n)) as [idx|].
    + destruct (obj_count_per_page (config pn) =? 0) eqn:Hz; [discriminate|].
      injection Hnav as <-. apply (Hat p pn); [done| |].
      * apply Z.mul_nonneg_nonneg; [|done]. apply Z.div_pos; lia.
      * apply Z.divide_factor_r.
    + injection Hnav as <-. apply (Hat p pn); [done|lia|apply Z.divide_0_r].
  - (* down *)
    destruct uid_arg as [u|]; [|by injection Hnav as <-].
    destruct (dict_get (children n) u) as [c|] eqn:Hg; [|by injection Hnav as <-].
    injection Hnav as <-.
    destruct (Hc _ _ Hn) as [Hkids _].
    pose proof (Hkids u c (dict_get_elem_of _ _ _ Hg)) as Hlt.
    destruct (lookup_lt_is_Some_2 h c Hlt) as [cn Hcn].
    replace (set_cursor 0 (set_page c self)) with (set_page c (set_cursor 0 self)) by done.
    apply (Hat c cn); [done|lia|apply Z.divide_0_r].
  - (* next *)
    destruct (_ || _); injection Hnav as <-; [|done].
    replace (set_cursor _ self)
      with (set_page (page self)
              (set_cursor (cursor self + obj_count_per_page (config n)) self)) by done.
    apply (Hat _ n); [done|lia|]. apply Z.divide_add_r; [done|apply Z.divide_refl].
  - (* prev *)
    destruct (0 <? cursor self) eqn:Hpos; injection Hnav as <-; [|done].
    replace (set_cursor _ self)
      with (set_page (page self)
              (set_cursor (Z.max 0 (cursor self - obj_count_per_page (config n))) self))
      by done.
    destruct Hdiv as [q Hq]. apply Z.ltb_lt in Hpos.
    assert (Hq1 : 1 <= q) by nia.
    assert (Hge : obj_count_per_page (config n) <= cursor self) by nia.
    apply (Hat _ n); [done|lia|].
    rewrite Z.max_r by lia. exists (q - 1). lia.
  - (* current *)
    by injection Hnav as <-.
Qed.

(** The search resets of the FAQ scene keep the engine well formed. *)
Lemma reset_preserves h self (g : PageNode -> PageNode) :
  (forall n, children (g n) = [] /\ parent (g n) = parent n /\ config (g n) = config n) ->
  engine_ok {| heap := h; pg := self |} ->
  engine_ok {| heap := alter g (page self) h; pg := set_cursor 0 self |}.
Proof.
  intros Hg [Hc Hs Hcur (n & Hn & Hdiv)]. cbn [heap pg] in *.
  unfold current_node in Hn. cbn [heap pg] in Hn.
  assert (Hlook : forall l m', alter g (page self) h !! l = Some m' ->
            exists m, h !! l = Some m
                      /\ (m' = m \/ (children m' = [] /\ parent m' = parent m
                                     /\ config m' = config m))).
  { intros l m' Hl. rewrite list_lookup_alter in Hl.
    destruct (decide (page self = l)) as [<-|].
    - rewrite Hn in Hl. injection Hl as <-. exists n. split; [done|]. right. apply Hg.
    - exists m'. split; [done|]. by left. }
  split; cbn [heap pg set_cursor cursor]; [| |done|].
  - intros l m' Hl. rewrite length_alter.
    destruct (Hlook l m' Hl) as (m & Hm & [->|(Hch & Hpa & _)]); [by apply (Hc l)|].
    split.
    + intros u c Hin. rewrite Hch in Hin. by apply elem_of_nil in Hin.
    + intros p Hp. rewrite Hpa in Hp. by apply (Hc l m Hm).
  - intros l m' Hl.
    destruct (Hlook l m' Hl) as (m & Hm & [->|(_ & _ & ->)]); by apply (Hs l m).
  - exists (g n). unfold current_node. cbn [heap pg page set_cursor]. split.
    + by rewrite list_lookup_alter_eq, Hn.
    + apply Z.divide_0_r.
Qed.

Lemma step_preserves s ev :
  source_sizes_nonneg (event_sources ev) -> engine_ok s -> engine_ok (step s ev).
Proof.
  destruct s as [h self]. intros Henv Hok.
  destruct ev as [env func kw|env action uid_arg kw|env search_term|env];
    cbn [event_sources] in Henv; unfold step, after; cbn [heap pg fst snd].
  - by apply render_preserves.
  - unfold handle_navigation.
    destruct (navigate h self action uid_arg) as [self'|e] eqn:Hnav; cbn [fst snd out_heap].
    + apply render_preserves; [done|]. by eapply navigate_preserves.
    + done.
  - unfold handle_search_query. cbn [faq_engine fst snd].
    apply render_preserves; [done|]. by apply reset_preserves.
  - unfold remove_search_term. cbn [faq_engine fst snd].
    apply render_preserves; [done|]. by apply reset_preserves.
Qed.

(** ** Trees as [add_child] builds them *)

Lemma add_child_self h self x n :
  h !! self = Some n ->
  add_child h self x !! self
  = Some (set_children (dict_set (children n) (new_uid x) (length h)) n).
Proof.
  intros Hn. rewrite (add_child_lookup _ _ _ _ _ Hn). by rewrite decide_True.
Qed.

Lemma add_child_new h self x :
  (self < length h)%nat ->
  add_child h self x !! length h
  = Some {| uid := new_uid x; content := new_content x; custom_kbd := new_custom_kbd x;
            parent := Some self; children := []; config := new_config x |}.
Proof.
  intros Hself. unfold add_child. rewrite list_lookup_alter_ne by lia.
  rewrite lookup_app_r by lia. by rewrite Nat.sub_diag.
Qed.

Lemma add_child_other h self x l n :
  h !! l = Some n -> l <> self -> add_child h self x !! l = Some n.
Proof.
  intros Hn Hne. rewrite (add_child_lookup _ _ _ _ _ Hn). by rewrite decide_False.
Qed.

Lemma add_child_tree_wf h self x :
  (self < length h)%nat -> tree_wf h -> tree_wf (add_child h self x).
Proof.
  intros Hself Hwf l n' Hl.
  destruct (add_child_lookup_inv _ _ _ _ _ Hself Hl)
    as [(n & Hn & ->)|(-> & Hch & Hpa & _)].
  - destruct (Hwf l n Hn) as [Hnd Hkids].
    assert (Hold : forall u c, (u, c) ∈ children n ->
              exists cn, add_child h self x !! c = Some cn
                         /\ uid cn = u /\ parent cn = Some l).
    { intros u c Hin. destruct (Hkids u c Hin) as (cn & Hcn & Hu & Hp).
      rewrite (add_child_lookup _ _ _ _ _ Hcn).
      eexists. split; [done|]. by destruct (decide (self = c)). }
    destruct (decide (self = l)) as [->|Hne]; [|by split].
    cbn [children set_children]. split; [by apply dict_set_NoDup|].
    intros u c Hin. apply dict_set_elem in Hin as [Hin|[= -> ->]]; [by apply Hold|].
    rewrite add_child_new by done. eexists. by split.
  - rewrite Hch. split; [apply NoDup_nil_2|].
    intros u c Hin. by apply elem_of_nil in Hin.
Qed.

Lemma add_children_tree_wf h self data :
  (self < length h)%nat -> tree_wf h -> tree_wf (add_children h self data).
Proof.
  unfold add_children. revert h.
  induction data as [|x data IH]; intros h Hself Hwf; simpl; [done|].
  apply IH; [rewrite add_child_length; lia|by apply add_child_tree_wf].
Qed.

Lemma render_tree_wf env h self func page_arg kw :
  tree_wf h -> tree_wf (out_heap (_get_page_content env h self func page_arg kw)).
Proof.
  intros Hwf.
  destruct (get_page_content_heap env h self func page_arg kw)
    as [->|(f & tp & data & hm & Htp & _ & ->)]; [done|].
  apply add_children_tree_wf; [by eapply lookup_lt_Some|done].
Qed.

Lemma tree_wf_refs h l n :
  tree_wf h -> h !! l = Some n ->
  Forall (fun uc => is_Some (h !! uc.2)) (children n).
Proof.
  intros Hwf Hn. destruct (Hwf l n Hn) as [_ Hkids].
  apply Forall_forall. intros [u c] Hin.
  destruct (Hkids u c Hin) as (cn & Hcn & _). by exists cn.
Qed.

Lemma get_page_content_ok env h self func page_arg kw r :
  out_result (_get_page_content env h self func page_arg kw) = Ok r ->
  exists P' has_more,
    out_heap (_get_page_content env h self func page_arg kw)
      !! default (page self) page_arg = Some P'
    /\ build_page (out_heap (_get_page_content env h self func page_arg kw))
                  self P' has_more = Ok r.
Proof.
  unfold _get_page_content.
  destruct (h !! default (page self) page_arg) as [tp|]; [|discriminate].
  destruct (out_result (load_step _ _ _ _ _ _ _)) as [hm|]; [|discriminate].
  cbn [out_result out_heap].
  match goal with |- context [?h' !! ?l] => destruct (h' !! l) as [P'|] end;
    [|discriminate].
  intros Hr. by exists P', hm.
Qed.

(** ** Captions and renders that return *)








(** ** Content source failure during [next] *)

(** C1: a content source that raises during a [next] transition does
    not leave the cursor at its pre-transition value: on the catalog root
    with the default page size the failed turn ends with the cursor
    advanced from 0 to 5. *)
Lemma next_source_failure_moves_cursor :
  let t := handle_navigation failing_source [catalog_root] catalog_engine A_next None [] in
  out_result t.2 = Raise LoaderError
  /\ cursor catalog_engine = 0
  /\ cursor t.1 = 5.
Proof. vm_compute. done. Qed.

(** C1 (amended): when the content source raises during a [next]
    transition, the current node is unchanged and the node tree is exactly
    as before the turn (no child is appended), the source was called once,
    and the cursor has already been advanced by the page size. *)
Theorem next_source_failure env h self uid_arg kw :
  out_result (handle_navigation env h self A_next uid_arg kw).2 = Raise LoaderError ->
  exists current_page,
    h !! page self = Some current_page
    /\ page (handle_navigation env h self A_next uid_arg kw).1 = page self
    /\ out_heap (handle_navigation env h self A_next uid_arg kw).2 = h
    /\ length (out_trace (handle_navigation env h self A_next uid_arg kw).2) = 1%nat
    /\ cursor (handle_navigation env h self A_next uid_arg kw).1
       = cursor self + obj_count_per_page (config current_page).
Proof.
  unfold handle_navigation, navigate.
  destruct (h !! page self) as [cur|] eqn:Hcur; [|discriminate].
  destruct (_ || _) eqn:Hcond; cbn [fst snd]; unfold show_page; intros E;
    apply get_page_content_loader_error in E
      as (tp & f & Htp & Hres & _ & Hheap & Htrace);
    simpl in Htp; rewrite Hcur in Htp;
    injection Htp as <-.
  - exists cur. rewrite Hheap, Htrace. done.
  - exfalso. unfold resolve_loader in Hres.
    apply orb_false_elim in Hcond as [Hcond H3].
    apply orb_false_elim in Hcond as [_ H2].
    apply bool_decide_eq_false in H2, H3.
    destruct (loader_func self) eqn:?; [by apply H3|].
    destruct (config_loader_func (config cur)) eqn:?; [by apply H2|].
    discriminate.
Qed.

Lemma next_source_failure_witness :
  exists current_page,
    [catalog_root] !! page catalog_engine = Some current_page
    /\ page (handle_navigation failing_source [catalog_root] catalog_engine A_next None []).1
       = page catalog_engine
    /\ out_heap (handle_navigation failing_source [catalog_root] catalog_engine A_next None []).2
       = [catalog_root]
    /\ length (out_trace
                 (handle_navigation failing_source [catalog_root] catalog_engine A_next None []).2)
       = 1%nat
    /\ cursor (handle_navigation failing_source [catalog_root] catalog_engine A_next None []).1
       = cursor catalog_engine + obj_count_per_page (config current_page).
Proof. apply (next_source_failure failing_source [catalog_root] catalog_engine None []). reflexivity. Defined.

(** ** The guard of [next] *)

(** C2: [next] advances the cursor although the most recent load
    reported [has_more = false] and every known child is on the page: the
    FAQ root shows its three entries on the first page, no [next] button is
    offered, and a [next] callback still moves the cursor from 0 to 5. *)
Lemma next_after_exhausted_source_advances :
  let '(h0, eng) := faq_engine [] None in
  let shown := show_page three_entries h0 eng None None [] in
  let t := handle_navigation three_entries (out_heap shown) eng A_next None [] in
  three_entries faq_loader_function "faq_root" 5 0 []
  = LoaderReturns (Some [faq_entry "1" "Delivery?" "By post.";
                         faq_entry "2" "Payment?" "By card.";
                         faq_entry "3" "Returns?" "Within 14 days."]) false
  /\ out_trace shown
     = [{| call_func := faq_loader_function; call_uid := "faq_root"; call_limit := 5;
           call_cursor := 0; call_kwargs := [] |}]
  /\ (children <$> out_heap shown !! page eng)
     = Some [("faq_1", 1%nat); ("faq_2", 2%nat); ("faq_3", 3%nat)]
  /\ (r_buttons <$> match out_result shown with Ok r => Some r | Raise _ => None end)
     = Some [(Some "Delivery?", MovePage A_down (Some "faq_1"));
             (Some "Payment?", MovePage A_down (Some "faq_2"));
             (Some "Returns?", MovePage A_down (Some "faq_3"));
             (Some "To Main Menu", KStr "goto_main_menu")]
  /\ cursor eng = 0
  /\ cursor t.1 = 5.
Proof. vm_compute. done. Qed.

(** C2 (amended): [next] keeps the current node; it leaves the cursor
    unchanged exactly when every known child is within or before the
    current window and no content source is configured on the node or on
    the engine, and otherwise advances it by the page size, whatever the
    last load reported. *)
Theorem next_cursor_rule env h self uid_arg kw current_page :
  h !! page self = Some current_page ->
  let per_page := obj_count_per_page (config current_page) in
  let known := Z.of_nat (length (children current_page)) in
  let self' := (handle_navigation env h self A_next uid_arg kw).1 in
  page self' = page self
  /\ (known <= cursor self + per_page ->
      config_loader_func (config current_page) = None ->
      loader_func self = None ->
      cursor self' = cursor self)
  /\ (cursor self + per_page < known
      \/ is_Some (config_loader_func (config current_page))
      \/ is_Some (loader_func self) ->
      cursor self' = cursor self + per_page).
Proof.
  intros Hcur per_page known. unfold handle_navigation, navigate.
  rewrite Hcur. fold per_page known.
  repeat split.
  - by destruct (_ || _).
  - intros Hk Hc Hl. rewrite Hc, Hl.
    assert (Hlt : (cursor self + per_page <? known) = false) by lia.
    rewrite Hlt. done.
  - intros Hcase.
    assert (Hcond : (cursor self + per_page <? known)
                    || bool_decide (is_Some (config_loader_func (config current_page)))
                    || bool_decide (is_Some (loader_func self)) = true).
    { destruct Hcase as [Hlt | [Hc | Hl]].
      - apply Z.ltb_lt in Hlt. by rewrite Hlt.
      - rewrite (bool_decide_eq_true_2 _ Hc). by rewrite orb_true_r.
      - rewrite (bool_decide_eq_true_2 _ Hl). by rewrite orb_true_r. }
    rewrite Hcond. done.
Qed.

Lemma next_cursor_rule_witness :
  let with_loader :=
    (handle_navigation failing_source [catalog_root] catalog_engine A_next None []).1 in
  let without_loader :=
    (handle_navigation failing_source [catalog_root] (Paginator_init 0%nat None None None)
                       A_next None []).1 in
  (page with_loader = 0%nat /\ cursor with_loader = 0 + 5)
  /\ (page without_loader = 0%nat /\ cursor without_loader = 0).
Proof.
  split.
  - destruct (next_cursor_rule failing_source [catalog_root] catalog_engine None []
                catalog_root eq_refl) as (Hpage & _ & Hadvance).
    split; [exact Hpage|]. apply Hadvance. right. right. by eexists.
  - destruct (next_cursor_rule failing_source [catalog_root]
                (Paginator_init 0%nat None None None) None [] catalog_root eq_refl)
      as (Hpage & Hstay & _).
    split; [exact Hpage|]. apply Hstay; [simpl; lia|reflexivity..].
Defined.

(** ** Choice of the content source *)

(** C3: on a node whose configuration names its own content source,
    rendered by an engine that has an engine-level one, the render invokes
    the engine-level source and not the node's. *)
Lemma engine_loader_shadows_node_loader :
  resolve_loader None catalog_engine category_with_loader = Some catalog_loader_function
  /\ config_loader_func (config category_with_loader) = Some node_loader
  /\ out_trace (_get_page_content empty_sources [category_with_loader] catalog_engine
                                  None None [])
     = [{| call_func := catalog_loader_function; call_uid := "category_1";
           call_limit := 5; call_cursor := 0; call_kwargs := [] |}].
Proof. vm_compute. done. Qed.

(** ** When a render fetches *)

Lemma reset_node_lookup (h : Heap) (l : loc) (f : PageNode -> PageNode) n :
  h !! l = Some n -> alter f l h !! l = Some (f n).
Proof. intros H. rewrite list_lookup_alter_eq. by rewrite H. Qed.

(** C4: a render of a node that is not a leaf makes no loader call when
    more children are known than the window ends at; otherwise it calls
    the configured loader exactly once, with the page size as limit and
    the number of known children as offset, and appends the returned
    children with [add_children]; without a loader it fetches nothing.
    After the FAQ search reset the call has offset 0. *)
Theorem render_fetch_policy env h self func page_arg kw tp search_term :
  h !! default (page self) page_arg = Some tp ->
  is_leaf_node (content tp) = false ->
  let target := default (page self) page_arg in
  let per_page := obj_count_per_page (config tp) in
  let known := Z.of_nat (length (children tp)) in
  let out := _get_page_content env h self func page_arg kw in
  let call f offset kw :=
    {| call_func := f; call_uid := uid tp; call_limit := per_page;
       call_cursor := offset; call_kwargs := kw |} in
  (cursor self + per_page < known -> out_trace out = [] /\ out_heap out = h)
  /\ (known <= cursor self + per_page ->
      match resolve_loader func self tp with
      | Some f =>
          out_trace out = [call f known kw]
          /\ match env f (uid tp) per_page known kw with
             | LoaderReturns (Some data) _ => out_heap out = add_children h target data
             | _ => out_heap out = h
             end
      | None => out_trace out = [] /\ out_heap out = h
      end)
  /\ (page_arg = None -> 0 <= per_page ->
      forall f, resolve_loader None self tp = Some f ->
      out_trace (handle_search_query env h (Some self) search_term).2
      = [call f 0 [("search", Some search_term)]]
      /\ out_trace (remove_search_term env h (Some self)).2 = [call f 0 []]).
Proof.
  intros Htp Hleaf target per_page known out call. subst target.
  destruct (load_step_spec env h self (default (page self) page_arg) tp (resolve_loader func self tp) kw Hleaf)
    as [Hfar Hedge].
  fold per_page known in Hfar, Hedge.
  split; [|split].
  - intros Hlt. subst out. unfold _get_page_content. cbv zeta. rewrite Htp.
    rewrite (Hfar Hlt). done.
  - intros Hle. subst out. unfold _get_page_content. cbv zeta. rewrite Htp.
    rewrite (Hedge Hle). unfold _load_data. fold per_page known.
    destruct (resolve_loader func self tp) as [f|]; [|done].
    destruct (env f (uid tp) per_page known kw) as [|[[|d ds]|] hm]; done.
  - intros -> Hps f Hf. simpl in Htp.
    assert (Hgen : forall g kw',
      is_leaf_node (content (g tp)) = false ->
      children (g tp) = [] -> uid (g tp) = uid tp -> config (g tp) = config tp ->
      out_trace (show_page env (alter g (page self) h) (set_cursor 0 self) None None kw')
      = [call f 0 kw']).
    { intros g kw' Hl Hc Hu Hcfg. unfold show_page, _get_page_content.
      cbv zeta. simpl default. rewrite (reset_node_lookup h _ g tp Htp).
      destruct (load_step_spec env (alter g (page self) h) (set_cursor 0 self)
                  (page self) (g tp) (resolve_loader None (set_cursor 0 self) (g tp)) kw' Hl)
        as [_ Hedge'].
      rewrite Hc, Hcfg in Hedge'. cbn [cursor set_cursor length] in Hedge'.
      rewrite Hedge' by (fold per_page; lia).
      unfold _load_data.
      assert (Hr : resolve_loader None (set_cursor 0 self) (g tp) = Some f).
      { unfold resolve_loader in *. cbn [loader_func set_cursor]. by rewrite Hcfg. }
      rewrite Hr, Hc, Hu, Hcfg. fold per_page. cbn [length].
      change (Z.of_nat 0) with 0.
      by destruct (env f (uid tp) per_page 0 kw') as [|[[|d ds]|] hm]. }
    split.
    + unfold handle_search_query. cbn [faq_engine snd]. apply Hgen; done.
    + unfold remove_search_term. cbn [faq_engine snd]. apply Hgen; done.
Qed.

Lemma render_fetch_policy_witness :
  let faq := (faq_engine [] None).2 in
  let first_page := _get_page_content three_entries [faq_root] faq None None [] in
  let known_page :=
    _get_page_content three_entries twelve_known catalog_engine None None [] in
  (out_trace known_page = [] /\ out_heap known_page = twelve_known)
  /\ (out_trace first_page
      = [{| call_func := faq_loader_function; call_uid := "faq_root"; call_limit := 5;
            call_cursor := 0; call_kwargs := [] |}]
      /\ out_heap first_page
         = add_children [faq_root] 0%nat
             [faq_entry "1" "Delivery?" "By post."; faq_entry "2" "Payment?" "By card.";
              faq_entry "3" "Returns?" "Within 14 days."])
  /\ (out_trace (handle_search_query three_entries faq_loaded (Some faq) "card").2
      = [{| call_func := faq_loader_function; call_uid := "faq_root"; call_limit := 5;
            call_cursor := 0; call_kwargs := [("search", Some "card")] |}]
      /\ out_trace (remove_search_term three_entries faq_loaded (Some faq)).2
         = [{| call_func := faq_loader_function; call_uid := "faq_root"; call_limit := 5;
               call_cursor := 0; call_kwargs := [] |}]).
Proof.
  intros faq first_page known_page. split; [|split].
  - destruct (render_fetch_policy three_entries twelve_known catalog_engine None None []
                catalog_root_twelve "" eq_refl eq_refl) as (Hknown & _ & _).
    apply Hknown. reflexivity.
  - destruct (render_fetch_policy three_entries [faq_root] faq None None []
                faq_root "" eq_refl eq_refl) as (_ & Hedge & _).
    apply Hedge. simpl. lia.
  - destruct (render_fetch_policy three_entries faq_loaded faq None None []
                faq_root_loaded "card" eq_refl eq_refl) as (_ & _ & Hreset).
    apply (Hreset eq_refl); [simpl; lia|reflexivity].
Defined.

(** ** Down and up again *)




(** ** Reachable states *)

(** C6: in every state an engine reaches from its construction on a
    closed tree without negative page sizes, by renders, navigation
    actions and the search resets of the FAQ scene (content sources
    returning no node with a negative page size), the cursor is
    non-negative and an integer multiple of the page size of the current
    node. *)
Theorem cursor_invariant h root loader fmt gk evs :
  heap_closed h -> sizes_nonneg h -> (root < length h)%nat ->
  Forall (fun ev => source_sizes_nonneg (event_sources ev)) evs ->
  let s := run {| heap := h; pg := Paginator_init root loader fmt gk |} evs in
  0 <= cursor (pg s)
  /\ exists n, current_node s = Some n
               /\ (obj_count_per_page (config n) | cursor (pg s)).
Proof.
  intros Hc Hs Hroot Hevs s.
  assert (Hok : engine_ok s).
  { subst s. unfold run.
    assert (H0 : engine_ok {| heap := h; pg := Paginator_init root loader fmt gk |}).
    { destruct (lookup_lt_is_Some_2 h root Hroot) as [n Hn].
      split; cbn; [done..|]. exists n. split; [done|apply Z.divide_0_r]. }
    revert H0. generalize {| heap := h; pg := Paginator_init root loader fmt gk |}.
    induction Hevs as [|ev evs Hev Hevs IH]; intros s0 H0; simpl; [done|].
    apply IH. by apply step_preserves. }
  destruct Hok as [_ _ Hcur Hpage]. done.
Qed.

Lemma three_entries_sizes : source_sizes_nonneg three_entries.
Proof.
  intros f u limit offset kw data hm. unfold three_entries.
  destruct (offset =? 0); [|discriminate].
  intros [= <- <-]. repeat constructor; simpl; lia.
Qed.

Lemma faq_root_closed : heap_closed [faq_root] /\ sizes_nonneg [faq_root].
Proof.
  split; intros [|l] n Hn; try discriminate; injection Hn as <-.
  - split; [intros u c Hin; by apply elem_of_nil in Hin|discriminate].
  - simpl. lia.
Qed.

Lemma cursor_invariant_witness :
  let s := run {| heap := [faq_root];
                  pg := Paginator_init 0%nat (Some faq_loader_function) (Some faq_formatter)
                                       (Some [("To Main Menu", KStr "goto_main_menu")]) |}
               faq_session in
  0 <= cursor (pg s)
  /\ exists n, current_node s = Some n
               /\ (obj_count_per_page (config n) | cursor (pg s)).
Proof.
  apply (cursor_invariant [faq_root] 0%nat (Some faq_loader_function) (Some faq_formatter)
           (Some [("To Main Menu", KStr "goto_main_menu")]) faq_session).
  - apply faq_root_closed.
  - apply faq_root_closed.
  - simpl. lia.
  - repeat constructor; apply three_entries_sizes.
Defined.

(** ** Control buttons *)

Lemma create_navigation_controls h page cursor has_more kbd sizes :
  create_navigation h page cursor has_more = Ok (kbd, sizes) ->
  controls_as_specified page cursor has_more kbd.
Proof.
  intros E. apply create_navigation_keyboard in E as (k0 & Hk0 & ->).
  assert (Hd : only_descend k0).
  { eapply child_buttons_only_descend; [|exact Hk0]. intros l v. discriminate. }
  assert (Hoff : forall a, offers (set_controls k0 (control_buttons page cursor has_more)) a
                           <-> exists l, (l, a) ∈ control_buttons page cursor has_more).
  { intros a. unfold offers. split; intros [l Hl]; exists l;
      by apply (set_controls_get k0 _ l a Hd (control_buttons_NoDup _ _ _)). }
  unfold controls_as_specified. rewrite !Hoff. unfold control_buttons.
  destruct (0 <? cursor) eqn:Hc;
    destruct (_ <? Z.of_nat _) eqn:Ht; destruct has_more;
    destruct (parent page) as [p|]; cbn;
    (split; [|split; [|split]]); split;
    first
      [ intros [l Hl];
        first [ lia | done | by eexists
              | exfalso;
                repeat (apply elem_of_cons in Hl as [Hl|Hl]; [discriminate Hl|]);
                by apply elem_of_nil in Hl ]
      | intros Hcond;
        first [ lia | discriminate Hcond | by destruct Hcond
              | eexists; rewrite ?elem_of_cons; eauto 10 ] ].
Qed.

(** Custom and global actions that neither take the caption of a
    control nor carry navigation data leave the controls as they are. *)
Lemma offers_rendered k0 ctrl (custom global : dict string KeyboardDataType) a :
  only_descend k0 -> NoDup ctrl.*1 ->
  (forall l v, (l, v) ∈ custom ++ global ->
               (Some l ∉ ctrl.*1) /\ forall a', v <> MovePage a' None) ->
  offers (dict_update (dict_update (set_controls k0 ctrl) (as_buttons custom))
                      (as_buttons global)) a
  <-> offers (set_controls k0 ctrl) a.
Proof.
  intros Hd Hnd Hact.
  assert (Hval : forall (d : dict string KeyboardDataType) l,
             (forall l0 v, (l0, v) ∈ d -> (l0, v) ∈ custom ++ global) ->
             (l, MovePage a None) ∈ as_buttons d -> False).
  { intros d l Hsub Hin. unfold as_buttons in Hin.
    apply list_elem_of_fmap in Hin as ([l0 v0] & Heq & Hin). injection Heq as -> <-.
    destruct (Hact l0 (MovePage a None) (Hsub _ _ Hin)) as [_ Hno]. by apply (Hno a). }
  assert (Hkey : forall (d : dict string KeyboardDataType) l,
             (forall l0 v, (l0, v) ∈ d -> (l0, v) ∈ custom ++ global) ->
             l ∈ ctrl.*1 -> l ∉ dict_keys (as_buttons d)).
  { intros d l Hsub Hl Hin. rewrite as_buttons_keys in Hin.
    apply list_elem_of_fmap in Hin as (l0 & -> & Hin).
    apply list_elem_of_fmap in Hin as ([l1 v1] & -> & Hin).
    destruct (Hact l1 v1 (Hsub _ _ Hin)) as [Hno _]. by apply Hno. }
  assert (Hc : forall l0 v, (l0, v) ∈ custom -> (l0, v) ∈ custom ++ global)
    by (intros; apply elem_of_app; by left).
  assert (Hg : forall l0 v, (l0, v) ∈ global -> (l0, v) ∈ custom ++ global)
    by (intros; apply elem_of_app; by right).
  unfold offers. split; intros [l Hl]; exists l.
  - apply dict_get_update_from in Hl as [Hin|Hl]; [by apply Hval in Hin|].
    apply dict_get_update_from in Hl as [Hin|Hl]; [by apply Hval in Hin|done].
  - pose proof Hl as Hl'. apply (set_controls_get _ _ _ _ Hd Hnd) in Hl'.
    assert (Hin : l ∈ ctrl.*1) by (apply list_elem_of_fmap; by exists (l, a)).
    rewrite !dict_get_update_other; [done|by apply Hkey..].
Qed.

(** C7: on a node whose child references are in the heap and whose page
    size is not zero while it has children, [create_navigation] returns a
    keyboard that has a "previous" button iff [cursor > 0], a page-number
    button iff more children are known than fit one page, a "next" button
    iff [has_more], and an "up" button iff the node has a parent; the
    rendered page has the same controls when no custom or global action
    takes the caption of a control or carries navigation data. *)
Theorem control_buttons_present h self tp has_more :
  Forall (fun uc => is_Some (h !! uc.2)) (children tp) ->
  (obj_count_per_page (config tp) = 0 -> children tp = []) ->
  (exists kbd sizes,
      create_navigation h tp (cursor self) has_more = Ok (kbd, sizes)
      /\ controls_as_specified tp (cursor self) has_more kbd)
  /\ ((forall l v, (l, v) ∈ custom_kbd tp ++ global_kbd self ->
                   (Some l ∉ (control_buttons tp (cursor self) has_more).*1)
                   /\ forall a, v <> MovePage a None) ->
      exists r,
        build_page h self tp has_more = Ok r
        /\ controls_as_specified tp (cursor self) has_more (r_buttons r)).
Proof.
  intros Hrefs Hzero.
  destruct (create_navigation_returns h tp (cursor self) has_more Hrefs Hzero)
    as (kbd & sizes & E).
  pose proof (create_navigation_controls _ _ _ _ _ _ E) as Hctl.
  split; [by exists kbd, sizes|].
  intros Hact.
  destruct (build_page h self tp has_more) as [r|e] eqn:Hr.
  - exists r. split; [done|].
    apply build_page_buttons in Hr as (nav & sizes' & Hnav & Hbtn).
    rewrite E in Hnav. injection Hnav as <- <-.
    apply create_navigation_keyboard in E as (k0 & Hk0 & ->).
    assert (Hd : only_descend k0).
    { eapply child_buttons_only_descend; [|exact Hk0]. intros l v. discriminate. }
    pose proof (fun a => offers_rendered k0 _ (custom_kbd tp) (global_kbd self) a
                           Hd (control_buttons_NoDup _ _ _) Hact) as Hsame.
    rewrite <- Hbtn in Hsame.
    destruct Hctl as (H1 & H2 & H3 & H4).
    unfold controls_as_specified. by rewrite !Hsame.
  - exfalso. unfold build_page in Hr. by rewrite E in Hr.
Qed.

Lemma control_buttons_present_witness :
  (exists kbd sizes,
      create_navigation twelve_known catalog_root_twelve 5 true = Ok (kbd, sizes)
      /\ controls_as_specified catalog_root_twelve 5 true kbd)
  /\ (exists r,
        build_page twelve_known (set_cursor 5 catalog_engine) catalog_root_twelve true = Ok r
        /\ controls_as_specified catalog_root_twelve 5 true (r_buttons r)).
Proof.
  destruct (control_buttons_present twelve_known (set_cursor 5 catalog_engine)
              catalog_root_twelve true) as [Hnav Hpage].
  - repeat (constructor; [eexists; reflexivity|]). constructor.
  - discriminate.
  - split; [exact Hnav|]. apply Hpage.
    intros l v Hin. apply list_elem_of_singleton in Hin. injection Hin as -> ->.
    split; [|discriminate].
    set (captions := (control_buttons _ _ _).*1). vm_compute in captions. subst captions.
    rewrite !not_elem_of_cons. repeat split; try discriminate.
    apply not_elem_of_nil.
Defined.

(** ** Quantity validation *)

(** C8: with a product of stock [s] being processed, an entered
    quantity [q] is accepted (stored in the session data, confirmation
    prompt shown) exactly when [1 <= q <= s]; otherwise the session data is
    left as it was and the corrective message is sent.  In particular 0 and
    every value above the stock are rejected. *)
Theorem quantity_accepted_iff_in_stock q pid old product data get_product :
  product_processing data = Some {| product_id := Some pid; quantity := old |} ->
  get_product pid = Some product ->
  let s := stock product in
  let accepted :=
    ({| product_processing := Some {| product_id := Some pid; quantity := Some q |} |},
     ConfirmPrompt product q) in
  let rejected := (data, QuantityOutOfRange s) in
  (set_quantity (Some q) data get_product = accepted <-> 1 <= q <= s)
  /\ (set_quantity (Some q) data get_product = rejected <-> ~ (1 <= q <= s))
  /\ (q = 0 \/ s < q -> set_quantity (Some q) data get_product = rejected).
Proof.
  intros Hdata Hprod s accepted rejected.
  assert (Hcases : (1 <= q <= s /\ set_quantity (Some q) data get_product = accepted)
                   \/ (~ (1 <= q <= s)
                       /\ set_quantity (Some q) data get_product = rejected)).
  { unfold set_quantity. rewrite Hdata, Hprod. fold s.
    destruct (decide (1 <= q <= s)) as [Hin|Hout].
    - left. split; [done|].
      assert (Hb : (0 <? q) && (q <=? s) = true)
        by (apply andb_true_intro; split; lia).
      by rewrite Hb.
    - right. split; [done|].
      assert (Hb : (0 <? q) && (q <=? s) = false)
        by (apply andb_false_iff; lia).
      by rewrite Hb. }
  assert (Hne : accepted <> rejected) by (unfold accepted, rejected; congruence).
  destruct Hcases as [[Hin E]|[Hout E]]; rewrite E; repeat split;
    try done; try lia; try congruence.
Qed.

Lemma quantity_accepted_iff_in_stock_witness :
  let mug := {| product_name := "Mug"; stock := 4 |} in
  let data := {| product_processing := Some {| product_id := Some 17; quantity := None |} |} in
  let get_product := fun id => if id =? 17 then Some mug else None in
  let accepted :=
    ({| product_processing := Some {| product_id := Some 17; quantity := Some 4 |} |},
     ConfirmPrompt mug 4) in
  let rejected := (data, QuantityOutOfRange 4) in
  (set_quantity (Some 4) data get_product = accepted <-> 1 <= 4 <= 4)
  /\ (set_quantity (Some 4) data get_product = rejected <-> ~ (1 <= 4 <= 4))
  /\ (4 = 0 \/ 4 < 4 -> set_quantity (Some 4) data get_product = rejected).
Proof.
  intros mug data get_product.
  apply (quantity_accepted_iff_in_stock 4 17 None mug data get_product); reflexivity.
Defined.

(** ** Leaf nodes *)

(** C9: rendering a leaf node calls no loader and leaves the node tree
    as it is, whatever the cursor, the known children and the loaders
    passed or configured; the page is built from the node as it stands. *)
Theorem leaf_render_never_loads env h self func page_arg kw tp :
  h !! default (page self) page_arg = Some tp ->
  is_leaf_node (content tp) = true ->
  _get_page_content env h self func page_arg kw
  = {| out_heap := h; out_trace := []; out_result := build_page h self tp false |}
  /\ out_trace (show_page env h self func page_arg kw) = []
  /\ out_heap (show_page env h self func page_arg kw) = h.
Proof.
  intros Htp Hleaf.
  assert (H : forall pa, default (page self) pa = default (page self) page_arg ->
            _get_page_content env h self func pa kw
            = {| out_heap := h; out_trace := []; out_result := build_page h self tp false |}).
  { intros pa Hpa. unfold _get_page_content. cbv zeta. rewrite Hpa, Htp.
    rewrite load_step_leaf by done. cbn [out_result out_heap out_trace].
    by rewrite Htp. }
  split; [by apply H|].
  unfold show_page. rewrite H by done. done.
Qed.

Lemma leaf_render_never_loads_witness :
  _get_page_content failing_source [catalog_root; product_leaf]
                    (set_page 1%nat catalog_engine) (Some node_loader) None []
  = {| out_heap := [catalog_root; product_leaf]; out_trace := [];
       out_result := build_page [catalog_root; product_leaf]
                                (set_page 1%nat catalog_engine) product_leaf false |}
  /\ out_trace (show_page failing_source [catalog_root; product_leaf]
                          (set_page 1%nat catalog_engine) (Some node_loader) None []) = []
  /\ out_heap (show_page failing_source [catalog_root; product_leaf]
                         (set_page 1%nat catalog_engine) (Some node_loader) None [])
     = [catalog_root; product_leaf].
Proof.
  apply (leaf_render_never_loads failing_source [catalog_root; product_leaf]
           (set_page 1%nat catalog_engine) (Some node_loader) None [] product_leaf);
    reflexivity.
Defined.

(** ** One button per caption *)

(** C10: the buttons of a rendered page are keyed by caption.  No two
    buttons share a caption; when two children of the window share one,
    the navigation keyboard has strictly fewer buttons than window children
    and controls together, and the only button with that caption descends
    to the last such child (unless a control, custom or global button takes
    the caption); a custom or global action takes the place of any button
    with the same caption, a global one also over a custom one, and the
    page then has strictly fewer buttons than navigation buttons and
    actions together. *)
Theorem buttons_keyed_by_label h self tp hm nav sizes r :
  create_navigation h tp (cursor self) hm = Ok (nav, sizes) ->
  build_page h self tp hm = Ok r ->
  NoDup (dict_keys (custom_kbd tp)) ->
  NoDup (dict_keys (global_kbd self)) ->
  let w := window tp (cursor self) in
  let ctrl := control_buttons tp (cursor self) hm in
  NoDup (dict_keys (r_buttons r))
  /\ (forall i j ui ci uj cj ni nj,
        (i < j)%nat -> w !! i = Some (ui, ci) -> w !! j = Some (uj, cj) ->
        h !! ci = Some ni -> h !! cj = Some nj ->
        label (content ni) = label (content nj) ->
        (length nav < length w + length ctrl)%nat
        /\ ((forall m um cm nm, (j < m)%nat -> w !! m = Some (um, cm) -> h !! cm = Some nm ->
                                label (content nm) <> label (content nj)) ->
            (label (content nj) ∉ ctrl.*1) ->
            (label (content nj) ∉ Some <$> dict_keys (custom_kbd tp)) ->
            (label (content nj) ∉ Some <$> dict_keys (global_kbd self)) ->
            forall v, (label (content nj), v) ∈ r_buttons r
                      <-> v = MovePage A_down (Some uj)))
  /\ (forall l v, (l, v) ∈ global_kbd self ->
                  forall v', (Some l, v') ∈ r_buttons r <-> v' = v)
  /\ (forall l v, (l, v) ∈ custom_kbd tp -> l ∉ dict_keys (global_kbd self) ->
                  forall v', (Some l, v') ∈ r_buttons r <-> v' = v)
  /\ (length (r_buttons r)
      <= length nav + length (custom_kbd tp) + length (global_kbd self))%nat
  /\ (forall l, Some l ∈ dict_keys nav ->
                l ∈ dict_keys (custom_kbd tp) \/ l ∈ dict_keys (global_kbd self) ->
                (length (r_buttons r)
                 < length nav + length (custom_kbd tp) + length (global_kbd self))%nat).
Proof.
  intros Hnav Hr Hcust Hglob w ctrl.
  apply build_page_buttons in Hr as (nav' & sizes' & Hnav' & Hbtn).
  rewrite Hnav in Hnav'. injection Hnav' as <- <-.
  apply create_navigation_keyboard in Hnav as (k0 & Hk0 & Hnav).
  fold w in Hk0. fold ctrl in Hnav.
  pose proof (as_buttons_NoDup _ Hcust) as Hcust'.
  pose proof (as_buttons_NoDup _ Hglob) as Hglob'.
  assert (Hk0nd : NoDup (dict_keys k0)).
  { eapply child_buttons_NoDup; [|exact Hk0]. apply NoDup_nil_2. }
  assert (Hnd : NoDup (dict_keys (r_buttons r))).
  { rewrite Hbtn, Hnav.
    by apply dict_update_NoDup, dict_update_NoDup, set_controls_NoDup. }
  assert (Hget : forall l, dict_get (r_buttons r) l
            = match dict_get (as_buttons (global_kbd self)) l with
              | Some v => Some v
              | None => match dict_get (as_buttons (custom_kbd tp)) l with
                        | Some v => Some v
                        | None => dict_get nav l
                        end
              end).
  { intros l. rewrite Hbtn. by rewrite !dict_get_update. }
  pose proof (dict_update_length_le nav (as_buttons (custom_kbd tp))) as Hlen1.
  pose proof (dict_update_length_le (dict_update nav (as_buttons (custom_kbd tp)))
                (as_buttons (global_kbd self))) as Hlen2.
  rewrite <- Hbtn in Hlen2.
  assert (Hlc : length (as_buttons (custom_kbd tp)) = length (custom_kbd tp))
    by apply length_fmap.
  assert (Hlg : length (as_buttons (global_kbd self)) = length (global_kbd self))
    by apply length_fmap.
  split; [done|]. split; [|split; [|split; [|split]]].
  - intros i j ui ci uj cj ni nj Hij Hi Hj Hni Hnj Hlab. split.
    + pose proof (child_buttons_length_shared _ _ _ _ _ _ _ _ _ _ _ _
                    Hk0 Hij Hi Hj Hni Hnj Hlab) as Hlen.
      pose proof (set_controls_length k0 ctrl) as Hc.
      rewrite Hnav. cbn [length] in Hlen. lia.
    + intros Hlater Hctrl Hc Hg v.
      rewrite (dict_elem_get _ _ _ Hnd), Hget.
      rewrite <- as_buttons_keys in Hg, Hc. apply dict_get_None in Hg, Hc.
      rewrite Hg, Hc, Hnav, (set_controls_get_other _ _ _ Hctrl).
      rewrite (child_buttons_last _ _ _ _ _ _ _ _ Hk0 Hj Hnj Hlater).
      split; [by intros [= <-]|by intros ->].
  - intros l v Hin v'. rewrite (dict_elem_get _ _ _ Hnd), Hget.
    rewrite (dict_get_elem _ _ _ Hglob' (as_buttons_elem _ _ _ Hin)).
    split; [by intros [= <-]|by intros ->].
  - intros l v Hin Hng v'. rewrite (dict_elem_get _ _ _ Hnd), Hget.
    assert (Hg : dict_get (as_buttons (global_kbd self)) (Some l) = None).
    { apply dict_get_None. rewrite as_buttons_keys.
      intros Hin'. apply list_elem_of_fmap in Hin' as (l' & [= <-] & Hl'). done. }
    rewrite Hg, (dict_get_elem _ _ _ Hcust' (as_buttons_elem _ _ _ Hin)).
    split; [by intros [= <-]|by intros ->].
  - lia.
  - intros l Hl [Hin|Hin].
    + assert (Hin' : Some l ∈ dict_keys (as_buttons (custom_kbd tp))).
      { rewrite as_buttons_keys. apply list_elem_of_fmap. by exists l. }
      pose proof (dict_update_length_lt _ _ _ Hl Hin'). lia.
    + assert (Hin' : Some l ∈ dict_keys (as_buttons (global_kbd self))).
      { rewrite as_buttons_keys. apply list_elem_of_fmap. by exists l. }
      pose proof (dict_update_length_lt _ _ _
                    (dict_keys_update_incl _ (as_buttons (custom_kbd tp)) _ Hl) Hin')
        as Hlt.
      rewrite <- Hbtn in Hlt. lia.
Qed.

Lemma buttons_keyed_by_label_witness :
  exists nav sizes r,
    create_navigation same_names same_names_root 0 false = Ok (nav, sizes)
    /\ build_page same_names catalog_engine same_names_root false = Ok r
    /\ NoDup (dict_keys (r_buttons r))
    /\ (length nav < 3 + 0)%nat
    /\ (forall v, (Some "Mug", v) ∈ r_buttons r <-> v = MovePage A_down (Some "product_4"))
    /\ (forall v, (Some "To Main Menu", v) ∈ r_buttons r <-> v = KStr "goto_main_menu")
    /\ (length (r_buttons r) < length nav + 0 + 1)%nat.
Proof.
  eexists _, _, _. split; [vm_compute; reflexivity|]. split; [vm_compute; reflexivity|].
  destruct (buttons_keyed_by_label same_names catalog_engine same_names_root false
              _ _ _ eq_refl eq_refl)
    as (Hnd & Hshared & Hglobal & _ & _ & Hfewer).
  { apply NoDup_nil_2. }
  { apply NoDup_singleton. }
  destruct (Hshared 0%nat 1%nat "product_3" 1%nat "product_4" 2%nat
              (default catalog_root (same_names !! 1%nat))
              (default catalog_root (same_names !! 2%nat)))
    as [Hnav Hlast]; [lia|reflexivity..|].
  split; [exact Hnd|]. split; [exact Hnav|]. split; [|split].
  - apply Hlast.
    + intros [|[|[|m]]] um cm nm Hm Hw Hh; try lia.
      * injection Hw as <- <-. injection Hh as <-. discriminate.
      * discriminate Hw.
    + intros Hin. inversion Hin.
    + intros Hin. inversion Hin.
    + intros Hin. apply list_elem_of_singleton in Hin. discriminate Hin.
  - apply (Hglobal "To Main Menu"). by left.
  - apply (Hfewer "To Main Menu").
    + right. by left.
    + right. by left.
Defined.

(** ** Scenarios of the specification, run on the model *)

(** Scenario A: twelve known children, page size 5.  The first page
    shows children 1 to 5, the page number and "next"; after [next] the
    cursor is 5 and "previous" appears; after another [next] the cursor is
    10, the source is asked for more at offset 12 and, as it has none, the
    last page shows children 11 and 12 without "next". *)
Example scenario_A :
  let first := show_page empty_sources twelve_known catalog_engine None None [] in
  let second := handle_navigation empty_sources (out_heap first) catalog_engine
                                  A_next None [] in
  let third := handle_navigation empty_sources (out_heap second.2) second.1
                                 A_next None [] in
  captions first
  = Some [Some "Category 1"; Some "Category 2"; Some "Category 3"; Some "Category 4";
          Some "Category 5"; Some "1"; Some "➡️"; Some "To Main Menu"]
  /\ out_trace first = []
  /\ cursor second.1 = 5
  /\ captions second.2
     = Some [Some "Category 6"; Some "Category 7"; Some "Category 8"; Some "Category 9";
             Some "Category 10"; Some "⬅️"; Some "2"; Some "➡️"; Some "To Main Menu"]
  /\ cursor third.1 = 10
  /\ (call_cursor <$> out_trace third.2) = [12]
  /\ captions third.2
     = Some [Some "Category 11"; Some "Category 12"; Some "⬅️"; Some "3";
             Some "To Main Menu"].
Proof. vm_compute. done. Qed.

(** Scenario C: [down] to an id that names no known child leaves the
    current node and the cursor as they are. *)
Example scenario_C :
  (handle_navigation empty_sources twelve_known (set_cursor 5 catalog_engine)
                     A_down (Some "category_99") []).1
  = set_cursor 5 catalog_engine.
Proof. reflexivity. Qed.

(** * Further properties of the code *)

(** ** Attaching children (PageNode.add_child, PageNode.add_children) *)

Lemma dict_set_fresh {K V} `{EqDecision K} (d : dict K V) k v :
  k ∉ dict_keys d -> dict_set d k v = d ++ [(k, v)].
Proof.
  unfold dict_keys. induction d as [|[k0 v0] d IH]; intros Hn; simpl; [done|].
  rewrite fmap_cons in Hn. apply not_elem_of_cons in Hn as [Hne Hn].
  cbn [fst] in Hne. rewrite decide_False by congruence. by rewrite IH.
Qed.

(** X1: [add_child] with a uid that is not yet a key of the parent
    creates one object and changes one dictionary.  The heap grows by the
    child object, which carries the constructor arguments and points back
    to the parent; the parent keeps all its children in place and gains the
    child as the last one, under the child's uid; everything else of the
    parent and every other node is as before. *)
Theorem add_child_attaches h self x n :
  h !! self = Some n ->
  new_uid x ∉ dict_keys (children n) ->
  length (add_child h self x) = S (length h)
  /\ add_child h self x !! self
     = Some (set_children (children n ++ [(new_uid x, length h)]) n)
  /\ add_child h self x !! length h
     = Some {| uid := new_uid x; content := new_content x;
               custom_kbd := new_custom_kbd x; parent := Some self;
               children := []; config := new_config x |}
  /\ (forall l m, h !! l = Some m -> l <> self -> add_child h self x !! l = Some m)
  /\ (forall n', add_child h self x !! self = Some n' ->
                 dict_get (children n') (new_uid x) = Some (length h)
                 /\ (forall u', u' <> new_uid x ->
                                dict_get (children n') u' = dict_get (children n) u')
                 /\ dict_index (children n') (new_uid x) = Some (length (children n))).
Proof.
  intros Hn Hfresh. pose proof (lookup_lt_Some _ _ _ Hn) as Hlt.
  assert (Hself : add_child h self x !! self
                  = Some (set_children (children n ++ [(new_uid x, length h)]) n)).
  { rewrite (add_child_self h self x n Hn). by rewrite dict_set_fresh. }
  split; [apply add_child_length|]. split; [exact Hself|].
  split; [by apply add_child_new|].
  split; [intros l m Hm Hne; by apply add_child_other|].
  intros n' Hn'. rewrite Hself in Hn'. injection Hn' as <-.
  cbn [children set_children]. rewrite <- (dict_set_fresh (children n) _ (length h)) by done.
  split; [by rewrite dict_get_set, decide_True|].
  split; [intros u' Hu'; by rewrite dict_get_set, decide_False|].
  rewrite dict_set_fresh by done. clear Hn Hlt Hself.
  unfold dict_keys in Hfresh. induction (children n) as [|[k0 v0] d IH]; simpl.
  - by rewrite decide_True.
  - rewrite fmap_cons in Hfresh. apply not_elem_of_cons in Hfresh as [Hne Hd].
    cbn [fst] in Hne. rewrite decide_False by congruence. by rewrite IH.
Qed.

Lemma add_child_attaches_witness :
  length (add_child same_names 0%nat (product_node "7" "Cup")) = 5%nat
  /\ add_child same_names 0%nat (product_node "7" "Cup") !! 0%nat
     = Some (set_children [("product_3", 1%nat); ("product_4", 2%nat); ("product_5", 3%nat);
                           ("product_7", 4%nat)] same_names_root)
  /\ (parent <$> add_child same_names 0%nat (product_node "7" "Cup") !! 4%nat)
     = Some (Some 0%nat)
  /\ add_child same_names 0%nat (product_node "7" "Cup") !! 2%nat = same_names !! 2%nat.
Proof.
  destruct (add_child_attaches same_names 0%nat (product_node "7" "Cup") same_names_root
              eq_refl) as (Hlen & Hself & Hnew & Hother & _).
  - change ("product_7" ∉ ["product_3"; "product_4"; "product_5"]).
    repeat (apply not_elem_of_cons; split); [discriminate..|apply not_elem_of_nil].
  - split; [exact Hlen|]. split; [exact Hself|].
    split; [exact (f_equal (fmap parent) Hnew)|]. apply (Hother 2%nat); [reflexivity|lia].
Defined.

(** X2: attaching a child whose uid is already a key overwrites the
    entry in place: the order and number of the children are unchanged,
    the key now refers to the new object, and the replaced object stays in
    the heap as it was, still pointing to its former parent. *)
Theorem add_child_overwrites h self x n old old_node :
  h !! self = Some n ->
  dict_get (children n) (new_uid x) = Some old ->
  h !! old = Some old_node -> old <> self ->
  exists n',
    add_child h self x !! self = Some n'
    /\ dict_keys (children n') = dict_keys (children n)
    /\ length (children n') = length (children n)
    /\ dict_get (children n') (new_uid x) = Some (length h)
    /\ (forall u, u <> new_uid x -> dict_get (children n') u = dict_get (children n) u)
    /\ add_child h self x !! old = Some old_node.
Proof.
  intros Hn Hget Hold Hne.
  assert (Hin : new_uid x ∈ dict_keys (children n)).
  { destruct (decide (new_uid x ∈ dict_keys (children n))) as [|Hnin]; [done|].
    apply dict_get_None in Hnin. congruence. }
  eexists. split; [by apply add_child_self|]. cbn [children set_children].
  split; [by rewrite dict_keys_set, decide_True|].
  split; [by rewrite dict_set_length, decide_True|].
  split; [by rewrite dict_get_set, decide_True|].
  split; [intros u Hu; by rewrite dict_get_set, decide_False|].
  by apply add_child_other.
Qed.

Lemma add_child_overwrites_witness :
  exists n',
    add_child same_names 0%nat (product_node "4" "Cup") !! 0%nat = Some n'
    /\ dict_keys (children n') = ["product_3"; "product_4"; "product_5"]
    /\ length (children n') = 3%nat
    /\ dict_get (children n') "product_4" = Some 4%nat
    /\ (forall u, u <> "product_4" ->
                  dict_get (children n') u = dict_get (children same_names_root) u)
    /\ (label <$> (content <$> add_child same_names 0%nat (product_node "4" "Cup") !! 2%nat))
       = Some (Some "Mug").
Proof.
  destruct (add_child_overwrites same_names 0%nat (product_node "4" "Cup") same_names_root
              2%nat (default catalog_root (same_names !! 2%nat)))
    as (n' & Hn' & Hkeys & Hlen & Hget & Hother & Hold); [reflexivity..|lia|].
  exists n'. rewrite Hold. repeat split; done.
Defined.

Lemma add_children_length h self data :
  length (add_children h self data) = (length h + length data)%nat.
Proof.
  unfold add_children. revert h.
  induction data as [|x data IH]; intros h; simpl; [lia|].
  rewrite IH, add_child_length. lia.
Qed.

Lemma add_children_self_keys h self data n :
  h !! self = Some n ->
  exists n',
    add_children h self data !! self = Some n'
    /\ dict_keys (children n') = attach_keys (dict_keys (children n)) data.
Proof.
  unfold add_children, attach_keys. revert h n.
  induction data as [|x data IH]; intros h n Hn; simpl; [by exists n|].
  destruct (IH _ _ (add_child_self h self x n Hn)) as (n' & Hn' & Hk).
  exists n'. split; [done|]. rewrite Hk. cbn [children set_children].
  by rewrite dict_keys_set.
Qed.

Lemma add_children_self_fresh h self data n :
  h !! self = Some n ->
  NoDup (new_uid <$> data) ->
  (forall x, x ∈ data -> new_uid x ∉ dict_keys (children n)) ->
  exists n',
    add_children h self data !! self = Some n'
    /\ children n'
       = children n ++ imap (fun i x => (new_uid x, (length h + i)%nat)) data.
Proof.
  unfold add_children. revert h n.
  induction data as [|x data IH]; intros h n Hn Hnd Hfresh; simpl.
  - exists n. by rewrite app_nil_r.
  - rewrite fmap_cons in Hnd. apply NoDup_cons in Hnd as [Hx Hnd].
    assert (Hxn : new_uid x ∉ dict_keys (children n)) by (apply Hfresh; by left).
    destruct (IH _ _ (add_child_self h self x n Hn) Hnd) as (n' & Hn' & Hc).
    { intros y Hy. cbn [children set_children]. rewrite dict_keys_set.
      rewrite decide_False by done. intros Hin. apply elem_of_app in Hin as [Hin|Hin].
      - apply (Hfresh y); [by right|done].
      - apply list_elem_of_singleton in Hin. apply Hx.
        apply list_elem_of_fmap. by exists y. }
    exists n'. split; [done|]. rewrite Hc. cbn [children set_children].
    rewrite (dict_set_fresh _ _ _ Hxn), <- app_assoc. f_equal. simpl. f_equal.
    + by rewrite Nat.add_0_r.
    + apply imap_ext. intros i y _. simpl. rewrite add_child_length. f_equal. lia.
Qed.

(** X3: [add_children] keeps the known children in place and attaches
    the new ones behind them in argument order; a uid that is already a key
    keeps its place.  With uids that are new and distinct, the children are
    the old ones followed by the new nodes, each at its own fresh object. *)
Theorem add_children_order h self data n :
  h !! self = Some n ->
  length (add_children h self data) = (length h + length data)%nat
  /\ (exists n',
        add_children h self data !! self = Some n'
        /\ dict_keys (children n') = attach_keys (dict_keys (children n)) data
        /\ dict_keys (children n) `prefix_of` dict_keys (children n'))
  /\ (NoDup (new_uid <$> data) ->
      (forall x, x ∈ data -> new_uid x ∉ dict_keys (children n)) ->
      exists n',
        add_children h self data !! self = Some n'
        /\ children n'
           = children n ++ imap (fun i x => (new_uid x, (length h + i)%nat)) data).
Proof.
  intros Hn. split; [apply add_children_length|]. split.
  - destruct (add_children_self_keys h self data n Hn) as (n' & Hn' & Hk).
    exists n'. split; [done|]. split; [done|].
    destruct (add_children_extends h self data) as [_ Hext].
    destruct (Hext _ _ Hn) as (n'' & Hn'' & (_ & _ & _ & _ & _ & Hpre)).
    rewrite Hn' in Hn''. by injection Hn'' as <-.
  - by apply add_children_self_fresh.
Qed.

Lemma add_children_order_witness :
  length (add_children [faq_root] 0%nat
            [faq_entry "1" "Delivery?" "By post."; faq_entry "2" "Payment?" "By card."])
  = (1 + 2)%nat
  /\ (exists n',
        add_children [faq_root] 0%nat
          [faq_entry "1" "Delivery?" "By post."; faq_entry "2" "Payment?" "By card."]
        !! 0%nat = Some n'
        /\ children n' = [] ++ [("faq_1", 1%nat); ("faq_2", 2%nat)]).
Proof.
  destruct (add_children_order [faq_root] 0%nat
              [faq_entry "1" "Delivery?" "By post."; faq_entry "2" "Payment?" "By card."]
              faq_root eq_refl) as (Hlen & _ & Hfresh).
  split; [exact Hlen|]. apply Hfresh.
  - repeat constructor; rewrite ?elem_of_cons, ?elem_of_nil; intros H;
      repeat destruct H as [H|H]; discriminate || done.
  - intros x _. apply not_elem_of_nil.
Defined.

(** ** The tree stays well formed (all engine operations) *)

Lemma reset_tree_wf h l (g : PageNode -> PageNode) :
  (forall n, children (g n) = [] /\ parent (g n) = parent n /\ uid (g n) = uid n) ->
  tree_wf h -> tree_wf (alter g l h).
Proof.
  intros Hg Hwf l' n' Hl'.
  assert (Hnode : forall c cn, h !! c = Some cn ->
            exists cn', alter g l h !! c = Some cn'
                        /\ uid cn' = uid cn /\ parent cn' = parent cn).
  { intros c cn Hcn. rewrite list_lookup_alter.
    destruct (decide (l = c)) as [->|].
    - rewrite Hcn. eexists. split; [done|]. destruct (Hg cn) as (_ & ? & ?). done.
    - by exists cn. }
  rewrite list_lookup_alter in Hl'.
  destruct (decide (l = l')) as [->|].
  - destruct (h !! l') as [n|]; [|done]. injection Hl' as <-.
    destruct (Hg n) as (-> & _ & _). split; [apply NoDup_nil_2|].
    intros u c Hin. by apply elem_of_nil in Hin.
  - destruct (Hwf l' n' Hl') as [Hnd Hkids]. split; [done|].
    intros u c Hin. destruct (Hkids u c Hin) as (cn & Hcn & Hu & Hp).
    destruct (Hnode c cn Hcn) as (cn' & Hcn' & Hu' & Hp').
    exists cn'. split; [done|]. split; congruence.
Qed.

Lemma faq_engine_tree_wf h stored :
  tree_wf h -> tree_wf (faq_engine h stored).1.
Proof.
  intros Hwf. destruct stored as [p|]; [done|]. cbn [faq_engine fst].
  intros l n Hl. destruct (h !! l) as [m|] eqn:Hm.
  - rewrite (lookup_app_l_Some _ _ _ _ Hm) in Hl. injection Hl as <-.
    destruct (Hwf l m Hm) as [Hnd Hkids]. split; [done|].
    intros u c Hin. destruct (Hkids u c Hin) as (cn & Hcn & Hrest).
    exists cn. split; [by apply lookup_app_l_Some|done].
  - apply lookup_ge_None in Hm. rewrite lookup_app_r in Hl by done.
    destruct (l - length h)%nat; [|done]. injection Hl as <-.
    split; [apply NoDup_nil_2|]. intros u c Hin. by apply elem_of_nil in Hin.
Qed.

Lemma step_tree_wf s ev : tree_wf (heap s) -> tree_wf (heap (step s ev)).
Proof.
  destruct s as [h self]. cbn [heap]. intros Hwf.
  destruct ev as [env func kw|env action uid_arg kw|env search_term|env];
    unfold step, after; cbn [heap pg fst snd].
  - by apply render_tree_wf.
  - unfold handle_navigation.
    destruct (navigate h self action uid_arg); cbn [snd out_heap]; [|done].
    by apply render_tree_wf.
  - unfold handle_search_query. cbn [faq_engine snd].
    apply render_tree_wf, reset_tree_wf; done.
  - unfold remove_search_term. cbn [faq_engine snd].
    apply render_tree_wf, reset_tree_wf; done.
Qed.

(** X4: whatever the engine does (renders, navigation, the search
    resets of the FAQ scene), every entry of every [children] dictionary
    names an object of the heap whose [uid] is the key and whose [parent] is
    the node holding the entry, and the key has a position among the
    parent's children: the conditions under which [up] finds the node it
    leaves. *)
Theorem tree_stays_well_formed s evs :
  tree_wf (heap s) ->
  forall l n u c,
    heap (run s evs) !! l = Some n ->
    dict_get (children n) u = Some c ->
    exists cn idx,
      heap (run s evs) !! c = Some cn
      /\ uid cn = u /\ parent cn = Some l
      /\ dict_index (children n) u = Some idx
      /\ children n !! idx = Some (u, c).
Proof.
  intros Hwf.
  assert (Hrun : tree_wf (heap (run s evs))).
  { unfold run. revert s Hwf. induction evs as [|ev evs IH]; intros s Hwf; simpl; [done|].
    apply IH. by apply step_tree_wf. }
  intros l n u c Hn Hget.
  destruct (Hrun l n Hn) as [Hnd Hkids].
  destruct (Hkids u c (dict_get_elem_of _ _ _ Hget)) as (cn & Hcn & Hu & Hp).
  destruct (proj2 (dict_index_get (children n) u) (ex_intro _ c Hget)) as [idx Hidx].
  destruct (dict_index_lookup _ _ _ Hidx) as [c' Hc'].
  exists cn, idx. repeat split; try done.
  assert (Hin : (u, c') ∈ children n) by (apply list_elem_of_lookup; eauto).
  apply (dict_get_elem _ _ _ Hnd) in Hin. rewrite Hget in Hin. by injection Hin as ->.
Qed.

Lemma tree_stays_well_formed_witness :
  let s := run {| heap := [faq_root]; pg := (faq_engine [] None).2 |}
               [EvShow three_entries None []] in
  exists cn idx,
    heap s !! 2%nat = Some cn
    /\ uid cn = "faq_2" /\ parent cn = Some 0%nat
    /\ dict_index (children faq_root_loaded) "faq_2" = Some idx
    /\ children faq_root_loaded !! idx = Some ("faq_2", 2%nat).
Proof.
  apply (tree_stays_well_formed {| heap := [faq_root]; pg := (faq_engine [] None).2 |}
           [EvShow three_entries None []] ltac:(
             intros [|l] n Hn; [|done]; injection Hn as <-;
             split; [apply NoDup_nil_2|]; intros u c Hin; by apply elem_of_nil in Hin)
           0%nat faq_root_loaded "faq_2" 2%nat).
  - vm_compute. reflexivity.
  - reflexivity.
Defined.

(** ** What a navigation turn leaves alone (Paginator.handle_navigation) *)

Lemma navigate_fields h self action uid_arg self' :
  navigate h self action uid_arg = Ok self' ->
  loader_func self' = loader_func self
  /\ formatter self' = formatter self
  /\ global_kbd self' = global_kbd self.
Proof.
  unfold navigate. destruct (h !! page self) as [n|]; [|discriminate].
  destruct action.
  - destruct (parent n) as [p|]; [|by intros [= <-]].
    destruct (h !! p) as [pn|]; [|discriminate].
    destruct (dict_index _ _); [destruct (_ =? 0); [discriminate|]|]; by intros [= <-].
  - destruct uid_arg as [u|]; [|by intros [= <-]].
    destruct (dict_get _ _); by intros [= <-].
  - destruct (_ || _); by intros [= <-].
  - destruct (0 <? _); by intros [= <-].
  - by intros [= <-].
Qed.

Lemma get_page_content_trace_length env h self func page_arg kw :
  (length (out_trace (_get_page_content env h self func page_arg kw)) <= 1)%nat.
Proof.
  unfold _get_page_content.
  destruct (h !! default (page self) page_arg) as [tp|]; [|simpl; lia].
  assert (Hl : (length (out_trace (load_step env h self (default (page self) page_arg) tp
                                     (resolve_loader func self tp) kw)) <= 1)%nat).
  { unfold load_step, _load_data.
    destruct (is_leaf_node _); [simpl; lia|].
    destruct (_ <? _); [simpl; lia|]. destruct (_ <=? _); [|simpl; lia].
    destruct (resolve_loader func self tp) as [f|]; [|simpl; lia].
    destruct (env f _ _ _ _); simpl; lia. }
  by destruct (out_result (load_step _ _ _ _ _ _ _)).
Qed.

(** X5: a navigation turn calls a content source at most once, keeps
    the engine's loader, formatter and global actions, and keeps every node
    of the tree: uid, parent, configuration, content and custom actions are
    unchanged and the known children stay where they are (new ones are only
    added behind them). *)
Theorem navigation_only_grows env h self action uid_arg kw :
  let t := handle_navigation env h self action uid_arg kw in
  (length (out_trace t.2) <= 1)%nat
  /\ loader_func t.1 = loader_func self
  /\ formatter t.1 = formatter self
  /\ global_kbd t.1 = global_kbd self
  /\ (length h <= length (out_heap t.2))%nat
  /\ forall l n, h !! l = Some n ->
       exists n', out_heap t.2 !! l = Some n'
                  /\ uid n' = uid n /\ parent n' = parent n /\ config n' = config n
                  /\ content n' = content n /\ custom_kbd n' = custom_kbd n
                  /\ dict_keys (children n) `prefix_of` dict_keys (children n').
Proof.
  unfold handle_navigation.
  destruct (navigate h self action uid_arg) as [self'|e] eqn:Hnav; cbn [fst snd].
  - destruct (navigate_fields _ _ _ _ _ Hnav) as (Hl & Hf & Hg).
    unfold show_page.
    destruct (get_page_content_extends env h self' None
                (Some (default (page self') None)) kw) as [Hlen Hext].
    split; [apply get_page_content_trace_length|]. do 4 (split; [done|]).
    intros l n Hn. destruct (Hext l n Hn) as (n' & Hn' & He). by exists n'.
  - cbn [out_trace out_heap length]. split; [lia|]. do 4 (split; [done|]).
    intros l n Hn. exists n. split; [done|]. by repeat split.
Qed.

(** ** Stepping back (Paginator.handle_navigation, action prev) *)

(** X6: [prev] keeps the current node; at a cursor of 0 (or below) it
    changes nothing, and from a positive cursor it moves back by the page
    size but never below 0. *)
Theorem prev_floors_at_zero env h self uid_arg kw n :
  h !! page self = Some n ->
  let self' := (handle_navigation env h self A_prev uid_arg kw).1 in
  page self' = page self
  /\ (cursor self <= 0 -> self' = self)
  /\ (0 < cursor self ->
      cursor self' = Z.max 0 (cursor self - obj_count_per_page (config n))
      /\ 0 <= cursor self')
  /\ (cursor self = 0 ->
      (handle_navigation env (out_heap (handle_navigation env h self A_prev uid_arg kw).2)
                         self' A_prev uid_arg kw).1 = self).
Proof.
  intros Hn. unfold handle_navigation, navigate. rewrite Hn.
  destruct (0 <? cursor self) eqn:Hpos; cbn [fst snd].
  - split; [done|]. split; [lia|]. split; [|lia].
    intros _. cbn [cursor set_cursor]. lia.
  - split; [done|]. split; [done|]. split; [lia|].
    intros Hz. unfold show_page.
    destruct (get_page_content_extends env h self None (Some (default (page self) None)) kw)
      as [_ Hext].
    destruct (Hext _ _ Hn) as (n' & Hn' & _). cbn [default] in Hn'.
    change (id (page self)) with (page self) in Hn'.
    unfold default in *. simpl in *. rewrite Hn'. by rewrite Hpos.
Qed.

Lemma prev_floors_at_zero_witness :
  let self' := (handle_navigation empty_sources twelve_known (set_cursor 5 catalog_engine)
                                  A_prev None []).1 in
  page self' = 0%nat
  /\ (cursor self' = Z.max 0 (5 - 5) /\ 0 <= cursor self').
Proof.
  destruct (prev_floors_at_zero empty_sources twelve_known (set_cursor 5 catalog_engine)
              None [] catalog_root_twelve eq_refl) as (Hpage & _ & Hback & _).
  split; [exact Hpage|]. apply Hback. reflexivity.
Defined.

(** X7: from a non-negative cursor on a node with a positive page size,
    a [next] that advances followed by [prev] shows the same node at the
    same cursor as before, whatever the content sources returned in
    between. *)
Theorem next_then_prev env1 env2 h self uid1 uid2 kw1 kw2 n :
  h !! page self = Some n ->
  0 <= cursor self ->
  0 < obj_count_per_page (config n) ->
  (cursor self + obj_count_per_page (config n) < Z.of_nat (length (children n))
   \/ is_Some (config_loader_func (config n)) \/ is_Some (loader_func self)) ->
  let t1 := handle_navigation env1 h self A_next uid1 kw1 in
  let t2 := handle_navigation env2 (out_heap t1.2) t1.1 A_prev uid2 kw2 in
  cursor t1.1 = cursor self + obj_count_per_page (config n)
  /\ t2.1 = self.
Proof.
  intros Hn Hcur Hps Hcond t1 t2.
  assert (Hb : (cursor self + obj_count_per_page (config n) <? Z.of_nat (length (children n)))
               || bool_decide (is_Some (config_loader_func (config n)))
               || bool_decide (is_Some (loader_func self)) = true).
  { destruct Hcond as [Hlt | [Hc | Hl]].
    - apply Z.ltb_lt in Hlt. by rewrite Hlt.
    - rewrite (bool_decide_eq_true_2 _ Hc). by rewrite orb_true_r.
    - rewrite (bool_decide_eq_true_2 _ Hl). by rewrite orb_true_r. }
  set (self1 := set_cursor (cursor self + obj_count_per_page (config n)) self).
  assert (Ht1 : t1 = (self1, _get_page_content env1 h self1 None (Some (page self1)) kw1)).
  { apply handle_navigation_render. unfold navigate. by rewrite Hn, Hb. }
  destruct (get_page_content_extends env1 h self1 None (Some (page self1)) kw1)
    as [_ Hext].
  destruct (Hext _ _ Hn) as (n' & Hn' & (_ & _ & Hcfg & _)).
  split; [by rewrite Ht1|].
  subst t2. rewrite Ht1. cbn [fst snd].
  unfold handle_navigation, navigate. change (page self1) with (page self) in *.
  rewrite Hn'. change (cursor self1) with (cursor self + obj_count_per_page (config n)).
  assert (Hpos : (0 <? cursor self + obj_count_per_page (config n)) = true) by lia.
  rewrite Hpos, Hcfg. cbn [fst]. unfold self1, set_cursor. cbn [page cursor loader_func
    formatter global_kbd].
  destruct self as [p c lf fm gk]. cbn in *. f_equal. lia.
Qed.

Lemma next_then_prev_witness :
  let t1 := handle_navigation three_entries faq_loaded (faq_engine [] None).2
                              A_next None [] in
  let t2 := handle_navigation three_entries (out_heap t1.2) t1.1 A_prev None [] in
  cursor t1.1 = 0 + 5 /\ t2.1 = (faq_engine [] None).2.
Proof.
  apply (next_then_prev three_entries three_entries faq_loaded (faq_engine [] None).2
           None None [] [] faq_root_loaded); [reflexivity|simpl; lia|reflexivity|].
  right. right. by eexists.
Defined.

(** ** A page size of zero (create_navigation, handle_navigation) *)

Lemma create_navigation_zero h P cur has_more :
  obj_count_per_page (config P) = 0 ->
  children P <> [] ->
  Forall (fun uc => is_Some (h !! uc.2)) (children P) ->
  create_navigation h P cur has_more = Raise ZeroDivisionError.
Proof.
  intros Hz Hne Hrefs. unfold create_navigation.
  assert (Hw : Forall (fun uc => is_Some (h !! uc.2)) (window P cur)).
  { unfold window, py_slice. destruct (children P); [constructor|].
    by apply Forall_take, Forall_drop. }
  assert (Hk : forall k, is_Some (child_buttons h (window P cur) k)).
  { induction Hw as [|[u c0] w [m Hm] Hw IH]; intros k; simpl; [done|].
    simpl in Hm. rewrite Hm. apply IH. }
  destruct (Hk []) as [k0 ->]. rewrite Hz.
  assert (Hlen : (0 <? Z.of_nat (length (children P))) = true).
  { destruct (children P); [done|]. cbn [length]. apply Z.ltb_lt. lia. }
  rewrite Hlen. by destruct (0 <? cur).
Qed.

(** X8: a node configured with a page size of 0 that has a child cannot
    be shown or returned to: building its navigation raises
    [ZeroDivisionError] at the page number, so no render of it yields a
    page, and [up] from one of its children raises the same error before
    the engine changes and without any render. *)
Theorem zero_page_size_fails env h self func kw P c C :
  tree_wf h ->
  h !! page self = Some P ->
  obj_count_per_page (config P) = 0 ->
  children P <> [] ->
  h !! c = Some C -> parent C = Some (page self) ->
  is_Some (dict_index (children P) (uid C)) ->
  (forall cur has_more, create_navigation h P cur has_more = Raise ZeroDivisionError)
  /\ (forall r, out_result (_get_page_content env h self func None kw) <> Ok r)
  /\ handle_navigation env h (set_page c self) A_up None kw
     = (set_page c self,
        {| out_heap := h; out_trace := []; out_result := Raise ZeroDivisionError |}).
Proof.
  intros Hwf HP Hz Hne HC Hpar [idx Hidx].
  split; [|split].
  - intros cur has_more. apply create_navigation_zero; [done..|].
    by apply (tree_wf_refs h (page self)).
  - intros r Hr.
    pose proof (render_tree_wf env h self func None kw Hwf) as Hwf'.
    destruct (get_page_content_extends env h self func None kw) as [_ Hext].
    destruct (get_page_content_ok _ _ _ _ _ _ _ Hr) as (P' & hm & HP' & Hb).
    destruct (Hext _ _ HP) as (P'' & HP'' & (_ & _ & Hcfg & _ & _ & Hpre)).
    cbn [default] in HP'. change (id (page self)) with (page self) in HP'.
    unfold default in HP'. simpl in HP'. rewrite HP'' in HP'. injection HP' as ->.
    apply build_page_buttons in Hb as (nav & sizes & Hnav & _).
    rewrite create_navigation_zero in Hnav; [done|by rewrite Hcfg| |].
    + intros Hnil. rewrite Hnil in Hpre. destruct Hpre as [k Hk].
      destruct (children P); [done|]. discriminate.
    + by apply (tree_wf_refs _ (page self)).
  - unfold handle_navigation, navigate. cbn [page set_page].
    rewrite HC, Hpar, HP, Hidx, Hz. done.
Qed.

Lemma zero_page_size_fails_witness :
  (forall cur has_more,
      create_navigation zero_sized zero_sized_root cur has_more = Raise ZeroDivisionError)
  /\ (forall r, out_result (_get_page_content failing_source zero_sized catalog_engine
                                              None None []) <> Ok r)
  /\ handle_navigation failing_source zero_sized (set_page 1%nat catalog_engine) A_up None []
     = (set_page 1%nat catalog_engine,
        {| out_heap := zero_sized; out_trace := [];
           out_result := Raise ZeroDivisionError |}).
Proof.
  apply (zero_page_size_fails failing_source zero_sized catalog_engine None []
           zero_sized_root 1%nat (default catalog_root (zero_sized !! 1%nat)));
    [|reflexivity|reflexivity|discriminate|reflexivity|reflexivity|by eexists].
  intros [|[|l]] n Hn; try done; injection Hn as <-.
  - split; [apply NoDup_singleton|]. intros u c Hin.
    apply list_elem_of_singleton in Hin. injection Hin as -> ->.
    eexists. by split.
  - split; [apply NoDup_nil_2|]. intros u c Hin. by apply elem_of_nil in Hin.
Defined.

(** ** The window and the layout (KeyboardBuilder.create_navigation) *)

Lemma window_take_drop page cur :
  0 <= cur -> 0 <= obj_count_per_page (config page) ->
  window page cur
  = take (Z.to_nat (obj_count_per_page (config page)))
         (drop (Z.to_nat cur) (children page)).
Proof.
  intros Hcur Hps. set (per_page := Z.to_nat (obj_count_per_page (config page))).
  unfold window. destruct (children page) as [|x xs] eqn:Hc.
  { by rewrite drop_nil, take_nil. }
  rewrite <- Hc. clear Hc x xs. set (l := children page).
  unfold py_slice, py_clamp.
  assert (H1 : (cur <? 0) = false) by lia.
  assert (H2 : (cur + obj_count_per_page (config page) <? 0) = false) by lia.
  rewrite H1, H2.
  destruct (decide (Z.of_nat (length l) <= cur)) as [Hpast|Hin].
  - rewrite !drop_ge by lia. by rewrite !take_nil.
  - rewrite (Z.min_l cur) by lia.
    destruct (decide (cur + obj_count_per_page (config page) <= Z.of_nat (length l)))
      as [Hfit|Hover].
    + rewrite Z.min_l by lia. subst per_page. f_equal. lia.
    + rewrite Z.min_r by lia.
      rewrite !take_ge; [done| |]; rewrite length_drop; subst per_page; lia.
Qed.

(** X9: for a non-negative cursor and page size the children shown are
    exactly those at positions [cursor, cursor + page size) of the known
    children, in order: at most a page of them, none when the cursor is at
    or past the end, and the [i]-th shown is child [cursor + i]. *)
Theorem window_is_page page cur :
  0 <= cur -> 0 <= obj_count_per_page (config page) ->
  let per_page := Z.to_nat (obj_count_per_page (config page)) in
  window page cur = take per_page (drop (Z.to_nat cur) (children page))
  /\ (length (window page cur) <= per_page)%nat
  /\ (Z.of_nat (length (children page)) <= cur -> window page cur = [])
  /\ (forall i, (i < per_page)%nat ->
                window page cur !! i = children page !! (Z.to_nat cur + i)%nat).
Proof.
  intros Hcur Hps per_page.
  pose proof (window_take_drop page cur Hcur Hps) as Hw. fold per_page in Hw.
  split; [done|]. rewrite Hw. split; [rewrite length_take; lia|]. split.
  - intros Hpast. rewrite drop_ge by lia. apply take_nil.
  - intros i Hi. rewrite lookup_take_lt by done. by rewrite lookup_drop.
Qed.

Lemma window_is_page_witness :
  window catalog_root_twelve 10
  = take 5%nat (drop 10%nat (children catalog_root_twelve))
  /\ (length (window catalog_root_twelve 10) <= 5)%nat
  /\ (12 <= 10 -> window catalog_root_twelve 10 = [])
  /\ (forall i, (i < 5)%nat ->
                window catalog_root_twelve 10 !! i
                = children catalog_root_twelve !! (10 + i)%nat).
Proof.
  apply (window_is_page catalog_root_twelve 10); simpl; lia.
Defined.

Lemma total_slots_app a b : total_slots (a ++ b) = total_slots a + total_slots b.
Proof. unfold total_slots. induction a as [|x a IH]; simpl; lia. Qed.

Lemma child_sizes_spec (n : nat) :
  total_slots (child_sizes (Z.of_nat n)) = Z.of_nat n
  /\ Forall (fun s => 1 <= s <= 3) (child_sizes (Z.of_nat n)).
Proof.
  unfold child_sizes. destruct (0 <? Z.of_nat n) eqn:Hpos;
    [|split; [unfold total_slots; cbn [foldr]; lia|done]].
  assert (Hrep : forall k, total_slots (replicate k 2) = 2 * Z.of_nat k
                           /\ Forall (fun s => 1 <= s <= 3) (replicate k 2)).
  { induction k as [|k [IH1 IH2]]; [by split|]. split.
    - cbn [replicate]. unfold total_slots in *. cbn [foldr]. lia.
    - constructor; [lia|done]. }
  destruct (Hrep (Z.to_nat (Z.of_nat n / 2))) as [Hsum Hall].
  pose proof (Z.div_mod (Z.of_nat n) 2 ltac:(lia)) as Hdm.
  pose proof (Z.mod_pos_bound (Z.of_nat n) 2 ltac:(lia)) as Hmod.
  assert (Hq : 0 <= Z.of_nat n / 2) by (apply Z.div_pos; lia).
  rewrite total_slots_app, Hsum. rewrite Z2Nat.id by done.
  destruct (Z.of_nat n mod 2 =? 1) eqn:Hodd; split.
  - unfold total_slots at 1. cbn [foldr]. lia.
  - apply Forall_app. split; [done|]. constructor; [lia|done].
  - unfold total_slots at 1. cbn [foldr]. lia.
  - apply Forall_app. by split.
Qed.

Lemma filter_positive_sizes (sizes : list Z) :
  Forall (fun s => 1 <= s <= 3) sizes -> filter (fun s => 0 < s) sizes = sizes.
Proof.
  induction 1 as [|x l Hx Hl IH]; [done|].
  rewrite filter_cons, decide_True by lia. by rewrite IH.
Qed.

(** X10: the row sizes [create_navigation] returns provide one slot for
    every child of the window and every control it places, in rows of one
    to three buttons, and the keyboard never has more buttons than slots. *)
Theorem navigation_layout h page cur has_more kbd sizes :
  create_navigation h page cur has_more = Ok (kbd, sizes) ->
  total_slots sizes
  = Z.of_nat (length (window page cur))
    + Z.of_nat (length (control_buttons page cur has_more))
  /\ Forall (fun s => 1 <= s <= 3) sizes
  /\ Z.of_nat (length kbd) <= total_slots sizes.
Proof.
  intros E.
  assert (Hs : total_slots sizes
               = Z.of_nat (length (window page cur))
                 + Z.of_nat (length (control_buttons page cur has_more))
               /\ Forall (fun s => 1 <= s <= 3) sizes).
  { destruct (child_sizes_spec (length (window page cur))) as [Hsum Hall].
    revert E. unfold create_navigation, control_buttons.
    destruct (child_buttons h (window page cur) []) as [k0|]; [|discriminate].
    set (cs := child_sizes _) in *.
    destruct (0 <? cur); destruct (_ <? Z.of_nat _); destruct (_ =? 0);
      cbn [andb]; try discriminate;
      destruct has_more; destruct (parent page); cbn -[total_slots];
      intros [= _ <-];
      (rewrite filter_positive_sizes;
       [ rewrite ?total_slots_app; split;
         [ rewrite Hsum; simpl; lia
         | rewrite ?Forall_app; repeat split; try done;
           repeat constructor; lia ]
       | rewrite ?Forall_app; repeat split; try done; repeat constructor; lia ]). }
  destruct Hs as [Hsum Hall]. split; [done|]. split; [done|].
  apply create_navigation_keyboard in E as (k0 & Hk0 & ->).
  pose proof (child_buttons_length _ _ _ _ Hk0) as H1.
  pose proof (set_controls_length k0 (control_buttons page cur has_more)) as H2.
  cbn [length] in H1. lia.
Qed.

Lemma navigation_layout_witness :
  exists kbd sizes,
    create_navigation twelve_known catalog_root_twelve 5 true = Ok (kbd, sizes)
    /\ total_slots sizes = 5 + 3
    /\ Forall (fun s => 1 <= s <= 3) sizes
    /\ Z.of_nat (length kbd) <= total_slots sizes.
Proof.
  eexists _, _. split; [vm_compute; reflexivity|].
  apply (navigation_layout twelve_known catalog_root_twelve 5 true). reflexivity.
Defined.
(** ** The content sources (faq_loader_function, catalog_loader_function) *)

Lemma qs_slice_nonneg {A} (rows : list A) start count :
  0 <= start -> 0 <= count ->
  qs_slice rows start (start + count)
  = Some (take (Z.to_nat count) (drop (Z.to_nat start) rows)).
Proof.
  intros Hs Hc. unfold qs_slice.
  assert (H1 : (start <? 0) = false) by lia.
  assert (H2 : (start + count <? 0) = false) by lia.
  rewrite H1, H2. cbn [orb]. do 3 f_equal. lia.
Qed.

(** Fetching one row more than the page holds tells whether rows follow
    the page, and dropping that row leaves the page. *)
Lemma lookahead_page {A} (rows : list A) (cursor limit : Z) :
  0 <= cursor -> 0 <= limit ->
  let fetched := take (Z.to_nat (limit + 1)) (drop (Z.to_nat cursor) rows) in
  (limit <? Z.of_nat (length fetched)) = (cursor + limit <? Z.of_nat (length rows))
  /\ ((limit <? Z.of_nat (length fetched)) = true ->
      length fetched = Z.to_nat (limit + 1)
      /\ take (length fetched - 1) fetched
         = take (Z.to_nat limit) (drop (Z.to_nat cursor) rows))
  /\ ((limit <? Z.of_nat (length fetched)) = false ->
      fetched = take (Z.to_nat limit) (drop (Z.to_nat cursor) rows)).
Proof.
  intros Hc Hl fetched.
  assert (Hlen : length fetched
                 = (Z.to_nat (limit + 1) `min` (length rows - Z.to_nat cursor))%nat).
  { unfold fetched. by rewrite length_take, length_drop. }
  split; [|split].
  - destruct (Z.ltb_spec limit (Z.of_nat (length fetched)));
      destruct (Z.ltb_spec (cursor + limit) (Z.of_nat (length rows))); lia.
  - intros H. apply Z.ltb_lt in H.
    assert (Hf : length fetched = Z.to_nat (limit + 1)) by lia.
    split; [done|]. rewrite Hf. unfold fetched. rewrite take_take. f_equal. lia.
  - intros H. apply Z.ltb_ge in H. unfold fetched.
    assert (Hd : (length (drop (Z.to_nat cursor) rows) <= Z.to_nat limit)%nat).
    { rewrite length_drop. lia. }
    rewrite !take_ge; [done|lia|lia].
Qed.

(** The shared tail of the FAQ and cart sources: drop the extra row,
    build the nodes, answer [None] for an empty page. *)
Lemma lookahead_nodes {A} (node : A -> NewNode) (rows : list A) (cursor limit : Z) :
  0 <= cursor -> 0 <= limit ->
  (let '(db_entries, has_more) :=
     match take (Z.to_nat (limit + 1)) (drop (Z.to_nat cursor) rows) with
     | [] => ([], false)
     | _ :: _ =>
         if limit <? Z.of_nat (length (take (Z.to_nat (limit + 1))
                                            (drop (Z.to_nat cursor) rows)))
         then (list_pop (take (Z.to_nat (limit + 1)) (drop (Z.to_nat cursor) rows)), true)
         else (take (Z.to_nat (limit + 1)) (drop (Z.to_nat cursor) rows), false)
     end in
   LoaderReturns
     (match node <$> db_entries with
      | [] => None
      | _ :: _ => Some (node <$> db_entries)
      end) has_more)
  = LoaderReturns
      (match take (Z.to_nat limit) (drop (Z.to_nat cursor) rows) with
       | [] => None
       | entry :: entries => Some (node <$> entry :: entries)
       end)
      (cursor + limit <? Z.of_nat (length rows)).
Proof.
  intros Hc Hl.
  destruct (lookahead_page rows cursor limit Hc Hl) as (Hmore & Hpop & Hkeep).
  cbv zeta in Hmore, Hpop, Hkeep.
  set (fetched := take (Z.to_nat (limit + 1)) (drop (Z.to_nat cursor) rows)) in *.
  rewrite <- Hmore.
  destruct fetched as [|e es] eqn:Hf.
  - assert (H0 : (limit <? Z.of_nat (length (@nil A))) = false)
      by (apply Z.ltb_ge; cbn [length]; lia).
    by rewrite <- (Hkeep H0), H0.
  - destruct (limit <? Z.of_nat (length (e :: es))) eqn:Hlt.
    + destruct (Hpop eq_refl) as [_ Hp]. unfold list_pop. rewrite Hp.
      by destruct (take (Z.to_nat limit) _).
    + by rewrite <- (Hkeep eq_refl).
Qed.

(** X11: with the database answering and non-negative arguments, the
    FAQ source returns the rows [cursor, cursor + limit) of the (filtered,
    ordered) query as leaf nodes, [None] in place of an empty page, and
    reports more data exactly when a row follows the page. *)
Theorem faq_loader_page table uid limit cursor kw rows :
  table (truthy_str (default None (dict_get kw "search"))) = Some rows ->
  0 <= cursor -> 0 <= limit ->
  faq_loader table uid limit cursor kw
  = LoaderReturns
      (match take (Z.to_nat limit) (drop (Z.to_nat cursor) rows) with
       | [] => None
       | entry :: entries => Some (faq_node <$> entry :: entries)
       end)
      (cursor + limit <? Z.of_nat (length rows)).
Proof.
  intros Htable Hc Hl. unfold faq_loader, _get_faq_entries_from_db.
  cbv zeta. rewrite Htable, qs_slice_nonneg by lia.
  by apply lookahead_nodes.
Qed.
Lemma faq_loader_page_witness :
  faq_loader sample_faq "faq_root" 5 5 [("search", None)]
  = LoaderReturns (Some (faq_node <$> drop 5 seven_entries)) false.
Proof.
  exact (faq_loader_page sample_faq "faq_root" 5 5 [("search", None)] seven_entries
           eq_refl ltac:(lia) ltac:(lia)).
Defined.
(** X12: the cart source pages over the user's cart lines in the same
    way: rows [cursor, cursor + limit) as leaf nodes that carry the
    delete action of their line, [None] for an empty page, more data
    exactly when a row follows. *)
Theorem cart_loader_page table uid limit cursor kw rows :
  table (default None (dict_get kw "telegram_id")) = Some rows ->
  0 <= cursor -> 0 <= limit ->
  cart_loader table uid limit cursor kw
  = LoaderReturns
      (match take (Z.to_nat limit) (drop (Z.to_nat cursor) rows) with
       | [] => None
       | entry :: entries => Some (cart_node <$> entry :: entries)
       end)
      (cursor + limit <? Z.of_nat (length rows)).
Proof.
  intros Htable Hc Hl. unfold cart_loader.
  cbv zeta. rewrite Htable. cbn [mbind option_bind].
  rewrite qs_slice_nonneg by lia.
  by apply lookahead_nodes.
Qed.
Lemma cart_loader_page_witness :
  cart_loader sample_cart "cart_root" 2 0 [("telegram_id", Some "42")]
  = LoaderReturns (Some (cart_node <$> take 2 three_lines)) true.
Proof.
  exact (cart_loader_page sample_cart "cart_root" 2 0 [("telegram_id", Some "42")]
           three_lines eq_refl ltac:(lia) ltac:(lia)).
Defined.
Lemma py_slice_but_last {A} (l : list A) :
  py_slice l 0 (-1) = take (length l - 1) l.
Proof.
  unfold py_slice, py_clamp. cbn [Z.ltb Z.compare].
  rewrite Z.min_l by lia. cbn [Z.to_nat drop]. f_equal. lia.
Qed.

Lemma fetch_is_slice db kind cursor count :
  0 <= cursor -> 1 <= count ->
  _fetch_data_from_db_sync db kind cursor count
  = Some (take (Z.to_nat count) (drop (Z.to_nat cursor) (catalog_rows db kind))).
Proof.
  intros Hc He. unfold _fetch_data_from_db_sync, catalog_rows.
  destruct kind as [|pid].
  - rewrite qs_slice_nonneg by lia. cbn [fmap option_fmap option_map].
    by rewrite fmap_take, fmap_drop.
  - cbv zeta.
    set (subs := subcategories db pid). set (prods := products_of db pid).
    rewrite drop_app, take_app, length_drop, !length_fmap.
    destruct (Z.ltb_spec cursor (Z.of_nat (length subs))) as [Hin|Hout].
    + rewrite qs_slice_nonneg by lia. cbn [fmap option_fmap option_map].
      rewrite length_fmap, length_take, length_drop.
      rewrite fmap_take, fmap_drop.
      set (subs' := ItemCategory <$> subs).
      destruct (Z.ltb_spec 0
                  (count - Z.of_nat (Z.to_nat (count `min` (Z.of_nat (length subs) - cursor))
                                     `min` (length subs - Z.to_nat cursor))%nat))
        as [Hrem|Hrem].
      * rewrite Z.max_l by lia. rewrite qs_slice_nonneg by lia.
        cbn [Z.to_nat drop]. rewrite fmap_take.
        f_equal. f_equal.
        -- rewrite !take_ge; [done| |]; unfold subs'; rewrite length_drop, length_fmap; lia.
        -- replace (Z.to_nat cursor - length subs)%nat with 0%nat by lia.
           cbn [drop]. f_equal. lia.
      * f_equal.
        replace (Z.to_nat count - (length subs - Z.to_nat cursor))%nat with 0%nat by lia.
        rewrite take_0, app_nil_r. f_equal. lia.
    + cbn [length]. 
      assert (Hrem : (0 <? count - Z.of_nat 0) = true) by (apply Z.ltb_lt; lia).
      rewrite Hrem.
      rewrite Z.max_r by lia. rewrite qs_slice_nonneg by lia.
      rewrite (drop_ge (ItemCategory <$> subs)) by (rewrite length_fmap; lia).
      cbn [app take]. rewrite take_nil. cbn [app].
      rewrite fmap_take, fmap_drop. do 2 f_equal; [lia|f_equal; lia].
Qed.

Lemma catalog_loader_rows py_int db uid kind limit cursor kw :
  catalog_node_kind py_int uid = Some kind ->
  0 <= cursor -> 0 <= limit ->
  catalog_loader py_int (Some db) uid limit cursor kw
  = LoaderReturns
      (Some (catalog_node
               <$> take (Z.to_nat limit) (drop (Z.to_nat cursor) (catalog_rows db kind))))
      (cursor + limit <? Z.of_nat (length (catalog_rows db kind))).
Proof.
  intros Hkind Hc Hl. unfold catalog_loader. cbv zeta. rewrite Hkind.
  cbn [mbind option_bind]. rewrite fetch_is_slice by lia.
  destruct (lookahead_page (catalog_rows db kind) cursor limit Hc Hl)
    as (Hmore & Hpop & Hkeep).
  cbv zeta in Hmore, Hpop, Hkeep.
  set (fetched := take (Z.to_nat (limit + 1)) (drop (Z.to_nat cursor) (catalog_rows db kind)))
    in *.
  rewrite <- Hmore.
  destruct (limit <? Z.of_nat (length fetched)) eqn:Hlt.
  - destruct (Hpop eq_refl) as [Hlen Hp].
    assert (Heq : (Z.of_nat (length fetched) =? limit + 1) = true) by lia.
    rewrite Heq, py_slice_but_last, Hp. done.
  - apply Z.ltb_ge in Hlt.
    assert (Heq : (Z.of_nat (length fetched) =? limit + 1) = false) by lia.
    rewrite Heq, <- Hkeep; done.
Qed.

(** X13: with the database answering, a well-formed uid and a
    non-negative limit, the catalog source pages over the sub-categories
    followed by the products of the category (the top-level categories for
    the root): for a non-negative cursor it returns the rows
    [cursor, cursor + limit) of that sequence and reports more data exactly
    when a row follows; a negative cursor is refused by the queryset and
    answered with [(None, False)]. *)
Theorem catalog_loader_page py_int db uid kind limit cursor kw :
  catalog_node_kind py_int uid = Some kind ->
  0 <= limit ->
  (0 <= cursor ->
   catalog_loader py_int (Some db) uid limit cursor kw
   = LoaderReturns
       (Some (catalog_node
                <$> take (Z.to_nat limit) (drop (Z.to_nat cursor) (catalog_rows db kind))))
       (cursor + limit <? Z.of_nat (length (catalog_rows db kind))))
  /\ (cursor < 0 ->
      catalog_loader py_int (Some db) uid limit cursor kw = LoaderReturns None false).
Proof.
  intros Hkind Hl. split; [intros Hc; by apply catalog_loader_rows|].
  intros Hneg. unfold catalog_loader. cbv zeta. rewrite Hkind. cbn [mbind option_bind].
  assert (Hfetch : _fetch_data_from_db_sync db kind cursor (limit + 1) = None).
  { unfold _fetch_data_from_db_sync, qs_slice.
    assert (H0 : (cursor <? 0) = true) by (apply Z.ltb_lt; lia).
    destruct kind as [|pid]; [by rewrite H0|]. cbv zeta.
    assert (H1 : (cursor <? Z.of_nat (length (subcategories db pid))) = true)
      by (apply Z.ltb_lt; lia).
    by rewrite H1, H0. }
  by rewrite Hfetch.
Qed.

Lemma catalog_loader_page_witness :
  catalog_loader decimal_int (Some sample_catalog) "category_1" 2 0 []
  = LoaderReturns
      (Some (catalog_node
               <$> take 2 (catalog_rows sample_catalog (KindCategory 1))))
      true.
Proof.
  destruct (catalog_loader_page decimal_int sample_catalog "category_1" (KindCategory 1) 2 0 []
              eq_refl ltac:(lia)) as [Hpage _].
  apply Hpage. lia.
Defined.

(** ** A database failure behind a content source *)

(** A render whose loader call brings no data leaves the tree as it was
    and builds the page from the known children. *)
Lemma get_page_content_no_data env h self func page_arg kw tp :
  h !! default (page self) page_arg = Some tp ->
  (forall f, resolve_loader func self tp = Some f ->
             env f (uid tp) (obj_count_per_page (config tp))
                 (Z.of_nat (length (children tp))) kw = LoaderReturns None false) ->
  let out := _get_page_content env h self func page_arg kw in
  out_heap out = h
  /\ out_result out
     = build_page h self tp
         (negb (is_leaf_node (content tp))
          && (cursor self + obj_count_per_page (config tp)
              <? Z.of_nat (length (children tp)))).
Proof.
  intros Htp Henv. cbv zeta. unfold _get_page_content. cbv zeta. rewrite Htp.
  unfold load_step.
  destruct (is_leaf_node (content tp)); cbn [negb andb out_result out_heap].
  { by rewrite Htp. }
  destruct (_ <? Z.of_nat _) eqn:Hlt; cbn [out_result out_heap].
  { by rewrite Htp. }
  destruct (_ <=? _); cbn [out_result out_heap]; [|by rewrite Htp].
  destruct (resolve_loader func self tp) as [f|] eqn:Hf; cbn [out_result out_heap];
    [|by rewrite Htp].
  unfold _load_data. rewrite (Henv f eq_refl). cbn [out_result out_heap].
  by rewrite Htp.
Qed.

(** X14: a database failure behind the FAQ or the catalog source does
    not surface in the render: the tree is left as it was and the page is
    built from the children already known, with a next button only when
    known children lie beyond the window. *)
Theorem database_outage_is_silent py_int faq cart h self func page_arg kw tp f :
  h !! default (page self) page_arg = Some tp ->
  resolve_loader func self tp = Some f ->
  f = faq_loader_function \/ f = catalog_loader_function ->
  faq (truthy_str (default None (dict_get kw "search"))) = None ->
  let out := _get_page_content (scene_sources py_int faq None cart) h self func page_arg kw in
  out_heap out = h
  /\ out_result out
     = build_page h self tp
         (negb (is_leaf_node (content tp))
          && (cursor self + obj_count_per_page (config tp)
              <? Z.of_nat (length (children tp)))).
Proof.
  intros Htp Hf Hwhich Hfaq. apply get_page_content_no_data; [done|].
  intros f' Hf'. rewrite Hf in Hf'. injection Hf' as <-.
  destruct Hwhich as [-> | ->]; unfold scene_sources.
  - rewrite decide_True by done.
    unfold faq_loader, _get_faq_entries_from_db. cbv zeta. by rewrite Hfaq.
  - rewrite decide_False by done. rewrite decide_True by done.
    unfold catalog_loader. cbv zeta. by destruct (catalog_node_kind py_int (uid tp)).
Qed.

(** X15: the same failure behind the cart source makes the render
    raise at the loader call, before anything is attached: the bare [None]
    the source returns cannot be unpacked. *)
Theorem cart_outage_breaks_render py_int faq catalog cart h self func page_arg kw tp :
  h !! default (page self) page_arg = Some tp ->
  is_leaf_node (content tp) = false ->
  Z.of_nat (length (children tp)) <= cursor self + obj_count_per_page (config tp) ->
  resolve_loader func self tp = Some cart_loader_function ->
  cart (default None (dict_get kw "telegram_id")) = None ->
  let out :=
    _get_page_content (scene_sources py_int faq catalog cart) h self func page_arg kw in
  out_result out = Raise LoaderError /\ out_heap out = h.
Proof.
  intros Htp Hleaf Hedge Hf Hcart. cbv zeta. unfold _get_page_content. cbv zeta.
  rewrite Htp, Hf.
  destruct (load_step_spec (scene_sources py_int faq catalog cart) h self
              (default (page self) page_arg) tp (Some cart_loader_function) kw Hleaf)
    as [_ Hload].
  rewrite (Hload Hedge). unfold _load_data, scene_sources.
  rewrite decide_False by done. rewrite decide_False by done.
  unfold cart_loader. cbv zeta. rewrite Hcart. done.
Qed.
Lemma database_outage_is_silent_witness :
  let faq := (faq_engine [] None).2 in
  let out :=
    _get_page_content (scene_sources decimal_int faq_down None cart_down) [faq_root] faq
                      None None [("search", None)] in
  out_heap out = [faq_root]
  /\ out_result out = build_page [faq_root] faq faq_root false.
Proof.
  exact (database_outage_is_silent decimal_int faq_down cart_down [faq_root]
           (faq_engine [] None).2 None None [("search", None)] faq_root faq_loader_function
           eq_refl eq_refl (or_introl eq_refl) eq_refl).
Defined.

Lemma cart_outage_breaks_render_witness :
  let out :=
    _get_page_content (scene_sources decimal_int sample_faq (Some sample_catalog) cart_down)
                      [cart_root] cart_engine None None [("telegram_id", Some "42")] in
  out_result out = Raise LoaderError /\ out_heap out = [cart_root].
Proof.
  apply (cart_outage_breaks_render decimal_int sample_faq (Some sample_catalog) cart_down
           [cart_root] cart_engine None None [("telegram_id", Some "42")] cart_root);
    [reflexivity|reflexivity|simpl; lia|reflexivity|reflexivity].
Defined.
(** ** Paging forward through the FAQ (FAQ.on_enter, FAQ.handle_navigation) *)

Lemma py_str_inj a b : py_str a = py_str b -> a = b.
Proof.
  unfold py_str. intros H. apply DecimalZ.to_int_inj.
  assert (Hn : forall z, Z.to_int z <> Decimal.Pos Decimal.Nil
                         /\ Z.to_int z <> Decimal.Neg Decimal.Nil).
  { intros [|p|p]; simpl; split; try discriminate; intros E; injection E;
      apply DecimalPos.Unsigned.to_uint_nonnil. }
  apply (f_equal NilZero.int_of_string) in H.
  rewrite !NilZero.isi in H by apply Hn. by injection H.
Qed.

Lemma faq_uids_NoDup (rows : list FAQEntry) :
  NoDup (entry_id <$> rows) -> NoDup (new_uid <$> (faq_node <$> rows)).
Proof.
  intros Hnd.
  assert (Hstr : Inj (=) (=) py_str) by (intros a b; apply py_str_inj).
  assert (Hpre : Inj (=) (=) (String.append "faq_")) by (intros a b E; by injection E).
  apply (NoDup_fmap_2 py_str) in Hnd.
  apply (NoDup_fmap_2 (String.append "faq_")) in Hnd.
  rewrite <- !list_fmap_compose in *. exact Hnd.
Qed.

Lemma add_children_app h self a b :
  add_children (add_children h self a) self b = add_children h self (a ++ b).
Proof. unfold add_children. by rewrite foldl_app. Qed.

(** The FAQ root once the first [m] rows are attached. *)
Lemma faq_tree_root (rows : list FAQEntry) :
  NoDup (entry_id <$> rows) ->
  exists n,
    add_children [faq_root] 0%nat (faq_node <$> rows) !! 0%nat = Some n
    /\ children n = imap (fun i x => (new_uid x, (1 + i)%nat)) (faq_node <$> rows)
    /\ uid n = "faq_root" /\ config n = PaginatorConfig_default
    /\ is_leaf_node (content n) = false.
Proof.
  intros Hnd.
  destruct (add_children_self_fresh [faq_root] 0%nat (faq_node <$> rows) faq_root eq_refl
              (faq_uids_NoDup rows Hnd)) as (n & Hn & Hc).
  { intros x _. apply not_elem_of_nil. }
  exists n. split; [done|]. split; [done|].
  destruct (add_children_extends [faq_root] 0%nat (faq_node <$> rows)) as [_ Hext].
  destruct (Hext 0%nat faq_root eq_refl) as (n' & Hn' & Hu & _ & Hcfg & Hct & _).
  rewrite Hn in Hn'. injection Hn' as <-.
  by rewrite Hu, Hcfg, Hct.
Qed.

Section FaqForward.
Variable py_int : string -> option Z.
Variable faq : FAQTable.
Variable catalog : option CatalogDB.
Variable cart : CartTable.
Variable rows : list FAQEntry.
Hypothesis faq_rows : faq None = Some rows.
Hypothesis distinct_ids : NoDup (entry_id <$> rows).

Lemma faq_render (m : nat) (c : Z) :
  0 <= c -> Z.of_nat m <= c + 5 ->
  out_heap (_get_page_content (scene_sources py_int faq catalog cart)
              (add_children [faq_root] 0%nat (faq_node <$> take m rows))
              (set_cursor c (pg faq_start)) None (Some 0%nat) [("search", None)])
  = add_children [faq_root] 0%nat (faq_node <$> take (m + 5) rows).
Proof.
  intros Hc Hm.
  assert (Hnd : NoDup (entry_id <$> take m rows)).
  { rewrite fmap_take. eapply sublist_NoDup; [exact distinct_ids|apply sublist_take]. }
  destruct (faq_tree_root (take m rows) Hnd) as (n & Hn & Hch & Hu & Hcfg & Hleaf).
  assert (Hlen : length (children n) = (m `min` length rows)%nat).
  { by rewrite Hch, length_imap, length_fmap, length_take. }
  unfold _get_page_content. cbv zeta. simpl default. rewrite Hn.
  destruct (load_step_spec (scene_sources py_int faq catalog cart)
              (add_children [faq_root] 0%nat (faq_node <$> take m rows))
              (set_cursor c (pg faq_start)) 0%nat n
              (resolve_loader None (set_cursor c (pg faq_start)) n)
              [("search", None)] Hleaf) as [_ Hload].
  rewrite Hload by (rewrite Hlen, Hcfg; cbn; lia).
  assert (Hdata :
    out_heap (_load_data (scene_sources py_int faq catalog cart)
                (add_children [faq_root] 0%nat (faq_node <$> take m rows)) 0%nat n
                (resolve_loader None (set_cursor c (pg faq_start)) n) [("search", None)])
    = add_children [faq_root] 0%nat (faq_node <$> take (m + 5) rows)).
  { unfold _load_data. cbn [resolve_loader set_cursor loader_func pg faq_start faq_engine
                             snd Paginator_init].
    rewrite Hu, Hcfg, Hlen. cbn [obj_count_per_page PaginatorConfig_default].
    unfold scene_sources. rewrite decide_True by done.
    unfold faq_loader, _get_faq_entries_from_db. cbv zeta.
    change (truthy_str (default None (dict_get [("search", None)] "search")))
      with (@None string).
    rewrite faq_rows, qs_slice_nonneg by lia.
    rewrite (lookahead_nodes faq_node rows) by lia.
    cbn [out_heap]. rewrite Nat2Z.id.
    assert (Hjoin : take m rows ++ take 5 (drop (m `min` length rows) rows)
                    = take (m + 5) rows).
    { destruct (decide (m <= length rows)%nat) as [Hin|Hout].
      - rewrite Nat.min_l by done. apply take_take_drop.
      - rewrite Nat.min_r by lia. rewrite drop_all, take_nil, app_nil_r.
        rewrite !take_ge; [done|lia|lia]. }
    rewrite <- Hjoin, fmap_app, <- add_children_app.
    change (Z.to_nat 5) with 5%nat.
    by destruct (take 5 (drop (m `min` length rows) rows)). }
  destruct (out_result _); exact Hdata.
Qed.

Lemma faq_forward_state (k : nat) :
  run faq_start
      (EvShow (scene_sources py_int faq catalog cart) None [("search", None)]
       :: replicate k (EvNavigate (scene_sources py_int faq catalog cart) A_next None
                                  [("search", None)]))
  = {| heap := add_children [faq_root] 0%nat (faq_node <$> take (5 * (k + 1)) rows);
       pg := set_cursor (5 * Z.of_nat k) (pg faq_start) |}.
Proof.
  induction k as [|k IH].
  - cbn [replicate run foldl step]. unfold show_page, after. cbn [default fst snd].
    f_equal. exact (faq_render 0 0 ltac:(lia) ltac:(lia)).
  - rewrite replicate_S_end, app_comm_cons. unfold run in *. rewrite foldl_snoc, IH.
    cbn [step heap pg]. unfold handle_navigation, navigate.
    assert (Hnd : NoDup (entry_id <$> take (5 * (k + 1)) rows)).
    { rewrite fmap_take. eapply sublist_NoDup; [exact distinct_ids|apply sublist_take]. }
    destruct (faq_tree_root _ Hnd) as (n & Hn & _ & _ & Hcfg & _).
    cbn [page set_cursor pg faq_start faq_engine snd Paginator_init length].
    rewrite Hn, Hcfg.
    destruct (_ || _) eqn:Hcond.
    2:{ apply orb_false_elim in Hcond as [_ H]. apply bool_decide_eq_false in H.
        exfalso. apply H. by eexists. }
    unfold after, show_page. cbn [fst snd]. f_equal.
    + replace (5 * (S k + 1))%nat with (5 * (k + 1) + 5)%nat by lia.
      exact (faq_render (5 * (k + 1)) (5 * Z.of_nat k + 5) ltac:(lia) ltac:(lia)).
    + unfold set_cursor. cbn. f_equal. lia.
Qed.
End FaqForward.
(** X16: entering the FAQ and pressing next [k] times leaves the
    engine on the root with the cursor at [5 k]; the root then knows the
    first [5 (k + 1)] rows of the query, in query order and once each, and
    the window shown holds the rows [5 k, 5 k + 5): no entry is skipped or
    repeated, and past the last row the pages are empty. *)
Theorem faq_forward_paging py_int faq catalog cart rows (k : nat) :
  faq None = Some rows ->
  NoDup (entry_id <$> rows) ->
  let env := scene_sources py_int faq catalog cart in
  let kw := [("search", None)] in
  let s := run faq_start
               (EvShow env None kw :: replicate k (EvNavigate env A_next None kw)) in
  let uid_of := fun entry => "faq_" +:+ py_str (entry_id entry) in
  page (pg s) = 0%nat
  /\ cursor (pg s) = 5 * Z.of_nat k
  /\ length (heap s) = (1 + length (take (5 * (k + 1)) rows))%nat
  /\ exists root,
      current_node s = Some root
      /\ dict_keys (children root) = uid_of <$> take (5 * (k + 1)) rows
      /\ dict_keys (window root (cursor (pg s))) = uid_of <$> take 5 (drop (5 * k) rows).
Proof.
  intros Hrows Hnd env kw s uid_of. subst s env kw.
  rewrite (faq_forward_state py_int faq catalog cart rows Hrows Hnd k).
  unfold current_node. cbn [heap pg page cursor set_cursor faq_start faq_engine snd
                            Paginator_init].
  split; [done|]. split; [done|].
  split; [by rewrite add_children_length, length_fmap|].
  assert (Hnd' : NoDup (entry_id <$> take (5 * (k + 1)) rows)).
  { rewrite fmap_take. eapply sublist_NoDup; [exact Hnd|apply sublist_take]. }
  destruct (faq_tree_root _ Hnd') as (root & Hroot & Hch & _ & Hcfg & _).
  exists root. split; [done|].
  assert (Hkeys : dict_keys (children root) = uid_of <$> take (5 * (k + 1)) rows).
  { unfold dict_keys. rewrite Hch, fmap_imap, imap_fmap. apply imap_const. }
  split; [done|].
  rewrite window_take_drop by (rewrite ?Hcfg; cbn; lia).
  unfold dict_keys in *. rewrite fmap_take, fmap_drop, Hkeys, Hcfg.
  rewrite <- fmap_drop, <- fmap_take. f_equal.
  cbn [obj_count_per_page PaginatorConfig_default].
  change (Z.to_nat 5) with 5%nat.
  replace (Z.to_nat (5 * Z.of_nat k)) with (5 * k)%nat by lia.
  replace (5 * (k + 1))%nat with (5 * k + 5)%nat by lia.
  rewrite <- take_drop_commute. apply take_take.
Qed.

Lemma faq_forward_paging_witness :
  let env := scene_sources decimal_int sample_faq (Some sample_catalog) cart_down in
  let kw := [("search", None)] in
  let s := run faq_start [EvShow env None kw; EvNavigate env A_next None kw] in
  page (pg s) = 0%nat
  /\ cursor (pg s) = 5
  /\ length (heap s) = 8%nat
  /\ exists root,
      current_node s = Some root
      /\ dict_keys (children root)
         = ["faq_4"; "faq_7"; "faq_1"; "faq_2"; "faq_9"; "faq_3"; "faq_5"]
      /\ dict_keys (window root (cursor (pg s))) = ["faq_3"; "faq_5"].
Proof.
  apply (faq_forward_paging decimal_int sample_faq (Some sample_catalog) cart_down
           seven_entries 1 eq_refl).
  vm_compute. repeat constructor; rewrite ?elem_of_cons, ?elem_of_nil; intros H;
    repeat destruct H as [H|H]; discriminate || done.
Defined.
(** ** The uids of the catalog (catalog_loader_function) *)

Lemma split_on_free sep s : free_of sep s -> split_on sep s = [s].
Proof.
  induction s as [|c s IH]; simpl; [done|]. intros [Hc Hs].
  rewrite decide_False by done. by rewrite IH.
Qed.

Lemma split_on_sep sep p rest :
  free_of sep p -> split_on sep (p +:+ String sep rest) = p :: split_on sep rest.
Proof.
  induction p as [|c p IH]; simpl.
  - intros _. by rewrite decide_True.
  - intros [Hc Hp]. rewrite decide_False by done. by rewrite IH.
Qed.

Lemma digits_free (d : Decimal.uint) : free_of UNDERSCORE (NilEmpty.string_of_uint d).
Proof.
  induction d; cbn [NilEmpty.string_of_uint free_of]; [done|..];
    (split; [intros E; vm_compute in E; discriminate|done]).
Qed.

Lemma string_of_uint_free (d : Decimal.uint) :
  free_of UNDERSCORE (NilZero.string_of_uint d).
Proof.
  destruct d; try apply digits_free.
  cbn. split; [intros E; vm_compute in E; discriminate|done].
Qed.

Lemma py_str_free n : free_of UNDERSCORE (py_str n).
Proof.
  unfold py_str. destruct (Z.to_int n) as [d|d]; simpl.
  - apply string_of_uint_free.
  - split; [intros E; vm_compute in E; discriminate|apply string_of_uint_free].
Qed.

Lemma prefix_append p s : String.prefix p (p +:+ s) = true.
Proof.
  induction p as [|c p IH]; simpl; [by destruct s|].
  by destruct (Ascii.ascii_dec c c).
Qed.

Lemma category_uid_kind py_int c :
  py_int (py_str (category_id c)) = Some (category_id c) ->
  catalog_node_kind py_int (new_uid (catalog_node (ItemCategory c)))
  = Some (KindCategory (category_id c)).
Proof.
  intros Hint. unfold catalog_node_kind. cbn [catalog_node new_uid].
  rewrite decide_False by discriminate.
  rewrite prefix_append.
  change ("category_" +:+ py_str (category_id c))
    with ("category" +:+ String UNDERSCORE (py_str (category_id c))).
  rewrite split_on_sep by (vm_compute; repeat split; discriminate).
  rewrite split_on_free by apply py_str_free.
  cbn [lookup list_lookup]. by rewrite Hint.
Qed.

(** X17: the uid the catalog source gives a category node is one it
    reads back as that category (given that [int] reads back what [str]
    printed), so that expanding the node pages over that category; the
    uid of a product node is rejected without a database query, as a
    logged error answered with [(None, False)]. *)
Theorem catalog_uids_read_back py_int c p :
  py_int (py_str (category_id c)) = Some (category_id c) ->
  catalog_node_kind py_int (new_uid (catalog_node (ItemCategory c)))
  = Some (KindCategory (category_id c))
  /\ catalog_node_kind py_int (new_uid (catalog_node (ItemProduct p))) = None
  /\ forall db limit cursor kw,
      catalog_loader py_int db (new_uid (catalog_node (ItemProduct p))) limit cursor kw
      = LoaderReturns None false.
Proof.
  intros Hint.
  assert (Hprod : catalog_node_kind py_int (new_uid (catalog_node (ItemProduct p))) = None).
  { unfold catalog_node_kind. cbn [catalog_node new_uid].
    rewrite decide_False by discriminate. reflexivity. }
  split; [by apply category_uid_kind|split; [done|]].
  intros db limit cursor kw. unfold catalog_loader. cbv zeta. by rewrite Hprod.
Qed.

Lemma catalog_uids_read_back_witness :
  catalog_node_kind decimal_int "category_3" = Some (KindCategory 3)
  /\ catalog_node_kind decimal_int "product_10" = None
  /\ forall db limit cursor kw,
      catalog_loader decimal_int db "product_10" limit cursor kw = LoaderReturns None false.
Proof.
  exact (catalog_uids_read_back decimal_int
           {| category_id := 3; category_name := "Travel mugs" |}
           {| cp_id := 10; cp_name := "Blue mug"; cp_description := "0.3 l";
              cp_price := "450.00"; cp_stock := 12; cp_image := None |}
           eq_refl).
Defined.
(** ** Adding to the cart (add_product_to_user_cart, confirm, deny, add_to_cart) *)

Lemma add_product_spec db u q pid product :
  shop_products db pid = Some product -> u ∈ shop_users db ->
  0 <= in_cart db u pid -> 0 < q ->
  add_product_to_user_cart db u q pid
  = if decide (in_cart db u pid + q <= MAX_QUANTITY)
    then Some (set_cart (dict_set (shop_cart db) (u, pid) (in_cart db u pid + q)) db)
    else None.
Proof.
  intros Hp Hu H0 Hq. unfold add_product_to_user_cart, in_cart in *.
  rewrite Hp, bool_decide_eq_true_2 by done. cbv zeta.
  destruct (dict_get (shop_cart db) (u, pid)) as [q0|] eqn:Hget;
    cbn [default from_option id] in *.
  - assert (Hlo : (q0 + q <? 0) = false) by (apply Z.ltb_ge; lia). rewrite Hlo. cbn [orb].
    destruct (decide (q0 + q <= MAX_QUANTITY)) as [Hle|Hgt].
    + assert (Hhi : (MAX_QUANTITY <? q0 + q) = false) by (apply Z.ltb_ge; lia).
      by rewrite Hhi.
    + assert (Hhi : (MAX_QUANTITY <? q0 + q) = true) by (apply Z.ltb_lt; lia).
      by rewrite Hhi.
  - assert (Hlo : (q <? 0) = false) by (apply Z.ltb_ge; lia). rewrite Hlo. cbn [orb].
    rewrite Z.add_0_l.
    destruct (decide (q <= MAX_QUANTITY)) as [Hle|Hgt].
    + assert (Hhi : (MAX_QUANTITY <? q) = false) by (apply Z.ltb_ge; lia).
      by rewrite Hhi.
    + assert (Hhi : (MAX_QUANTITY <? q) = true) by (apply Z.ltb_lt; lia).
      by rewrite Hhi.
Qed.

(** X18: [add_product_to_user_cart] with a positive quantity succeeds
    exactly when the product exists, the user is registered and the
    user's line of the product, with the quantity added, still fits the
    integer column; it compares nothing with the stock.  When it succeeds
    the line holds the old quantity plus the new one (it is created when
    there was none) and every other line, the products and the users are
    as they were; when it raises, nothing is written. *)
Theorem cart_add_is_additive db u q pid :
  0 <= in_cart db u pid -> 0 < q ->
  match add_product_to_user_cart db u q pid with
  | Some db' =>
      is_Some (shop_products db pid) /\ u ∈ shop_users db
      /\ in_cart db u pid + q <= MAX_QUANTITY
      /\ dict_get (shop_cart db') (u, pid) = Some (in_cart db u pid + q)
      /\ (forall u' pid', (u', pid') <> (u, pid) ->
                          dict_get (shop_cart db') (u', pid')
                          = dict_get (shop_cart db) (u', pid'))
      /\ shop_products db' = shop_products db /\ shop_users db' = shop_users db
  | None =>
      shop_products db pid = None \/ (u ∉ shop_users db)
      \/ MAX_QUANTITY < in_cart db u pid + q
  end.
Proof.
  intros H0 Hq.
  destruct (shop_products db pid) as [product|] eqn:Hp.
  2:{ unfold add_product_to_user_cart. rewrite Hp. by left. }
  destruct (decide (u ∈ shop_users db)) as [Hu|Hu].
  2:{ unfold add_product_to_user_cart. rewrite Hp, bool_decide_eq_false_2 by done.
      right. by left. }
  rewrite (add_product_spec db u q pid product Hp Hu H0 Hq).
  destruct (decide (in_cart db u pid + q <= MAX_QUANTITY)) as [Hle|Hgt];
    [|right; right; lia].
  cbn [set_cart shop_cart shop_products shop_users].
  split; [done|]. split; [done|]. split; [done|].
  split; [by rewrite dict_get_set, decide_True|].
  split; [intros u' pid' Hne; by rewrite dict_get_set, decide_False|done].
Qed.

Lemma cart_add_is_additive_witness :
  match add_product_to_user_cart sample_shop 42 5 10 with
  | Some db' =>
      is_Some (shop_products sample_shop 10) /\ 42 ∈ shop_users sample_shop
      /\ 4 + 5 <= MAX_QUANTITY
      /\ dict_get (shop_cart db') (42, 10) = Some (4 + 5)
      /\ (forall u' pid', (u', pid') <> (42, 10) ->
                          dict_get (shop_cart db') (u', pid')
                          = dict_get (shop_cart sample_shop) (u', pid'))
      /\ shop_products db' = shop_products sample_shop
      /\ shop_users db' = shop_users sample_shop
  | None =>
      shop_products sample_shop 10 = None \/ (42 ∉ shop_users sample_shop)
      \/ MAX_QUANTITY < 4 + 5
  end.
Proof.
  apply (cart_add_is_additive sample_shop 42 5 10); [vm_compute; discriminate|lia].
Defined.

(** X19: [confirm] and [deny] always clear the processing data.
    [confirm] writes to the cart only when the data holds both a product
    and a quantity and the addition succeeds, and then exactly that
    quantity goes to that user's line of that product; in every other case
    the database is left as it was. *)
Theorem confirm_settles db u data :
  (deny data).1 = {| product_processing := None |}
  /\ (confirm db u data).1.1 = {| product_processing := None |}
  /\ match (confirm db u data).2 with
     | ProductAdded =>
         exists pid q,
           product_processing data = Some {| product_id := Some pid; quantity := Some q |}
           /\ add_product_to_user_cart db u q pid = Some (confirm db u data).1.2
     | AddFailed | StateMissing => (confirm db u data).1.2 = db
     end.
Proof.
  split; [done|]. unfold confirm.
  destruct (product_processing data) as [[[pid|] [q|]]|]; try done.
  destruct (add_product_to_user_cart db u q pid) as [db'|] eqn:Hadd; cbn [fst snd]; [|done].
  split; [done|]. by exists pid, q.
Qed.

(** X20: the flow from the "Add to cart" button to "Confirm" for an
    existing product and a registered user, whatever was stored before.  A
    quantity between 1 and the stock is accepted by [set_quantity];
    [confirm] then adds it to the user's line of the product, whatever the
    line already held and without another look at the stock, unless the
    sum no longer fits the integer column, in which case [confirm] answers
    that the addition failed and the cart is as before.  Any other number
    is refused by [set_quantity]; a following [confirm] finds no quantity
    and leaves the cart untouched.  In every case the processing data is
    cleared. *)
Theorem add_to_cart_flow db u pid product q data :
  shop_products db pid = Some product -> u ∈ shop_users db -> 0 <= in_cart db u pid ->
  let entered := add_to_cart db pid data in
  let asked := set_quantity (Some q) entered.1 (shop_products db) in
  let done := confirm db u asked.1 in
  entered.2 = SetQuantityState
  /\ done.1.1 = {| product_processing := None |}
  /\ (1 <= q <= stock product ->
      asked.2 = ConfirmPrompt product q
      /\ (in_cart db u pid + q <= MAX_QUANTITY ->
          done.2 = ProductAdded
          /\ dict_get (shop_cart done.1.2) (u, pid) = Some (in_cart db u pid + q)
          /\ (forall u' pid', (u', pid') <> (u, pid) ->
                              dict_get (shop_cart done.1.2) (u', pid')
                              = dict_get (shop_cart db) (u', pid'))
          /\ shop_products done.1.2 = shop_products db
          /\ shop_users done.1.2 = shop_users db)
      /\ (MAX_QUANTITY < in_cart db u pid + q ->
          done.2 = AddFailed /\ done.1.2 = db))
  /\ (~ 1 <= q <= stock product ->
      asked.2 = QuantityOutOfRange (stock product)
      /\ done.2 = StateMissing /\ done.1.2 = db).
Proof.
  intros Hp Hu H0. cbv zeta. unfold add_to_cart. rewrite Hp. cbn [fst snd].
  unfold set_quantity. cbn [product_processing]. rewrite Hp.
  destruct (negb ((0 <? q) && (q <=? stock product))) eqn:Hrange; cbn [fst snd].
  - apply negb_true_iff, andb_false_iff in Hrange.
    split; [done|]. split; [done|]. split; [intros Hin; destruct Hrange; lia|].
    intros _. done.
  - apply negb_false_iff, andb_true_iff in Hrange as [Hlo Hhi].
    split; [done|]. unfold confirm. cbn [product_processing].
    rewrite (add_product_spec db u q pid product Hp Hu H0) by lia.
    destruct (decide (in_cart db u pid + q <= MAX_QUANTITY)) as [Hle|Hgt]; cbn [fst snd].
    + split; [done|]. split; [|intros Hout; lia].
      intros _. split; [done|]. split; [|intros Hover; lia].
      intros _. split; [done|]. cbn [set_cart shop_cart shop_products shop_users].
      split; [by rewrite dict_get_set, decide_True|].
      split; [intros u' pid' Hne; by rewrite dict_get_set, decide_False|done].
    + split; [done|]. split; [|intros Hout; lia].
      intros _. split; [done|]. split; [intros Hfits; lia|done].
Qed.

Lemma add_to_cart_flow_witness :
  let flow := fun db =>
    confirm db 42
      (set_quantity (Some 5) (add_to_cart db 10 {| product_processing := None |}).1
                    (shop_products db)).1 in
  ((flow sample_shop).2 = ProductAdded
   /\ dict_get (shop_cart (flow sample_shop).1.2) (42, 10) = Some 9
   /\ (flow sample_shop).1.1 = {| product_processing := None |})
  /\ ((flow crowded_shop).2 = AddFailed /\ (flow crowded_shop).1.2 = crowded_shop).
Proof.
  split.
  - destruct (add_to_cart_flow sample_shop 42 10 {| product_name := "Blue mug"; stock := 5 |} 5
                {| product_processing := None |} eq_refl)
      as (_ & Hcleared & Hin & _).
    + vm_compute. left.
    + vm_compute. discriminate.
    + destruct Hin as (_ & Hfits & _); [simpl; lia|].
      destruct Hfits as (Hdone & Hline & _); [vm_compute; discriminate|].
      repeat split; assumption.
  - destruct (add_to_cart_flow crowded_shop 42 10 {| product_name := "Blue mug"; stock := 5 |} 5
                {| product_processing := None |} eq_refl)
      as (_ & _ & Hin & _).
    + vm_compute. left.
    + vm_compute. discriminate.
    + destruct Hin as (_ & _ & Hover); [simpl; lia|].
      apply Hover. vm_compute. reflexivity.
Defined.

(** ** Searching the FAQ and clearing the search (FAQ.handle_search_query,
    FAQ.remove_search_term) *)

Lemma dict_del_set {K V} `{EqDecision K} (d : dict K V) k v :
  dict_del (dict_set d k v) k = dict_del d k.
Proof.
  induction d as [|[k0 v0] d IH]; simpl.
  - by rewrite decide_True.
  - destruct (decide (k0 = k)) as [->|Hne]; simpl.
    + by rewrite decide_True.
    + rewrite decide_False by done. by rewrite IH.
Qed.

Lemma dict_del_absent {K V} `{EqDecision K} (d : dict K V) k :
  k ∉ dict_keys d -> dict_del d k = d.
Proof.
  unfold dict_keys. induction d as [|[k0 v0] d IH]; intros Hn; simpl; [done|].
  rewrite fmap_cons in Hn. apply not_elem_of_cons in Hn as [Hne Hn].
  cbn [fst] in Hne. rewrite decide_False by congruence. by rewrite IH.
Qed.

(** The node a reset-and-render leaves at the page of the engine: the
    reset node, possibly with children attached. *)
Lemma reset_render_node env (h : Heap) (self : Paginator) (g : PageNode -> PageNode) kw n :
  h !! page self = Some n ->
  exists n',
    out_heap (show_page env (alter g (page self) h) (set_cursor 0 self) None None kw)
    !! page self = Some n'
    /\ content n' = content (g n) /\ custom_kbd n' = custom_kbd (g n)
    /\ uid n' = uid (g n) /\ parent n' = parent (g n) /\ config n' = config (g n).
Proof.
  intros Hn. unfold show_page.
  destruct (get_page_content_extends env (alter g (page self) h) (set_cursor 0 self) None
              (Some (default (page (set_cursor 0 self)) None)) kw) as [_ Hext].
  destruct (Hext (page self) (g n) (reset_node_lookup h _ g n Hn))
    as (n' & Hn' & Hu & Hp & Hcfg & Hct & Hkbd & _).
  exists n'. done.
Qed.

(** X21: a search stores the term in the kwargs of the node on
    display and gives it the delete-search action; clearing the search
    afterwards removes both again, so that a node that had neither before
    the search has the kwargs and custom actions it had before.  Both
    resets keep the node on display and its uid, parent, label, text and
    configuration, and put the cursor at 0. *)
Theorem search_then_clear env env' (s : Engine) (search_term : string) n :
  current_node s = Some n ->
  let searched := step s (EvSearch env search_term) in
  let cleared := step searched (EvRemoveSearch env') in
  exists n1 n2,
    current_node searched = Some n1 /\ current_node cleared = Some n2
    /\ page (pg searched) = page (pg s) /\ page (pg cleared) = page (pg s)
    /\ cursor (pg searched) = 0 /\ cursor (pg cleared) = 0
    /\ dict_get (kwargs (content n1)) "search" = Some (Some search_term)
    /\ dict_get (custom_kbd n1) DELETE_SEARCH_LABEL = Some (KStr "delete_search")
    /\ kwargs (content n2) = dict_del (kwargs (content n)) "search"
    /\ custom_kbd n2 = dict_del (custom_kbd n) DELETE_SEARCH_LABEL
    /\ ("search" ∉ dict_keys (kwargs (content n)) -> kwargs (content n2) = kwargs (content n))
    /\ (DELETE_SEARCH_LABEL ∉ dict_keys (custom_kbd n) -> custom_kbd n2 = custom_kbd n)
    /\ uid n2 = uid n /\ parent n2 = parent n /\ config n2 = config n
    /\ text (content n2) = text (content n) /\ label (content n2) = label (content n)
    /\ is_leaf_node (content n2) = is_leaf_node (content n).
Proof.
  unfold current_node. intros Hn. cbv zeta.
  cbn [step]. unfold handle_search_query. cbn [faq_engine].
  unfold after at 2. cbn [fst snd heap pg].
  set (g1 := fun n : PageNode =>
               set_children []
                 (set_custom_kbd
                    (dict_set (custom_kbd n) DELETE_SEARCH_LABEL (KStr "delete_search"))
                    (set_kwargs (dict_set (kwargs (content n)) "search" (Some search_term))
                                n))).
  destruct (reset_render_node env (heap s) (pg s) g1 [("search", Some search_term)] n Hn)
    as (n1 & Hn1 & Hct1 & Hk1 & Hu1 & Hp1 & Hc1).
  set (h1 := out_heap (show_page env (alter g1 (page (pg s)) (heap s)) (set_cursor 0 (pg s))
                         None None [("search", Some search_term)])) in *.
  unfold remove_search_term. cbn [faq_engine]. unfold after.
  cbn [fst snd heap pg page cursor set_cursor].
  set (g2 := fun n : PageNode =>
               set_children []
                 (set_custom_kbd (dict_del (custom_kbd n) DELETE_SEARCH_LABEL)
                    (set_kwargs (dict_del (kwargs (content n)) "search") n))).
  destruct (reset_render_node env' h1 (set_cursor 0 (pg s)) g2 [] n1 Hn1)
    as (n2 & Hn2 & Hct2 & Hk2 & Hu2 & Hp2 & Hc2).
  cbn [page set_cursor] in Hn2. subst g1 g2. cbv beta in *.
  exists n1, n2. split; [exact Hn1|]. split; [exact Hn2|].
  do 4 (split; [done|]).
  rewrite Hct1, Hk1. cbn [set_children set_custom_kbd set_kwargs content custom_kbd kwargs].
  split; [by rewrite dict_get_set, decide_True|].
  split; [by rewrite dict_get_set, decide_True|].
  assert (Hkw : kwargs (content n2) = dict_del (kwargs (content n)) "search").
  { rewrite Hct2. cbn [set_children set_custom_kbd set_kwargs content kwargs].
    rewrite Hct1. cbn [set_children set_custom_kbd set_kwargs content kwargs].
    apply dict_del_set. }
  assert (Hkbd : custom_kbd n2 = dict_del (custom_kbd n) DELETE_SEARCH_LABEL).
  { rewrite Hk2. cbn [set_children set_custom_kbd set_kwargs custom_kbd].
    rewrite Hk1. cbn [set_children set_custom_kbd set_kwargs custom_kbd].
    apply dict_del_set. }
  split; [done|]. split; [done|].
  split; [intros Ha; by rewrite Hkw, dict_del_absent|].
  split; [intros Ha; by rewrite Hkbd, dict_del_absent|].
  rewrite Hu2, Hp2, Hc2, Hct2.
  cbn [set_children set_custom_kbd set_kwargs uid parent config content text label
       is_leaf_node].
  rewrite Hu1, Hp1, Hc1, Hct1.
  cbn [set_children set_custom_kbd set_kwargs uid parent config content text label
       is_leaf_node].
  done.
Qed.

Lemma search_then_clear_witness :
  let searched := step faq_start (EvSearch three_entries "card") in
  let cleared := step searched (EvRemoveSearch three_entries) in
  exists n1 n2,
    current_node searched = Some n1 /\ current_node cleared = Some n2
    /\ cursor (pg cleared) = 0
    /\ dict_get (kwargs (content n1)) "search" = Some (Some "card")
    /\ kwargs (content n2) = kwargs (content faq_root)
    /\ custom_kbd n2 = custom_kbd faq_root.
Proof.
  destruct (search_then_clear three_entries three_entries faq_start "card" faq_root eq_refl)
    as (n1 & n2 & H1 & H2 & _ & _ & _ & Hc & Hs & _ & _ & _ & Hkw & Hkbd & _).
  exists n1, n2. repeat split; try assumption.
  - apply Hkw. apply not_elem_of_nil.
  - apply Hkbd. apply not_elem_of_nil.
Defined.

(** X22: a search typed while a leaf entry is on display does not
    query anything: the entry stays on display, no content source is
    called, and the only change to the tree is that the entry itself
    receives the search term and the delete-search action (its children
    were empty already). *)
Theorem search_on_entry_does_not_search env (s : Engine) (search_term : string) n :
  current_node s = Some n ->
  is_leaf_node (content n) = true ->
  let t := handle_search_query env (heap s) (Some (pg s)) search_term in
  out_trace t.2 = []
  /\ page t.1 = page (pg s)
  /\ out_heap t.2
     = alter (fun n =>
                set_children []
                  (set_custom_kbd
                     (dict_set (custom_kbd n) DELETE_SEARCH_LABEL (KStr "delete_search"))
                     (set_kwargs (dict_set (kwargs (content n)) "search" (Some search_term))
                                 n)))
             (page (pg s)) (heap s).
Proof.
  unfold current_node. intros Hn Hleaf. cbv zeta.
  unfold handle_search_query. cbn [faq_engine fst snd].
  unfold show_page, _get_page_content. cbv zeta. simpl default.
  rewrite (reset_node_lookup (heap s) _ _ n Hn).
  rewrite load_step_leaf by done. cbn [out_result out_heap out_trace].
  done.
Qed.

Lemma search_on_entry_does_not_search_witness :
  let s := {| heap := faq_loaded; pg := set_page 2%nat (pg faq_start) |} in
  let t := handle_search_query three_entries (heap s) (Some (pg s)) "card" in
  out_trace t.2 = [] /\ page t.1 = 2%nat
  /\ (label <$> (content <$> current_node (after t))) = Some (Some "Payment?").
Proof.
  destruct (search_on_entry_does_not_search three_entries
              {| heap := faq_loaded; pg := set_page 2%nat (pg faq_start) |} "card"
              payment_entry)
    as (Htrace & Hpage & Hheap); [reflexivity|reflexivity|].
  split; [exact Htrace|]. split; [exact Hpage|].
  vm_compute. reflexivity.
Defined.
(** ** The text of a page (Paginator._get_page_content, faq_formatter) *)

Lemma build_page_text h self tp hm r :
  build_page h self tp hm = Ok r ->
  r_text r = match formatter self with
             | Some f => f (text (content tp)) (kwargs (content tp))
             | None => text (content tp)
             end
  /\ r_image r = image (content tp).
Proof.
  unfold build_page. destruct (create_navigation _ _ _ _) as [[k sz]|e]; [|discriminate].
  intros E. injection E as <-. done.
Qed.

(** A page that a render returns was built from the target node as the
    loading step left it, whose content is the one it had before. *)
Lemma get_page_content_built env h self func page_arg kw tp r :
  h !! default (page self) page_arg = Some tp ->
  out_result (_get_page_content env h self func page_arg kw) = Ok r ->
  exists h' tp' hm,
    h' !! default (page self) page_arg = Some tp'
    /\ content tp' = content tp
    /\ build_page h' self tp' hm = Ok r.
Proof.
  intros Htp Hr.
  destruct (get_page_content_extends env h self func page_arg kw) as [_ Hext].
  destruct (Hext _ _ Htp) as (tp' & Htp' & _ & _ & _ & Hct & _).
  unfold _get_page_content in *. cbv zeta in *. rewrite Htp in *.
  destruct (out_result (load_step _ _ _ _ _ _ _)) as [hm|e]; cbn [out_result out_heap] in *;
    [|discriminate].
  rewrite Htp' in Hr. by eexists _, tp', hm.
Qed.

(** X23: the text and the image of a rendered page are those of the
    node's content as it was before the render, formatted with the node's
    own kwargs: neither the keyword arguments of the call nor what the
    content source returned enter the text. *)
Theorem render_text env h self func page_arg kw tp r :
  h !! default (page self) page_arg = Some tp ->
  out_result (_get_page_content env h self func page_arg kw) = Ok r ->
  r_text r = match formatter self with
             | Some f => f (text (content tp)) (kwargs (content tp))
             | None => text (content tp)
             end
  /\ r_image r = image (content tp).
Proof.
  intros Htp Hr.
  destruct (get_page_content_built env h self func page_arg kw tp r Htp Hr)
    as (h' & tp' & hm & _ & Hct & Hbuilt).
  apply build_page_text in Hbuilt. by rewrite Hct in Hbuilt.
Qed.

Lemma render_text_witness :
  exists r,
    out_result (_get_page_content three_entries [faq_root] (pg faq_start) None None
                  [("search", Some "card")]) = Ok r
    /\ r_text r = "You are in FAQ:" /\ r_image r = None.
Proof.
  eexists. split; [vm_compute; reflexivity|].
  match goal with
  | |- r_text ?r = _ /\ _ =>
      apply (render_text three_entries [faq_root] (pg faq_start) None None
               [("search", Some "card")] faq_root r eq_refl)
  end.
  vm_compute. reflexivity.
Defined.

Lemma kwargs_truthy_set_other (kw : Kwargs) k k' v :
  k <> k' -> kwargs_truthy (dict_set kw k v) k' = kwargs_truthy kw k'.
Proof. intros Hne. unfold kwargs_truthy. by rewrite dict_get_set, decide_False. Qed.

(** X24: after a search with a non-empty term, the page that
    [handle_search_query] renders (when it renders one) shows the text of
    the node on display, preceded by its question if it has one, and
    followed by the line that names the search term. *)
Theorem search_term_is_shown env (s : Engine) (search_term : string) n r :
  current_node s = Some n ->
  formatter (pg s) = Some faq_formatter ->
  search_term <> "" ->
  out_result (handle_search_query env (heap s) (Some (pg s)) search_term).2 = Ok r ->
  r_text r
  = (match kwargs_truthy (kwargs (content n)) "question" with
     | Some question => "Question: " +:+ question +:+ NEWLINE +:+ NEWLINE
     | None => ""
     end +:+ text (content n))
    +:+ NEWLINE +:+ NEWLINE +:+ "Search query: " +:+ search_term.
Proof.
  unfold current_node. intros Hn Hfmt Hne. unfold handle_search_query.
  cbn [faq_engine snd]. unfold show_page. intros Hr.
  set (g := fun n : PageNode =>
              set_children []
                (set_custom_kbd
                   (dict_set (custom_kbd n) DELETE_SEARCH_LABEL (KStr "delete_search"))
                   (set_kwargs (dict_set (kwargs (content n)) "search" (Some search_term))
                               n))) in *.
  pose proof (reset_node_lookup (heap s) (page (pg s)) g n Hn) as Hl.
  apply (get_page_content_built env (alter g (page (pg s)) (heap s)) (set_cursor 0 (pg s))
           None (Some (page (pg s))) [("search", Some search_term)] (g n) r Hl) in Hr
    as (h' & tp' & hm & _ & Hct & Hr).
  apply build_page_text in Hr as [Hr _]. rewrite Hct in Hr.
  subst g. cbv beta in Hr.
  cbn [formatter set_cursor] in Hr. rewrite Hfmt in Hr. rewrite Hr.
  cbn [set_children set_custom_kbd set_kwargs content text kwargs].
  unfold faq_formatter. rewrite (kwargs_truthy_set_other _ "search" "question") by (intros E; discriminate E).
  unfold kwargs_truthy at 1. rewrite dict_get_set, decide_True by done.
  by rewrite decide_False.
Qed.

Lemma search_term_is_shown_witness :
  exists r,
    out_result (handle_search_query three_entries (heap faq_start) (Some (pg faq_start))
                  "card").2 = Ok r
    /\ r_text r
       = ("" +:+ "You are in FAQ:") +:+ NEWLINE +:+ NEWLINE +:+ "Search query: " +:+ "card".
Proof.
  eexists. split; [vm_compute; reflexivity|].
  match goal with
  | |- r_text ?r = _ =>
      apply (search_term_is_shown three_entries faq_start "card" faq_root r eq_refl eq_refl)
  end.
  - discriminate.
  - vm_compute. reflexivity.
Defined.

Lemma string_app_assoc (a b c : string) : (a +:+ b) +:+ c = a +:+ (b +:+ c).
Proof.
  induction a as [|x a IH]; [done|].
  change (String x ((a +:+ b) +:+ c) = String x (a +:+ (b +:+ c))). by rewrite IH.
Qed.

(** X25: an entry as the FAQ source builds it is shown as its question
    and its answer and never names a search term, also while a search is
    active and passed to the render: the term reaches the content source,
    not the entries it returns. *)
Theorem entry_text_omits_search env h self func page_arg kw tp entry r :
  h !! default (page self) page_arg = Some tp ->
  content tp = new_content (faq_node entry) ->
  entry_question entry <> "" ->
  formatter self = Some faq_formatter ->
  out_result (_get_page_content env h self func page_arg kw) = Ok r ->
  r_text r
  = "Question: " +:+ entry_question entry +:+ NEWLINE +:+ NEWLINE +:+ entry_answer entry.
Proof.
  intros Htp Hct Hq Hfmt Hr.
  destruct (get_page_content_built _ _ _ _ _ _ _ _ Htp Hr)
    as (h' & tp' & hm & _ & Hct' & Hbuilt).
  apply build_page_text in Hbuilt as [Hbuilt _].
  rewrite Hfmt, Hct', Hct in Hbuilt. rewrite Hbuilt. cbn [faq_node new_content text kwargs].
  unfold faq_formatter, kwargs_truthy. cbn [dict_get].
  rewrite (decide_False (P := "question" = "search")) by (intros E; discriminate E).
  rewrite (decide_True (P := "question" = "question")) by done.
  rewrite (decide_False (P := entry_question entry = "")) by done.
  by rewrite !string_app_assoc.
Qed.

Lemma entry_text_omits_search_witness :
  exists r,
    out_result (_get_page_content three_entries faq_loaded (set_page 2%nat (pg faq_start))
                  None None [("search", Some "card")]) = Ok r
    /\ r_text r = "Question: " +:+ "Payment?" +:+ NEWLINE +:+ NEWLINE +:+ "By card.".
Proof.
  eexists. split; [vm_compute; reflexivity|].
  match goal with
  | |- r_text ?r = _ =>
      apply (entry_text_omits_search three_entries faq_loaded (set_page 2%nat (pg faq_start))
               None None [("search", Some "card")] payment_entry
               {| entry_id := 2; entry_question := "Payment?"; entry_answer := "By card." |}
               r eq_refl eq_refl)
  end.
  - discriminate.
  - reflexivity.
  - vm_compute. reflexivity.
Defined.
(** ** Opening a category of the catalog (Catalog.on_enter,
    Catalog.handle_navigation) *)

Lemma add_children_other h self data l n :
  h !! l = Some n -> l <> self -> add_children h self data !! l = Some n.
Proof.
  unfold add_children. revert h.
  induction data as [|x data IH]; intros h Hn Hne; simpl; [done|].
  apply IH; [|done]. by apply add_child_other.
Qed.

(** The object [add_children] creates for its [j]-th argument. *)
Lemma add_children_new h self data j x :
  (self < length h)%nat -> data !! j = Some x ->
  add_children h self data !! (length h + j)%nat
  = Some {| uid := new_uid x; content := new_content x; custom_kbd := new_custom_kbd x;
            parent := Some self; children := []; config := new_config x |}.
Proof.
  unfold add_children. revert h j.
  induction data as [|y data IH]; intros h j Hself Hx; [done|].
  cbn [foldl]. destruct j as [|j]; cbn in Hx.
  - injection Hx as ->. rewrite Nat.add_0_r.
    apply (add_children_other _ self data); [by apply add_child_new|lia].
  - replace (length h + S j)%nat with (length (add_child h self y) + j)%nat
      by (rewrite add_child_length; lia).
    apply IH; [rewrite add_child_length; lia|done].
Qed.

Lemma category_uids_NoDup (cats : list Category) :
  NoDup (category_id <$> cats) ->
  NoDup (new_uid <$> (catalog_node <$> (ItemCategory <$> cats))).
Proof.
  intros Hnd.
  assert (Hstr : Inj (=) (=) py_str) by (intros a b; apply py_str_inj).
  assert (Hpre : Inj (=) (=) (String.append "category_")) by (intros a b E; by injection E).
  apply (NoDup_fmap_2 py_str) in Hnd.
  apply (NoDup_fmap_2 (String.append "category_")) in Hnd.
  rewrite <- !list_fmap_compose in *. exact Hnd.
Qed.

Lemma load_data_heap env h target tp f kw data hm :
  env f (uid tp) (obj_count_per_page (config tp)) (Z.of_nat (length (children tp))) kw
  = LoaderReturns (Some data) hm ->
  out_heap (_load_data env h target tp (Some f) kw) = add_children h target data.
Proof. intros Henv. unfold _load_data. rewrite Henv. by destruct data. Qed.

(** X26: entering the catalog and opening one of the categories on its
    first page.  The first render attaches the first five top-level
    categories to the root; the button of a category leads to the node
    created for it, with the cursor at 0, and the render of that node asks
    the catalog source for that category and attaches the first five of its
    sub-categories and products. *)
Theorem catalog_descend py_int faq db cart c (i : nat) :
  top_categories db !! i = Some c -> (i < 5)%nat ->
  NoDup (category_id <$> top_categories db) ->
  py_int (py_str (category_id c)) = Some (category_id c) ->
  let env := scene_sources py_int faq (Some db) cart in
  let first_page :=
    add_children [catalog_root] 0%nat
      (catalog_node <$> take 5 (catalog_rows db KindRoot)) in
  let s := run catalog_start
               [EvShow env None [];
                EvNavigate env A_down (Some ("category_" +:+ py_str (category_id c))) []] in
  heap (run catalog_start [EvShow env None []]) = first_page
  /\ page (pg s) = (1 + i)%nat /\ cursor (pg s) = 0
  /\ heap s
     = add_children first_page (1 + i)%nat
         (catalog_node <$> take 5 (catalog_rows db (KindCategory (category_id c))))
  /\ exists node,
      current_node s = Some node
      /\ uid node = "category_" +:+ py_str (category_id c)
      /\ parent node = Some 0%nat
      /\ label (content node) = Some (category_name c).
Proof.
  intros Hc Hi Hnd Hint env first_page s.
  set (tops := catalog_node <$> take 5 (catalog_rows db KindRoot)) in *.
  (* the first render *)
  assert (H1 : heap (run catalog_start [EvShow env None []]) = first_page).
  { cbn [run foldl step after fst snd heap pg catalog_start].
    unfold show_page, _get_page_content. cbv zeta. simpl default.
    change ([catalog_root] !! 0%nat) with (Some catalog_root). cbv beta iota.
    destruct (load_step_spec env [catalog_root] catalog_engine 0%nat catalog_root
                (resolve_loader None catalog_engine catalog_root) [] eq_refl) as [_ Hload].
    rewrite Hload by (cbn; lia).
    assert (Hheap : out_heap (_load_data env [catalog_root] 0%nat catalog_root
                                (resolve_loader None catalog_engine catalog_root) [])
                    = first_page).
    { apply load_data_heap with (hm := 0 + 5 <? Z.of_nat (length (catalog_rows db KindRoot))).
      unfold env, scene_sources. rewrite decide_False by done. rewrite decide_True by done.
      by rewrite (catalog_loader_rows py_int db _ KindRoot). }
    by destruct (out_result _). }
  split; [exact H1|].
  (* the root after the first render, and the node of the category *)
  assert (Htake : take 5 (top_categories db) !! i = Some c) by by rewrite lookup_take_lt.
  assert (Htops : tops !! i = Some (catalog_node (ItemCategory c))).
  { unfold tops, catalog_rows. by rewrite <- fmap_take, !list_lookup_fmap, Htake. }
  assert (Hnd5 : NoDup (new_uid <$> tops)).
  { unfold tops, catalog_rows. rewrite <- fmap_take. apply category_uids_NoDup.
    rewrite fmap_take. eapply sublist_NoDup; [exact Hnd|apply sublist_take]. }
  destruct (add_children_self_fresh [catalog_root] 0%nat tops catalog_root eq_refl Hnd5)
    as (root & Hroot & Hch).
  { intros x _. apply not_elem_of_nil. }
  fold first_page in Hroot.
  change (children catalog_root) with (@nil (string * nat)) in Hch. cbn [app length] in Hch.
  destruct (add_children_extends [catalog_root] 0%nat tops) as [_ Hext].
  destruct (Hext 0%nat catalog_root eq_refl) as (root' & Hroot' & _ & _ & Hcfg & _).
  fold first_page in Hroot'. rewrite Hroot in Hroot'. injection Hroot' as <-.
  assert (Hget : dict_get (children root) ("category_" +:+ py_str (category_id c))
                 = Some (1 + i)%nat).
  { apply dict_elem_get.
    - unfold dict_keys. rewrite Hch, fmap_imap.
      assert (Hk : imap (fun n : nat => fst ∘ (fun x : NewNode => (new_uid x, (1 + n)%nat))) tops
                   = new_uid <$> tops) by apply imap_const.
      by rewrite Hk.
    - rewrite Hch. apply list_elem_of_lookup. exists i.
      rewrite list_lookup_imap, Htops. done. }
  pose proof (add_children_new [catalog_root] 0%nat tops i _ ltac:(cbn; lia) Htops) as Hnode.
  fold first_page in Hnode. cbn [length Nat.add catalog_node new_uid new_content
                                 new_custom_kbd new_config] in Hnode.
  set (node := {| uid := "category_" +:+ py_str (category_id c);
                  content := {| text := "Category: " +:+ category_name c;
                                label := Some (category_name c); image := None;
                                kwargs := []; is_leaf_node := false |};
                  custom_kbd := []; parent := Some 0%nat; children := [];
                  config := PaginatorConfig_default |}) in *.
  (* the descent *)
  assert (Hs : s = {| heap := add_children first_page (S i)
                                (catalog_node
                                   <$> take 5 (catalog_rows db (KindCategory (category_id c))));
                      pg := set_cursor 0 (set_page (S i) catalog_engine) |}).
  { change (1 + i)%nat with (S i) in *.
    assert (Hpg : pg (run catalog_start [EvShow env None []]) = catalog_engine) by done.
    assert (Hs1 : run catalog_start [EvShow env None []]
                  = {| heap := first_page; pg := catalog_engine |}).
    { revert H1 Hpg. destruct (run catalog_start [EvShow env None []]) as [h1 p1].
      cbn [heap pg]. by intros -> ->. }
    unfold s.
    change (run catalog_start
              [EvShow env None [];
               EvNavigate env A_down (Some ("category_" +:+ py_str (category_id c))) []])
      with (step (run catalog_start [EvShow env None []])
                 (EvNavigate env A_down (Some ("category_" +:+ py_str (category_id c))) [])).
    rewrite Hs1.
    cbn [step heap pg]. unfold handle_navigation, navigate.
    change (page catalog_engine) with 0%nat. rewrite Hroot, Hget.
    unfold after. cbn [fst snd]. f_equal.
    unfold show_page, _get_page_content. cbv zeta. simpl default.
    cbn [page set_cursor set_page]. change (1 + i)%nat with (S i). rewrite Hnode.
    destruct (load_step_spec env first_page
                (set_cursor 0 (set_page (S i) catalog_engine)) (S i) node
                (resolve_loader None (set_cursor 0 (set_page (S i) catalog_engine)) node)
                [] eq_refl) as [_ Hload].
    rewrite Hload by (cbn; lia).
    assert (Hheap :
      out_heap (_load_data env first_page (S i) node
                  (resolve_loader None (set_cursor 0 (set_page (S i) catalog_engine))
                                  node) [])
      = add_children first_page (S i)
          (catalog_node <$> take 5 (catalog_rows db (KindCategory (category_id c))))).
    { apply load_data_heap
        with (hm := 0 + 5 <? Z.of_nat (length (catalog_rows db (KindCategory (category_id c))))).
      unfold env, scene_sources. rewrite decide_False by done. rewrite decide_True by done.
      cbn [uid node config obj_count_per_page PaginatorConfig_default children length].
      by rewrite (catalog_loader_rows py_int db _ (KindCategory (category_id c)))
        by (done || by apply (category_uid_kind py_int c)). }
    by destruct (out_result _). }
  rewrite Hs. cbn [heap pg page cursor set_cursor set_page].
  split; [done|]. split; [done|]. split; [done|].
  unfold current_node. cbn [heap pg page set_cursor set_page].
  destruct (add_children_extends first_page (1 + i)%nat
              (catalog_node <$> take 5 (catalog_rows db (KindCategory (category_id c)))))
    as [_ Hext2].
  destruct (Hext2 _ _ Hnode) as (node' & Hnode' & Hu & Hp & _ & Hct & _).
  exists node'. split; [done|]. rewrite Hu, Hp, Hct. done.
Qed.

Lemma catalog_descend_witness :
  let env := scene_sources decimal_int sample_faq (Some sample_catalog) cart_down in
  let s := run catalog_start
               [EvShow env None []; EvNavigate env A_down (Some "category_1") []] in
  length (heap (run catalog_start [EvShow env None []])) = 3%nat
  /\ page (pg s) = 1%nat /\ cursor (pg s) = 0
  /\ length (heap s) = 6%nat
  /\ exists node,
      current_node s = Some node
      /\ uid node = "category_1" /\ parent node = Some 0%nat
      /\ label (content node) = Some "Mugs".
Proof.
  destruct (catalog_descend decimal_int sample_faq sample_catalog cart_down
              {| category_id := 1; category_name := "Mugs" |} 0 eq_refl)
    as (Hfirst & Hpage & Hcursor & Hheap & Hnode).
  - lia.
  - vm_compute. repeat constructor; rewrite ?elem_of_cons, ?elem_of_nil; intros H;
      repeat destruct H as [H|H]; discriminate || done.
  - reflexivity.
  - split; [etrans; [exact (f_equal length Hfirst)|reflexivity]|].
    split; [exact Hpage|]. split; [exact Hcursor|].
    split; [etrans; [exact (f_equal length Hheap)|reflexivity]|]. exact Hnode.
Defined.
